(** * red-bird: the SQL table accessor ([redbird/sql/expressions.py])

    A shallow embedding of the [Table] class and of [to_native], and the
    properties of the filter translator, the type bridge, the statement
    dispatcher and the transaction helpers.

    Conventions.  Python values are a tagged union [Value]; exceptions are
    values of [Exception] and a call that may raise returns a [Result].
    Methods of [Table] that read or write the accessor or the database run
    in the monad [M], which keeps the state reached when an exception
    propagates (as Python does).  The relational toolkit (SQLAlchemy), the
    Python builtins and the file system are not code of this repository:
    the builtins and the raw-SQL interpreter are the fields of [Runtime],
    the toolkit calls the source makes are given a reference semantics in
    the section "Relational toolkit". *)

From Stdlib Require Import ZArith List String Ascii Bool Lia DecimalString.
From stdpp Require Import gmap strings.

Open Scope string_scope.
Open Scope list_scope.
Open Scope Z_scope.

(** ** Exceptions and results *)

Inductive Exception : Type :=
| NotImplementedError (msg : string)
| AttributeError (msg : string)
| KeyError (key : string)
| ValueError (msg : string)
| TypeError (msg : string)
| IndexError (msg : string)
| OSError (msg : string)
| BackendError (cls msg : string).
(* [BackendError cls msg]: an exception of class [cls] raised inside the
   relational toolkit or the database driver (module sqlalchemy.exc). *)

Definition exception_class (e : Exception) : string :=
  match e with
  | NotImplementedError _ => "NotImplementedError"
  | AttributeError _ => "AttributeError"
  | KeyError _ => "KeyError"
  | ValueError _ => "ValueError"
  | TypeError _ => "TypeError"
  | IndexError _ => "IndexError"
  | OSError _ => "OSError"
  | BackendError cls _ => cls
  end.

Definition exception_message (e : Exception) : string :=
  match e with
  | NotImplementedError m | AttributeError m | KeyError m | ValueError m
  | TypeError m | IndexError m | OSError m | BackendError _ m => m
  end.

Inductive Result (A : Type) : Type :=
| Ok (a : A)
| Raise (e : Exception).
Arguments Ok {A} a.
Arguments Raise {A} e.

#[global] Instance Result_ret : MRet Result := fun A a => Ok a.
#[global] Instance Result_bind : MBind Result := fun A B f r =>
  match r with
  | Ok a => f a
  | Raise e => Raise e
  end.
#[global] Instance Result_fmap : FMap Result := fun A B f r =>
  match r with
  | Ok a => Ok (f a)
  | Raise e => Raise e
  end.

Definition is_ok {A} (r : Result A) : bool :=
  match r with Ok _ => true | Raise _ => false end.

(** [needle] occurs in [hay]. *)
Fixpoint contains (needle hay : string) : bool :=
  String.prefix needle hay ||
  match hay with
  | EmptyString => false
  | String _ rest => contains needle rest
  end.

(** ** Python values and classes *)

Record Date : Type := mkDate { year : Z; month : Z; day : Z }.

Record DateTime : Type := mkDateTime {
  dt_date : Date; hour : Z; minute : Z; second : Z; microsecond : Z }.

(* Floats and dicts are carried opaquely, by their printed form. *)
Inductive Value : Type :=
| VNone
| VBool (b : bool)
| VInt (n : Z)
| VFloat (repr : string)
| VStr (s : string)
| VDate (d : Date)
| VDateTime (dt : DateTime)
| VTimedelta (microseconds : Z)
| VDict (json : string).

Inductive PyClass : Type :=
| py_str | py_int | py_float | py_bool | py_date | py_datetime
| py_timedelta | py_dict | py_NoneType.

#[global] Instance Date_eq_dec : EqDecision Date.
Proof. solve_decision. Defined.
#[global] Instance DateTime_eq_dec : EqDecision DateTime.
Proof. solve_decision. Defined.
#[global] Instance Value_eq_dec : EqDecision Value.
Proof. solve_decision. Defined.
#[global] Instance PyClass_eq_dec : EqDecision PyClass.
Proof. solve_decision. Defined.

Definition class_name (c : PyClass) : string :=
  match c with
  | py_str => "str" | py_int => "int" | py_float => "float"
  | py_bool => "bool" | py_date => "date" | py_datetime => "datetime"
  | py_timedelta => "timedelta" | py_dict => "dict"
  | py_NoneType => "NoneType"
  end.

(** [type(value)] *)
Definition type_of (v : Value) : PyClass :=
  match v with
  | VNone => py_NoneType
  | VBool _ => py_bool
  | VInt _ => py_int
  | VFloat _ => py_float
  | VStr _ => py_str
  | VDate _ => py_date
  | VDateTime _ => py_datetime
  | VTimedelta _ => py_timedelta
  | VDict _ => py_dict
  end.

(** [bool] is a subclass of [int], [datetime.datetime] of [datetime.date]. *)
Definition issubclass (c d : PyClass) : bool :=
  match c, d with
  | py_bool, py_int => true
  | py_datetime, py_date => true
  | _, _ => bool_decide (c = d)
  end.

Definition isinstance (v : Value) (c : PyClass) : bool :=
  issubclass (type_of v) c.

(** ** Column types

    The value side of the class attribute [Table.types], and
    [sqlalchemy.types.NullType], which a column gets when [types.get]
    finds nothing. *)
Inductive SqlType : Type :=
| String_ | Integer | Float | Boolean | Date_ | DateTime_ | Interval
| JSON | NullType.

#[global] Instance SqlType_eq_dec : EqDecision SqlType.
Proof. solve_decision. Defined.

(** [Table.types.get(cls)] for a class [cls] *)
Definition types (cls : PyClass) : option SqlType :=
  match cls with
  | py_str => Some String_
  | py_int => Some Integer
  | py_float => Some Float
  | py_bool => Some Boolean
  | py_date => Some Date_
  | py_datetime => Some DateTime_
  | py_timedelta => Some Interval
  | py_dict => Some JSON
  | py_NoneType => None
  end.

(** [sql_type.python_type]; [NullType] has none and raises. *)
Definition python_type (t : SqlType) : Result PyClass :=
  match t with
  | String_ => Ok py_str
  | Integer => Ok py_int
  | Float => Ok py_float
  | Boolean => Ok py_bool
  | Date_ => Ok py_date
  | DateTime_ => Ok py_datetime
  | Interval => Ok py_timedelta
  | JSON => Ok py_dict
  | NullType => Raise (NotImplementedError "")
  end.

(** ** The filter language ([redbird.oper])

    Modelled from the spec: the module [redbird/oper.py] that declares
    [Operation], [Between], [In] and [skip].  The translator tells the
    operations apart by class ([Between], [In]), by identity with the
    singleton [skip], and by the presence of the attribute [__py_magic__];
    [Generic] is any other instance of [Operation], with its printed form,
    its [__py_magic__] when it has one, and its [value]. *)
Inductive Operation : Type :=
| Between (start end_ : Value)
| In (value : list Value)
| Skip
| Generic (repr : string) (py_magic : option string) (value : Value).

(** A filter entry is a plain value or an [Operation]. *)
Inductive FilterValue : Type :=
| Plain (value : Value)
| Oper (oper : Operation).

(** A filter is a Python dict; iteration follows insertion order. *)
Definition FilterMapping : Type := list (string * FilterValue).

(** ** Relational toolkit: expressions *)

(** A column reference: [sqlalchemy.Column(name)] has no table. *)
Record ColumnRef : Type := mkColumnRef {
  cref_table : option string; cref_name : string }.

Inductive Expr : Type :=
| ETrue
| ENull
| EAnd (a b : Expr)
| EOr (a b : Expr)
| ENot (a : Expr)
| EBetween (column : ColumnRef) (lo hi : Value)
| EIn (column : ColumnRef) (values : list Value)
| ECompare (magic : string) (column : ColumnRef) (value : Value).

#[global] Instance ColumnRef_eq_dec : EqDecision ColumnRef.
Proof. solve_decision. Defined.
#[global] Instance Expr_eq_dec : EqDecision Expr.
Proof. solve_decision. Defined.

(** The comparison methods of a column.  The toolkit's column class has
    more attributes (arithmetic, [like], ...); they are outside this
    model, which keeps the comparisons the filter language stands for. *)
Definition column_operators : list string :=
  ["__eq__"; "__ne__"; "__lt__"; "__le__"; "__gt__"; "__ge__"].

(** [getattr(column, magic)] *)
Definition column_getattr (column : ColumnRef) (magic : string)
  : Result (Value -> Expr) :=
  if existsb (String.eqb magic) column_operators
  then Ok (ECompare magic column)
  else Raise (AttributeError
    ("Neither 'Column' object nor 'Comparator' object has an attribute '"
       +:+ magic +:+ "'")).

(** The optional argument [table] of [to_sql_expressions]: an object whose
    attributes are columns. *)
Definition ColumnSource : Type := string -> option ColumnRef.

(** [getattr(table, column_name) if table is not None else Column(column_name)] *)
Definition resolve_column (table : option ColumnSource) (column_name : string)
  : Result ColumnRef :=
  match table with
  | Some t =>
      match t column_name with
      | Some c => Ok c
      | None => Raise (AttributeError column_name)
      end
  | None => Ok (mkColumnRef None column_name)
  end.

(** The expression one filter entry contributes: [None] is [continue]. *)
Definition sql_oper_of (column : ColumnRef) (oper_or_value : FilterValue)
  : Result (option Expr) :=
  match oper_or_value with
  | Oper (Between start end_) => Ok (Some (EBetween column start end_))
  | Oper (In value) => Ok (Some (EIn column value))
  | Oper Skip => Ok None
  | Oper (Generic repr (Some magic) value) =>
      oper_method ← column_getattr column magic;
      Ok (Some (oper_method value))
  | Oper (Generic repr None value) =>
      Raise (NotImplementedError ("Not implemented operator: " +:+ repr))
  | Plain value => Ok (Some (ECompare "__eq__" column value))
  end.

(** The loop of [Table.to_sql_expressions], from the accumulator [stmt]. *)
Fixpoint to_sql_expressions_from (table : option ColumnSource) (stmt : Expr)
    (items : FilterMapping) : Result Expr :=
  match items with
  | [] => Ok stmt
  | (column_name, oper_or_value) :: rest =>
      column ← resolve_column table column_name;
      sql_oper ← sql_oper_of column oper_or_value;
      match sql_oper with
      | Some e => to_sql_expressions_from table (EAnd stmt e) rest
      | None => to_sql_expressions_from table stmt rest
      end
  end.

(** [Table.to_sql_expressions(qry, table=None)] *)
Definition to_sql_expressions (qry : FilterMapping) (table : option ColumnSource)
  : Result Expr :=
  to_sql_expressions_from table ETrue qry.

(** ** The Python runtime and the raw-SQL interpreter

    What the source calls but this repository does not define: the class
    constructors [py_type(value)], the two ISO-8601 parsers,
    [Path.read_text], the database's interpretation of raw SQL text
    (rows stored per table, see [Relation] below), and [bind_param]: what
    the dialect and the driver make of a value given for a column of a
    type when a row is written, the cell that is stored or the error
    (a text given for a date column is refused by one dialect and parsed
    by another). *)
Record Column : Type := mkColumn {
  col_name : string; col_type : SqlType; col_nullable : bool;
  col_primary_key : bool }.

(** A stored row maps column names to cells. *)
Record Relation : Type := mkRelation {
  rel_columns : list Column; rel_rows : list (gmap string Value) }.

(** A row of a result set ([sqlalchemy.engine.Row], and its
    [RowMapping]): ordered, read by position or by name. *)
Definition BackendRow : Type := list (string * Value).

Record Runtime : Type := mkRuntime {
  construct : PyClass -> Value -> Result Value;
  date_fromisoformat : string -> Result Date;
  datetime_fromisoformat : string -> Result DateTime;
  read_text : string -> Result string;
  execute_text : string -> gmap string Relation ->
                 Result (gmap string Relation * list BackendRow);
  bind_param : SqlType -> Value -> Result Value }.

(** ** Type bridge: [to_native] *)

Definition to_native (rt : Runtime) (value : Value) (sql_type : SqlType)
    (nullable : bool) : Result Value :=
  py_type ← python_type sql_type;
  if isinstance value py_type then Ok value
  else
    match py_type, value with
    | py_datetime, VStr s => VDateTime <$> datetime_fromisoformat rt s
    | py_date, VStr s => VDate <$> date_fromisoformat rt s
    | _, _ =>
        if nullable && bool_decide (value = VNone) then Ok value
        else construct rt py_type value
    end.

(** ** Relational toolkit: semantics of expressions

    Three-valued logic: [None] is SQL's unknown.  A row is selected
    when the where clause evaluates to [Some true]. *)

Definition compare_date (a b : Date) : comparison :=
  match year a ?= year b with
  | Eq => match month a ?= month b with
          | Eq => day a ?= day b
          | c => c
          end
  | c => c
  end.

Definition time_of_day (t : DateTime) : Z :=
  ((hour t * 60 + minute t) * 60 + second t) * 1000000 + microsecond t.

Definition compare_datetime (a b : DateTime) : comparison :=
  match compare_date (dt_date a) (dt_date b) with
  | Eq => time_of_day a ?= time_of_day b
  | c => c
  end.

Definition as_int (v : Value) : option Z :=
  match v with
  | VInt n => Some n
  | VBool b => Some (Z.b2z b)
  | _ => None
  end.

(** Order of two cells; [None] when one is NULL or the two are of
    different kinds. *)
Definition compare_values (a b : Value) : option comparison :=
  match a, b with
  | VStr x, VStr y => Some (String.compare x y)
  | VDate x, VDate y => Some (compare_date x y)
  | VDateTime x, VDateTime y => Some (compare_datetime x y)
  | VTimedelta x, VTimedelta y => Some (x ?= y)
  | VFloat x, VFloat y => if bool_decide (x = y) then Some Eq else None
  | VDict x, VDict y => if bool_decide (x = y) then Some Eq else None
  | _, _ =>
      match as_int a, as_int b with
      | Some x, Some y => Some (x ?= y)
      | _, _ => None
      end
  end.

Definition and3 (a b : option bool) : option bool :=
  match a, b with
  | Some false, _ | _, Some false => Some false
  | Some true, Some true => Some true
  | _, _ => None
  end.

Definition or3 (a b : option bool) : option bool :=
  match a, b with
  | Some true, _ | _, Some true => Some true
  | Some false, Some false => Some false
  | _, _ => None
  end.

Definition not3 (a : option bool) : option bool := negb <$> a.

Definition le3 (a b : Value) : option bool :=
  (fun c => negb (bool_decide (c = Gt))) <$> compare_values a b.

Definition eq3 (a b : Value) : option bool :=
  (fun c => bool_decide (c = Eq)) <$> compare_values a b.

(** [cell <magic> value]; comparing with [None] is rendered [IS NULL] /
    [IS NOT NULL] by the toolkit. *)
Definition compare3 (magic : string) (cell value : Value) : option bool :=
  if String.eqb magic "__eq__" then
    if bool_decide (value = VNone) then Some (bool_decide (cell = VNone))
    else eq3 cell value
  else if String.eqb magic "__ne__" then
    if bool_decide (value = VNone)
    then Some (negb (bool_decide (cell = VNone)))
    else not3 (eq3 cell value)
  else if String.eqb magic "__lt__" then not3 (le3 value cell)
  else if String.eqb magic "__le__" then le3 cell value
  else if String.eqb magic "__gt__" then not3 (le3 cell value)
  else if String.eqb magic "__ge__" then le3 value cell
  else None.

Definition cell_of (row : gmap string Value) (column : ColumnRef) : Value :=
  default VNone (row !! cref_name column).

Fixpoint eval (e : Expr) (row : gmap string Value) : option bool :=
  match e with
  | ETrue => Some true
  | ENull => None
  | EAnd a b => and3 (eval a row) (eval b row)
  | EOr a b => or3 (eval a row) (eval b row)
  | ENot a => not3 (eval a row)
  | EBetween c lo hi =>
      and3 (le3 lo (cell_of row c)) (le3 (cell_of row c) hi)
  | EIn c vs =>
      fold_right (fun v acc => or3 (eq3 (cell_of row c) v) acc)
                 (Some false) vs
  | ECompare magic c v => compare3 magic (cell_of row c) v
  end.

Definition matches (e : Expr) (row : gmap string Value) : bool :=
  bool_decide (eval e row = Some true).

(** The column names an expression mentions. *)
Fixpoint expr_columns (e : Expr) : list string :=
  match e with
  | ETrue | ENull => []
  | EAnd a b | EOr a b => expr_columns a ++ expr_columns b
  | ENot a => expr_columns a
  | EBetween c _ _ | EIn c _ | ECompare _ c _ => [cref_name c]
  end.

(** ** Relational toolkit: statements and their execution

    A reference semantics of the statements the accessor builds.
    A written row goes through the dialect's binding of its values, and
    NOT NULL and the primary key are enforced; a column has no default.
    Every connection sees one database; a transaction keeps the snapshot
    that a rollback restores. *)

(** [sqlalchemy.Table]: the schema handle the accessor caches. *)
Record SqlTable : Type := mkSqlTable {
  tbl_name : string; tbl_columns : list Column }.

Inductive Statement : Type :=
| TextClause (sql : string)
| Select (table : SqlTable) (columns : list Column) (whereclause : Expr)
| SelectCount (table : SqlTable) (whereclause : option Expr)
| Insert (table : SqlTable) (values : gmap string Value)
| Delete (table : SqlTable) (whereclause : Expr)
| Update (table : SqlTable) (whereclause : Expr) (values : gmap string Value)
| CreateTable (table : SqlTable).

(** What the source hands to a method as a filter: nothing, a
    [pathlib.Path], a [str], a [dict] or a toolkit expression. *)
Inductive Query : Type :=
| QNone
| QPath (path : string)
| QStr (sql : string)
| QDict (qry : FilterMapping)
| QExpr (e : Expr).

Definition no_text_coercion (s : string) : Exception :=
  BackendError "ArgumentError"
    ("Textual SQL expression '" +:+ s +:+
     "' should be explicitly declared as text('" +:+ s +:+ "')").

(** The coercion [statement.where(x)] applies to its argument: an
    expression is taken as it is, [None] becomes the constant NULL, a
    plain string is refused (the toolkit "won't accept string as
    expression", as [Table.execute] notes), and so is any other object. *)
Definition where_ (x : Query) : Result Expr :=
  match x with
  | QExpr e => Ok e
  | QNone => Ok ENull
  | QStr s => Raise (no_text_coercion s)
  | QPath p => Raise (BackendError "ArgumentError" p)
  | QDict _ => Raise (BackendError "ArgumentError" "dict")
  end.

Definition has_column (cols : list Column) (name : string) : bool :=
  existsb (fun c => String.eqb (col_name c) name) cols.

Definition lookup_relation (db : gmap string Relation) (t : SqlTable)
  : Result Relation :=
  match db !! tbl_name t with
  | Some rel => Ok rel
  | None =>
      Raise (BackendError "OperationalError" ("no such table: " +:+ tbl_name t))
  end.

Definition check_columns (rel : Relation) (names : list string) : Result unit :=
  match List.find (fun n => negb (has_column (rel_columns rel) n)) names with
  | Some n => Raise (BackendError "OperationalError" ("no such column: " +:+ n))
  | None => Ok tt
  end.

(** Names given to [values(...)] that the table handle does not have. *)
Definition check_consumed (t : SqlTable) (values : gmap string Value)
  : Result unit :=
  match List.find (fun n => negb (has_column (tbl_columns t) n))
                  (map fst (map_to_list values)) with
  | Some n => Raise (BackendError "CompileError" ("Unconsumed column names: " +:+ n))
  | None => Ok tt
  end.

Definition result_row (names : list string) (row : gmap string Value)
  : BackendRow :=
  map (fun n => (n, default VNone (row !! n))) names.

Definition stored_row (cols : list Column) (values : gmap string Value)
  : gmap string Value :=
  list_to_map (map (fun c => (col_name c, default VNone (values !! col_name c))) cols).

(** The cells stored for the values given: each value is bound by the
    type of its column, in the order of the columns; the first failure
    is the statement's. *)
Fixpoint bind_values (rt : Runtime) (columns : list Column)
    (values : gmap string Value) : Result (gmap string Value) :=
  match columns with
  | [] => Ok ∅
  | c :: columns =>
      match values !! col_name c with
      | None => bind_values rt columns values
      | Some v =>
          cell ← bind_param rt (col_type c) v;
          cells ← bind_values rt columns values;
          Ok (<[col_name c := cell]> cells)
      end
  end.

(** The cells of a row in the columns of the primary key. *)
Definition key_of (cols : list Column) (row : gmap string Value) : list Value :=
  map (fun c => default VNone (row !! col_name c))
      (List.filter col_primary_key cols).

(** Two rows collide when the table has a primary key and they agree on
    it; a key with a NULL collides with nothing. *)
Definition same_key (cols : list Column) (a b : gmap string Value) : bool :=
  negb (bool_decide (key_of cols a = []))
  && forallb (fun v => negb (bool_decide (v = VNone))) (key_of cols a)
  && bool_decide (key_of cols a = key_of cols b).

(** The constraints a row has to meet beside the rows [rows]: no NULL
    in a NOT NULL column (a key the database would generate itself has
    to be given) and no row with the same primary key. *)
Definition check_row (cols : list Column) (rows : list (gmap string Value))
    (row : gmap string Value) : Result unit :=
  match List.find (fun c => negb (col_nullable c)
                            && bool_decide (default VNone (row !! col_name c)
                                            = VNone)) cols with
  | Some c =>
      Raise (BackendError "IntegrityError"
               ("NOT NULL constraint failed: " +:+ col_name c))
  | None =>
      if existsb (same_key cols row) rows
      then Raise (BackendError "IntegrityError" "UNIQUE constraint failed")
      else Ok tt
  end.

(** The constraints on the rows [rows], each beside those before it
    and the rows [seen]. *)
Fixpoint check_rows (cols : list Column) (seen rows : list (gmap string Value))
  : Result unit :=
  match rows with
  | [] => Ok tt
  | row :: rows =>
      check_row cols seen row;;
      check_rows cols (row :: seen) rows
  end.

(** The columns of the result of [self.object.select] called with
    [columns]: the columns given, as the docstring of [Table.select] has
    it, or all of them. *)
Definition selected_names (t : SqlTable) (columns : list Column) : list string :=
  map col_name (match columns with [] => tbl_columns t | _ => columns end).

Definition run_statement (rt : Runtime) (stmt : Statement)
    (db : gmap string Relation)
  : Result (gmap string Relation * list BackendRow) :=
  match stmt with
  | TextClause sql => execute_text rt sql db
  | Select t columns w =>
      rel ← lookup_relation db t;
      check_columns rel (selected_names t columns ++ expr_columns w);;
      Ok (db, map (result_row (selected_names t columns))
                  (List.filter (matches w) (rel_rows rel)))
  | SelectCount t w =>
      rel ← lookup_relation db t;
      check_columns rel (from_option expr_columns [] w);;
      let rows := match w with
                  | Some e => List.filter (matches e) (rel_rows rel)
                  | None => rel_rows rel
                  end in
      Ok (db, [[("count_1", VInt (Z.of_nat (length rows)))]])
  | Insert t values =>
      rel ← lookup_relation db t;
      check_consumed t values;;
      check_columns rel (map fst (map_to_list values));;
      cells ← bind_values rt (tbl_columns t) values;
      let row := stored_row (rel_columns rel) cells in
      check_row (rel_columns rel) (rel_rows rel) row;;
      Ok (<[tbl_name t :=
             mkRelation (rel_columns rel) (rel_rows rel ++ [row])]> db, [])
  | Delete t w =>
      rel ← lookup_relation db t;
      check_columns rel (expr_columns w);;
      Ok (<[tbl_name t :=
             mkRelation (rel_columns rel)
               (List.filter (fun r => negb (matches w r)) (rel_rows rel))]> db, [])
  | Update t w values =>
      rel ← lookup_relation db t;
      check_consumed t values;;
      (if bool_decide (values = ∅)
       then Raise (BackendError "OperationalError" "near WHERE: syntax error")
       else Ok tt);;
      check_columns rel (map fst (map_to_list values) ++ expr_columns w);;
      cells ← bind_values rt (tbl_columns t) values;
      let rows := map (fun r => if matches w r then cells ∪ r else r)
                      (rel_rows rel) in
      check_rows (rel_columns rel) [] rows;;
      Ok (<[tbl_name t := mkRelation (rel_columns rel) rows]> db, [])
  | CreateTable t =>
      match List.find (fun c => bool_decide (col_type c = NullType))
                      (tbl_columns t) with
      | Some c =>
          Raise (BackendError "CompileError"
                   ("Can't generate DDL for NullType(): " +:+ col_name c))
      | None =>
          match tbl_columns t, db !! tbl_name t with
          | [], _ =>
              Raise (BackendError "OperationalError" "near ): syntax error")
          | _, Some _ =>
              Raise (BackendError "OperationalError"
                       ("table " +:+ tbl_name t +:+ " already exists"))
          | _, None =>
              Ok (<[tbl_name t := mkRelation (tbl_columns t) []]> db, [])
          end
      end
  end.

(** ** The accessor, the connections and the monad *)

(** What [Table.engine] holds: an engine, a connection obtained from
    [engine.begin()], or (after [begin()] on a connection) a transaction
    object. *)
Inductive Connectable : Type :=
| AnEngine
| AConnection (id : nat)
| ATransaction (id : nat).

(** The attributes of a [Table] instance.  [_ctx] is [None] until a
    transaction context is stored; [Some None] is a context that was not
    entered, [Some (Some c)] one entered on connection [c]. *)
Record Table : Type := mkTable {
  engine : Connectable;
  _name : option string;
  _object : option SqlTable;
  _ctx : option (option nat) }.

(** The database and, per connection, the snapshot of its open
    transaction ([None]: no transaction in progress). *)
Record World : Type := mkWorld {
  database : gmap string Relation;
  connections : list (option (gmap string Relation)) }.

Record State : Type := mkState { self : Table; world : World }.

Definition M (A : Type) : Type := State -> Result A * State.

#[global] Instance M_ret : MRet M := fun A a st => (Ok a, st).
#[global] Instance M_bind : MBind M := fun A B f m st =>
  match m st with
  | (Ok a, st') => f a st'
  | (Raise e, st') => (Raise e, st')
  end.

#[global] Instance M_fmap : FMap M := fun A B f m st =>
  match m st with
  | (Ok a, st') => (Ok (f a), st')
  | (Raise e, st') => (Raise e, st')
  end.

Definition raise {A} (e : Exception) : M A := fun st => (Raise e, st).
Definition lift {A} (r : Result A) : M A := fun st => (r, st).
Definition get_self : M Table := fun st => (Ok (self st), st).
Definition get_world : M World := fun st => (Ok (world st), st).
Definition put_self (t : Table) : M unit :=
  fun st => (Ok tt, mkState t (world st)).
Definition put_world (w : World) : M unit :=
  fun st => (Ok tt, mkState (self st) w).

Fixpoint mapM {A B} (f : A -> M B) (l : list A) : M (list B) :=
  match l with
  | [] => mret []
  | x :: rest => y ← f x; ys ← mapM f rest; mret (y :: ys)
  end.

(** ** [Table]: properties *)

(** [Table.name] (getter) *)
Definition name_get : M (option string) :=
  t ← get_self;
  mret (match _object t with
        | Some o => Some (tbl_name o)
        | None => _name t
        end).

(** [Table.name] (setter) *)
Definition name_set (value : option string) : M unit :=
  t ← get_self;
  put_self (mkTable (engine t) value None (_ctx t)).

(** [Table.object] (setter) *)
Definition object_set (value : SqlTable) : M unit :=
  t ← get_self;
  put_self (mkTable (engine t) (Some (tbl_name value)) (Some value) (_ctx t)).

(** [Table.connection] (getter and setter): a synonym of [engine] *)
Definition connection_get : M Connectable :=
  t ← get_self; mret (engine t).

Definition connection_set (value : Connectable) : M unit :=
  t ← get_self;
  put_self (mkTable value (_name t) (_object t) (_ctx t)).

(** [reflect_table(table, engine=engine)]: the schema the database has
    for the table; there is none for the name [None]. *)
Definition reflect_table (table : option string) : M SqlTable :=
  w ← get_world;
  match table with
  | Some n =>
      match database w !! n with
      | Some rel => mret (mkSqlTable n (rel_columns rel))
      | None => raise (BackendError "NoSuchTableError" n)
      end
  | None => raise (BackendError "NoSuchTableError" "None")
  end.

(** [Table.reflect] *)
Definition reflect : M unit :=
  n ← name_get;
  o ← reflect_table n;
  t ← get_self;
  put_self (mkTable (engine t) (_name t) (Some o) (_ctx t)).

(** [Table.object] (getter).  [reflect] either raises or stores a
    handle, so the last branch only accounts for Python handing [None]
    to the caller. *)
Definition object_get : M SqlTable :=
  t ← get_self;
  (match _object t with None => reflect | Some _ => mret tt end);;
  t ← get_self;
  match _object t with
  | Some o => mret o
  | None => raise (AttributeError "'NoneType' object has no attribute")
  end.

(** ** [Table]: statements *)

(** [Table.execute]; a [str] argument is wrapped in [text(...)]. *)
Definition execute (rt : Runtime) (arg : string + Statement)
  : M (list BackendRow) :=
  let stmt := match arg with inl sql => TextClause sql | inr s => s end in
  conn ← connection_get;
  match conn with
  | ATransaction _ =>
      raise (AttributeError "'RootTransaction' object has no attribute 'execute'")
  | AnEngine | AConnection _ =>
      w ← get_world;
      '(db, rows) ← lift (run_statement rt stmt (database w));
      put_world (mkWorld db (connections w));;
      mret rows
  end.

(** [self.object.columns[col]] *)
Definition column_getitem (col : string) : M Column :=
  o ← object_get;
  match List.find (fun c => String.eqb (col_name c) col) (tbl_columns o) with
  | Some c => mret c
  | None => raise (KeyError col)
  end.

(** The statement [Table.select] executes (lines 140-160). *)
Definition select_statement (rt : Runtime) (qry : Query)
    (columns : option (list string)) : M Statement :=
  qry ← match qry with
        | QPath p => lift (QStr <$> read_text rt p)
        | QNone => mret (QExpr ETrue)
        | _ => mret qry
        end;
  qry ← match qry with
        | QDict d => lift (QExpr <$> to_sql_expressions d None)
        | _ => mret qry
        end;
  match qry with
  | QStr sql => mret (TextClause sql)
  | _ =>
      columns ← match columns with
                | None => mret []
                | Some names => mapM column_getitem names
                end;
      o ← object_get;
      w ← lift (where_ qry);
      mret (Select o columns w)
  end.

(** What [Table.select] returns: the generator [_format_results(rows)],
    not started, or the row mappings themselves. *)
Inductive SelectResult : Type :=
| Generator (rows : list BackendRow)
| Mappings (rows : list BackendRow).

(** [Table.select] *)
Definition select (rt : Runtime) (qry : Query) (columns : option (list string))
  : M SelectResult :=
  statement ← select_statement rt qry columns;
  rows ← execute rt (inr statement);
  n ← name_get;
  mret (match n with
        | Some _ => Generator rows
        | None => Mappings rows
        end).

(** [row[name]] on a row mapping *)
Definition row_getitem (row : BackendRow) (name : string) : Result Value :=
  match List.find (fun kv => String.eqb (fst kv) name) row with
  | Some kv => Ok (snd kv)
  | None => Raise (KeyError name)
  end.

(** [Table._get_types]: per column, the conversion to apply *)
Definition _get_types : M (list Column) :=
  o ← object_get; mret (tbl_columns o).

(** The dict comprehension of [Table._format_results], column by column. *)
Fixpoint format_row (rt : Runtime) (acc : gmap string Value)
    (columns : list Column) (row : BackendRow) : Result (gmap string Value) :=
  match columns with
  | [] => Ok acc
  | c :: rest =>
      cell ← row_getitem row (col_name c);
      v ← to_native rt cell (col_type c) (col_nullable c);
      format_row rt (<[col_name c := v]> acc) rest row
  end.

Fixpoint format_rows (rt : Runtime) (columns : list Column)
    (rows : list BackendRow) : Result (list (gmap string Value)) :=
  match rows with
  | [] => Ok []
  | row :: rest =>
      d ← format_row rt ∅ columns row;
      ds ← format_rows rt columns rest;
      Ok (d :: ds)
  end.

(** [list(self._format_results(res))] *)
Definition _format_results (rt : Runtime) (res : list BackendRow)
  : M (list (gmap string Value)) :=
  columns ← _get_types;
  lift (format_rows rt columns res).

(** An element of [list(table.select(...))]: a dict or a row mapping. *)
Inductive OutRow : Type :=
| DictRow (d : gmap string Value)
| MappingRow (r : BackendRow).

(** [list(result)] for a result of [Table.select] *)
Definition list_ (rt : Runtime) (r : SelectResult) : M (list OutRow) :=
  match r with
  | Generator rows => ds ← _format_results rt rows; mret (map DictRow ds)
  | Mappings rows => mret (map MappingRow rows)
  end.

(** [Table.insert] *)
Definition insert (rt : Runtime) (data : gmap string Value) : M unit :=
  table ← object_get;
  execute rt (inr (Insert table data));;
  mret tt.

(** The statement [Table.delete] executes. *)
Definition delete_statement (where' : Query) : M Statement :=
  where' ← match where' with
          | QDict d => lift (QExpr <$> to_sql_expressions d None)
          | _ => mret where'
          end;
  table ← object_get;
  w ← lift (where_ where');
  mret (Delete table w).

(** [Table.delete] *)
Definition delete (rt : Runtime) (where' : Query) : M unit :=
  statement ← delete_statement where';
  execute rt (inr statement);;
  mret tt.

(** The statement [Table.update] executes. *)
Definition update_statement (where' : Query) (values : gmap string Value)
  : M Statement :=
  where' ← match where' with
          | QDict d => lift (QExpr <$> to_sql_expressions d None)
          | _ => mret where'
          end;
  table ← object_get;
  w ← lift (where_ where');
  mret (Update table w values).

(** [Table.update] *)
Definition update (rt : Runtime) (where' : Query) (values : gmap string Value)
  : M unit :=
  statement ← update_statement where' values;
  execute rt (inr statement);;
  mret tt.

(** The statement [Table.count] executes. *)
Definition count_statement (where' : Query) : M Statement :=
  o ← object_get;
  w ← match where' with
      | QNone => mret None
      | _ =>
          where' ← match where' with
                  | QDict d => lift (QExpr <$> to_sql_expressions d None)
                  | _ => mret where'
                  end;
          Some <$> lift (where_ where')
      end;
  mret (SelectCount o w).

(** [Table.count]: [list(self.execute(stmt))[0][0]] *)
Definition count (rt : Runtime) (where' : Query) : M Value :=
  stmt ← count_statement where';
  rows ← execute rt (inr stmt);
  match rows with
  | ((_, v) :: _) :: _ => mret v
  | _ => raise (IndexError "index out of range")
  end.

(** ** [Table]: creating the table *)

(** A type given to [create]: a toolkit type, a class, [Union[...]]
    (so [Optional[...]]) or [Literal[...]], the last two with their
    printed form. *)
#[warnings="-register-all"]
Inductive TypeAnn : Type :=
| AnnEngine (t : SqlType)
| AnnClass (c : PyClass)
| AnnUnion (repr : string) (args : list TypeAnn)
| AnnLiteral (repr : string) (first : Value) (rest : list Value).

Definition is_none_type (a : TypeAnn) : bool :=
  match a with
  | AnnClass py_NoneType => true
  | _ => false
  end.

(** [self.types.get(cls)] for any object [cls] *)
Definition types_get (cls : TypeAnn) : option SqlType :=
  match cls with
  | AnnClass c => types c
  | _ => None
  end.

(** [Table._to_sqlalchemy_type] (Python 3.8 and later) *)
Definition _to_sqlalchemy_type (cls : TypeAnn) : Result (option SqlType) :=
  match cls with
  | AnnEngine t => Ok (Some t)
  | AnnClass c => Ok (types c)
  | AnnUnion repr args =>
      let has_none_type := existsb is_none_type args in
      if (2 <? length args)%nat
         || ((length args =? 2)%nat && negb has_none_type)
      then Raise (TypeError ("Union has more than one optional type: " +:+ repr
                             +:+ ". Cannot define SQL data type"))
      else Ok (types_get
                 (default cls (List.find (fun a => negb (is_none_type a)) args)))
  | AnnLiteral repr first rest =>
      let type_ := type_of first in
      if forallb (fun a => isinstance a type_) rest
      then Ok (types type_)
      else Raise (TypeError ("Literal values are not same types: " +:+ repr
                             +:+ ". Cannot define SQL data type"))
  end.

(** [sqlalchemy.Column(name, type_, nullable=..., primary_key=...)]: no
    type is [NullType]; a column is nullable unless it is a primary key. *)
Definition new_column (name : string) (type_ : option SqlType)
    (nullable primary_key : option bool) : Column :=
  let pk := default false primary_key in
  mkColumn name (default NullType type_) (default (negb pk) nullable) pk.

(** A column given as a dict; [cd_type_] is [None] without the key
    ['type_']. *)
Record ColumnDict : Type := mkColumnDict {
  cd_name : string; cd_type_ : option TypeAnn;
  cd_nullable : option bool; cd_primary_key : option bool }.

Inductive ColumnSpec : Type :=
| SpecName (col : string)
| SpecDict (col : ColumnDict)
| SpecColumn (col : Column).

Inductive CreateArg : Type :=
| ColumnsMapping (columns : list (string * TypeAnn))
| ColumnsList (columns : list ColumnSpec).

Definition column_of_spec (col : ColumnSpec) : Result Column :=
  match col with
  | SpecName name => Ok (new_column name (Some String_) None None)
  | SpecDict d =>
      match cd_type_ d with
      | None => Raise (KeyError "type_")
      | Some ann =>
          ty ← _to_sqlalchemy_type ann;
          Ok (new_column (cd_name d) ty (cd_nullable d) (cd_primary_key d))
      end
  | SpecColumn c => Ok c
  end.

Fixpoint mapR {A B} (f : A -> Result B) (l : list A) : Result (list B) :=
  match l with
  | [] => Ok []
  | x :: rest => y ← f x; ys ← mapR f rest; Ok (y :: ys)
  end.

(** [Table.create]; a table needs a name.  [tbl.create(bind=self.engine)]
    runs the CREATE TABLE statement on the accessor's handle, as
    [execute] does. *)
Definition create (rt : Runtime) (columns : CreateArg) : M unit :=
  columns ← lift
    match columns with
    | ColumnsMapping m =>
        mapR (fun kv => ty ← _to_sqlalchemy_type (snd kv);
                        Ok (new_column (fst kv) ty None None)) m
    | ColumnsList l => mapR column_of_spec l
    end;
  n ← name_get;
  match n with
  | None => raise (BackendError "ArgumentError" "None")
  | Some n =>
      let tbl := mkSqlTable n columns in
      execute rt (inr (CreateTable tbl));;
      t ← get_self;
      put_self (mkTable (engine t) (_name t) (Some tbl) (_ctx t))
  end.

(** ** [Table]: transactions *)

(** [conn.begin().__enter__()]: an engine opens a connection with a
    transaction and hands out the connection; a connection with no
    transaction in progress begins one and hands out the transaction. *)
Definition begin_ (conn : Connectable) : M (Connectable * nat) :=
  w ← get_world;
  match conn with
  | AnEngine =>
      let c := length (connections w) in
      put_world (mkWorld (database w) (connections w ++ [Some (database w)]));;
      mret (AConnection c, c)
  | AConnection c =>
      match connections w !! c with
      | Some None =>
          put_world (mkWorld (database w)
                       (<[c := Some (database w)]> (connections w)));;
          mret (ATransaction c, c)
      | _ => raise (BackendError "InvalidRequestError"
                      "a transaction is already begun for this connection")
      end
  | ATransaction _ =>
      raise (AttributeError "'RootTransaction' object has no attribute 'begin'")
  end.

(** [Table.open_transaction], and [Table.__enter__], which has the same
    body: store a context in [self._ctx], then [_trans_ctx.__enter__]. *)
Definition open_transaction : M Table :=
  t ← get_self;
  put_self (mkTable (engine t) (_name t) (_object t) (Some None));;
  r ← begin_ (engine t);
  put_self (mkTable (engine t) (_name t) (_object t) (Some (Some (snd r))));;
  mret (mkTable (fst r) (_name t) (_object t) None).

(** [Table.__exit__]: leave the stored context; [failed] tells whether an
    exception is propagating.  A transaction still in progress is rolled
    back on failure and committed otherwise. *)
Definition __exit__ (failed : bool) : M unit :=
  t ← get_self;
  match _ctx t with
  | None => raise (AttributeError "'Table' object has no attribute '_ctx'")
  | Some None =>
      raise (AttributeError "'_trans_ctx' object has no attribute '_ctx'")
  | Some (Some c) =>
      w ← get_world;
      match connections w !! c with
      | Some (Some snapshot) =>
          put_world (mkWorld (if failed then snapshot else database w)
                       (<[c := None]> (connections w)))
      | _ => mret tt
      end
  end.

(** [conn.get_transaction()]: the transaction in progress, or [None];
    only connections have the method. *)
Definition get_transaction (conn : Connectable)
  : M (option (nat * gmap string Relation)) :=
  match conn with
  | AnEngine =>
      raise (AttributeError "'Engine' object has no attribute 'get_transaction'")
  | ATransaction _ =>
      raise (AttributeError
               "'RootTransaction' object has no attribute 'get_transaction'")
  | AConnection c =>
      w ← get_world;
      mret (match connections w !! c with
            | Some (Some snapshot) => Some (c, snapshot)
            | _ => None
            end)
  end.

(** [Table.rollback] *)
Definition rollback : M unit :=
  conn ← connection_get;
  trans ← get_transaction conn;
  match trans with
  | None => raise (AttributeError "'NoneType' object has no attribute 'rollback'")
  | Some (c, snapshot) =>
      w ← get_world;
      put_world (mkWorld snapshot (<[c := None]> (connections w)))
  end.

(** [Table.commit] *)
Definition commit : M unit :=
  conn ← connection_get;
  trans ← get_transaction conn;
  match trans with
  | None => raise (AttributeError "'NoneType' object has no attribute 'commit'")
  | Some (c, _) =>
      w ← get_world;
      put_world (mkWorld (database w) (<[c := None]> (connections w)))
  end.

(** The accessor's handle has a transaction in progress. *)
Definition transaction_open (st : State) : bool :=
  match engine (self st) with
  | AConnection c =>
      match connections (world st) !! c with
      | Some (Some _) => true
      | _ => false
      end
  | _ => false
  end.

(** ** Module-level functions *)

(** [Table.__init__]: the name setter also clears the schema handle. *)
Definition Table_init (table : option string) (engine : Connectable) : Table :=
  mkTable engine table None None.

Module sql.

(** [Table(engine=engine, table=table).<method>(...)], from the world
    [w]; the final state holds the temporary accessor, which a
    generator returned by [select] still refers to. *)
Definition call {A} (table : option string) (engine : Connectable)
    (method : M A) (w : World) : Result A * State :=
  method (mkState (Table_init table engine) w).

Definition select (rt : Runtime) (qry : Query) (columns : option (list string))
    (engine : Connectable) (table : option string) :=
  call table engine (select rt qry columns).

Definition insert (rt : Runtime) (data : gmap string Value)
    (engine : Connectable) (table : option string) :=
  call table engine (insert rt data).

Definition delete (rt : Runtime) (where' : Query)
    (engine : Connectable) (table : option string) :=
  call table engine (delete rt where').

Definition update (rt : Runtime) (where' : Query) (values : gmap string Value)
    (engine : Connectable) (table : option string) :=
  call table engine (update rt where' values).

Definition count (rt : Runtime) (where' : Query)
    (engine : Connectable) (table : option string) :=
  call table engine (count rt where').

Definition execute (rt : Runtime) (arg : string + Statement)
    (engine : Connectable) :=
  call None engine (execute rt arg).

End sql.

(** ** A sample runtime and the test database

    Used to run the accessor on concrete inputs.  The runtime follows
    CPython on what it covers: [int()] of a string of decimal digits with
    an optional sign, truthiness for [bool()], [str()] of a string or an
    integer, [date.fromisoformat] and [datetime.fromisoformat] on
    [YYYY-MM-DD] and [YYYY-MM-DD?HH:MM:SS]; conversions it does not cover
    raise a [TypeError].  The database is the fixture of
    [test/sql/operations/test_select.py]: SQLite keeps the dates of
    [birth_date] as text. *)

Definition digit_of (c : ascii) : option Z :=
  let n := nat_of_ascii c in
  if ((48 <=? n) && (n <=? 57))%nat then Some (Z.of_nat n - 48) else None.

Fixpoint digits_value (acc : Z) (cs : list ascii) : option Z :=
  match cs with
  | [] => Some acc
  | c :: rest =>
      match digit_of c with
      | Some d => digits_value (10 * acc + d) rest
      | None => None
      end
  end.

Definition parse_digits (s : string) : option Z :=
  match list_ascii_of_string s with
  | [] => None
  | cs => digits_value 0 cs
  end.

Definition parse_int (s : string) : option Z :=
  match s with
  | String "-" rest => Z.opp <$> parse_digits rest
  | String "+" rest => parse_digits rest
  | _ => parse_digits s
  end.

Definition is_leap (y : Z) : bool :=
  ((y mod 4 =? 0) && negb (y mod 100 =? 0)) || (y mod 400 =? 0).

Definition days_in_month (y m : Z) : Z :=
  if m =? 2 then (if is_leap y then 29 else 28)
  else if (m =? 4) || (m =? 6) || (m =? 9) || (m =? 11) then 30
  else 31.

Definition parse_date (s : string) : option Date :=
  if negb (String.length s =? 10)%nat then None
  else if negb (String.eqb (substring 4 1 s) "-" && String.eqb (substring 7 1 s) "-")
  then None
  else
    y ← parse_digits (substring 0 4 s);
    m ← parse_digits (substring 5 2 s);
    d ← parse_digits (substring 8 2 s);
    if (1 <=? y) && (1 <=? m) && (m <=? 12) && (1 <=? d)
       && (d <=? days_in_month y m)
    then Some (mkDate y m d) else None.

Definition parse_time (s : string) : option (Z * Z * Z) :=
  if negb (String.length s =? 8)%nat then None
  else if negb (String.eqb (substring 2 1 s) ":" && String.eqb (substring 5 1 s) ":")
  then None
  else
    h ← parse_digits (substring 0 2 s);
    m ← parse_digits (substring 3 2 s);
    sec ← parse_digits (substring 6 2 s);
    if (h <=? 23) && (m <=? 59) && (sec <=? 59) then Some (h, m, sec) else None.

Definition parse_datetime (s : string) : option DateTime :=
  d ← parse_date (substring 0 10 s);
  if (String.length s =? 10)%nat then Some (mkDateTime d 0 0 0 0)
  else
    '(h, m, sec) ← parse_time (substring 11 8 s);
    if (String.length s =? 19)%nat then Some (mkDateTime d h m sec 0) else None.

Definition invalid_isoformat {A} (s : string) : Result A :=
  Raise (ValueError ("Invalid isoformat string: '" +:+ s +:+ "'")).

Definition sample_construct (c : PyClass) (v : Value) : Result Value :=
  match c, v with
  | py_int, VStr s =>
      match parse_int s with
      | Some n => Ok (VInt n)
      | None => Raise (ValueError
                  ("invalid literal for int() with base 10: '" +:+ s +:+ "'"))
      end
  | py_int, VNone =>
      Raise (TypeError ("int() argument must be a string, a bytes-like object "
                        +:+ "or a real number, not 'NoneType'"))
  | py_bool, VNone => Ok (VBool false)
  | py_bool, VInt n => Ok (VBool (negb (n =? 0)))
  | py_bool, VStr s => Ok (VBool (negb (String.eqb s "")))
  | py_str, VNone => Ok (VStr "None")
  | py_str, VBool b => Ok (VStr (if b then "True" else "False"))
  | py_str, VInt n => Ok (VStr (NilZero.string_of_int (Z.to_int n)))
  | _, _ => Raise (TypeError (class_name c +:+ "() argument"))
  end.

Definition all_rows (rel : Relation) (keep : gmap string Value -> bool)
  : list BackendRow :=
  map (result_row (map col_name (rel_columns rel)))
      (List.filter keep (rel_rows rel)).

(** The two raw queries of the tests; anything else is a syntax error. *)
Definition sample_execute_text (sql : string) (db : gmap string Relation)
  : Result (gmap string Relation * list BackendRow) :=
  match db !! "populated" with
  | None => Raise (BackendError "OperationalError" "no such table: populated")
  | Some rel =>
      if String.eqb sql "SELECT * FROM populated"
      then Ok (db, all_rows rel (fun _ => true))
      else if String.eqb sql
                "SELECT * FROM populated where name in ('Jack', 'John')"
      then Ok (db, all_rows rel
                 (matches (EIn (mkColumnRef None "name")
                               [VStr "Jack"; VStr "John"])))
      else Raise (BackendError "OperationalError" "syntax error")
  end.

(** A backend that stores a value of the column's own class, and NULL,
    as it is, and refuses a value of any other class; a column without
    a type passes its values on. *)
Definition sample_bind_param (t : SqlType) (v : Value) : Result Value :=
  match python_type t with
  | Ok c =>
      if bool_decide (v = VNone) || bool_decide (type_of v = c) then Ok v
      else Raise (BackendError "StatementError"
                    ("(builtins.TypeError) " +:+ class_name (type_of v)))
  | Raise _ => Ok v
  end.

Definition sample_runtime : Runtime :=
  mkRuntime sample_construct
    (fun s => match parse_date s with
              | Some d => Ok d
              | None => invalid_isoformat s
              end)
    (fun s => match parse_datetime s with
              | Some d => Ok d
              | None => invalid_isoformat s
              end)
    (fun p => Raise (OSError p))
    sample_execute_text
    sample_bind_param.

Definition populated_columns : list Column :=
  [ mkColumn "id" String_ false true;
    mkColumn "name" String_ true false;
    mkColumn "birth_date" Date_ true false;
    mkColumn "score" Integer true false ].

Definition populated_row (id name birth_date : string) (score : Z)
  : gmap string Value :=
  list_to_map [("id", VStr id); ("name", VStr name);
               ("birth_date", VStr birth_date); ("score", VInt score)].

Definition populated : Relation :=
  mkRelation populated_columns
    [ populated_row "a" "Jack" "2000-01-01" 100;
      populated_row "b" "John" "1990-01-01" 200;
      populated_row "c" "James" "2020-01-01" 300 ].

Definition sample_world : World :=
  mkWorld {[ "populated" := populated ]} [].

(** A fresh accessor on the engine, as [Table(table, engine)] builds it. *)
Definition sample_state (table : option string) : State :=
  mkState (Table_init table AnEngine) sample_world.

(** The state of an accessor bound to a connection whose transaction
    was committed. *)
Definition after_commit : State :=
  mkState (mkTable (AConnection 0) (Some "populated") None None)
          (mkWorld {[ "populated" := populated ]} [None]).

(** [list(table.select(qry, columns))] *)
Definition select_list (rt : Runtime) (qry : Query)
    (columns : option (list string)) : M (list OutRow) :=
  r ← select rt qry columns; list_ rt r.

(** ** The calls a client can make on an accessor *)

Inductive Call : Type :=
| CallNameGet
| CallNameSet (value : option string)
| CallObjectGet
| CallObjectSet (value : SqlTable)
| CallConnectionGet
| CallConnectionSet (value : Connectable)
| CallReflect
| CallCreate (columns : CreateArg)
| CallSelect (qry : Query) (columns : option (list string))
| CallInsert (data : gmap string Value)
| CallDelete (where' : Query)
| CallUpdate (where' : Query) (values : gmap string Value)
| CallCount (where' : Query)
| CallExecute (arg : string + Statement)
| CallOpenTransaction
| CallExit (failed : bool)
| CallRollback
| CallCommit.

Definition discard {A} (m : M A) : M unit := m;; mret tt.

(** The call, its result dropped; a [select] is also iterated. *)
Definition run_call (rt : Runtime) (c : Call) : M unit :=
  match c with
  | CallNameGet => discard name_get
  | CallNameSet value => name_set value
  | CallObjectGet => discard object_get
  | CallObjectSet value => object_set value
  | CallConnectionGet => discard connection_get
  | CallConnectionSet value => connection_set value
  | CallReflect => reflect
  | CallCreate columns => create rt columns
  | CallSelect qry columns => discard (select_list rt qry columns)
  | CallInsert data => insert rt data
  | CallDelete where' => delete rt where'
  | CallUpdate where' values => update rt where' values
  | CallCount where' => discard (count rt where')
  | CallExecute arg => discard (execute rt arg)
  | CallOpenTransaction => discard open_transaction
  | CallExit failed => __exit__ failed
  | CallRollback => rollback
  | CallCommit => commit
  end.

(** [create] and [reflect], called by the client. *)
Definition is_create_or_reflect (c : Call) : bool :=
  match c with
  | CallReflect | CallCreate _ => true
  | _ => false
  end.

(** The calls that read [self.object], and so reflect when no handle
    is cached. *)
Definition is_structural_access (c : Call) : bool :=
  match c with
  | CallObjectGet | CallSelect _ _ | CallInsert _ | CallDelete _
  | CallUpdate _ _ | CallCount _ => true
  | _ => false
  end.

Definition is_name_set (c : Call) : bool :=
  match c with
  | CallNameSet _ => true
  | _ => false
  end.

Definition is_object_set (c : Call) : bool :=
  match c with
  | CallObjectSet _ => true
  | _ => false
  end.

Definition handle_after (rt : Runtime) (c : Call) (st : State) : option SqlTable :=
  _object (self (snd (run_call rt c st))).

(** ** Notions of the specification *)

(** The operations the translator can turn into an expression or
    skip. *)
Definition recognized (oper : Operation) : bool :=
  match oper with
  | Generic _ None _ => false
  | Generic _ (Some magic) _ => existsb (String.eqb magic) column_operators
  | _ => true
  end.

Definition translatable (kv : string * FilterValue) : bool :=
  match snd kv with
  | Plain _ => true
  | Oper oper => recognized oper
  end.

(** Specification: the expression of one entry: BETWEEN, IN, equality
    for a plain value, the comparison of a comparator; [skip] has none. *)
Definition spec_entry_expression (kv : string * FilterValue) : option Expr :=
  let column := mkColumnRef None (fst kv) in
  match snd kv with
  | Oper (Between start end_) => Some (EBetween column start end_)
  | Oper (In values) => Some (EIn column values)
  | Plain value => Some (ECompare "__eq__" column value)
  | Oper (Generic _ (Some magic) value) => Some (ECompare magic column value)
  | Oper Skip | Oper (Generic _ None _) => None
  end.

(** Specification: the rows one entry admits. *)
Definition spec_entry_holds (row : gmap string Value)
    (kv : string * FilterValue) : Prop :=
  let cell := default VNone (row !! fst kv) in
  match snd kv with
  | Oper (Between start end_) =>
      le3 start cell = Some true /\ le3 cell end_ = Some true
  | Oper (In values) => Exists (fun v => eq3 cell v = Some true) values
  | Plain value => compare3 "__eq__" cell value = Some true
  | Oper (Generic _ (Some magic) value) =>
      compare3 magic cell value = Some true
  | Oper Skip | Oper (Generic _ None _) => True
  end.

(** Specification: [UnsupportedOperation] naming [operator], which the
    source spells [NotImplementedError]. *)
Definition UnsupportedOperation (operator : string) (e : Exception) : bool :=
  String.eqb (exception_class e) "NotImplementedError"
  && contains operator (exception_message e).

(** Specification: a [TypeCoercionError] naming the column and both
    types. *)
Definition TypeCoercionError (column : string) (source target : PyClass)
    (e : Exception) : bool :=
  String.eqb (exception_class e) "TypeCoercionError"
  && contains column (exception_message e)
  && contains (class_name source) (exception_message e)
  && contains (class_name target) (exception_message e).

(** Specification: [NoActiveTransactionError]. *)
Definition NoActiveTransactionError (e : Exception) : bool :=
  String.eqb (exception_class e) "NoActiveTransactionError".

(** The filter forms [Table.delete], [Table.update] and [Table.count]
    document: a mapping or a toolkit expression. *)
Definition is_mapping_or_expression (q : Query) : bool :=
  match q with
  | QDict _ | QExpr _ => true
  | _ => false
  end.

(** The expression a documented filter form stands for; no filter is
    the tautology. *)
Definition query_expression (q : Query) : Result Expr :=
  match q with
  | QNone => Ok ETrue
  | QDict d => to_sql_expressions d None
  | QExpr e => Ok e
  | QStr s => Raise (no_text_coercion s)
  | QPath p => Raise (BackendError "ArgumentError" p)
  end.

(** The accessor works on an engine or a connection, is named [name],
    the database has the relation [rel] under that name, and the schema
    handle is either absent or the one [reflect] would store. *)
Definition bound_to (st : State) (name : string) (rel : Relation) : Prop :=
  (engine (self st) = AnEngine \/ exists c, engine (self st) = AConnection c)
  /\ database (world st) !! name = Some rel
  /\ ((_object (self st) = None /\ _name (self st) = Some name)
      \/ _object (self st) = Some (mkSqlTable name (rel_columns rel))).

(** The state with the schema handle [o] cached. *)
Definition with_object (st : State) (o : SqlTable) : State :=
  mkState (mkTable (engine (self st)) (_name (self st)) (Some o)
                   (_ctx (self st)))
          (world st).

(** The state with the database [db]. *)
Definition with_database (st : State) (db : gmap string Relation) : State :=
  mkState (self st) (mkWorld db (connections (world st))).

(** The state after a lazy reflection on [rel]. *)
Definition resolved (st : State) (name : string) (rel : Relation) : State :=
  with_object st (mkSqlTable name (rel_columns rel)).

(** How a computation may change the cached schema handle: not at
    all ([kept]), or only by resolving an absent one ([cached]), or
    without ever dropping one ([stays_resolved]). *)
Definition kept (before after : option SqlTable) : Prop := after = before.

Definition cached (before after : option SqlTable) : Prop :=
  forall o, before = Some o -> after = Some o.

Definition stays_resolved (before after : option SqlTable) : Prop :=
  before <> None -> after <> None.

Definition respects {A} (R : option SqlTable -> option SqlTable -> Prop)
    (m : M A) : Prop :=
  forall st, R (_object (self st)) (_object (self (snd (m st)))).

(** The where clause [Table.count] passes on: none without a filter. *)
Definition count_clause (qry : Query) (w : Expr) : option Expr :=
  match qry with
  | QNone => None
  | _ => Some w
  end.

(** ** Further notions used by the properties *)

(** The entry is [skip]. *)
Definition is_skip (kv : string * FilterValue) : bool :=
  match snd kv with
  | Oper Skip => true
  | _ => false
  end.

(** The list comprehensions at the head of [Table.create]: the columns
    it hands to [sqlalchemy.Table]. *)
Definition create_columns (columns : CreateArg) : Result (list Column) :=
  match columns with
  | ColumnsMapping m =>
      mapR (fun kv => ty ← _to_sqlalchemy_type (snd kv);
                      Ok (new_column (fst kv) ty None None)) m
  | ColumnsList l => mapR column_of_spec l
  end.

(** The columns are built by [create] itself: none is handed in as a
    [sqlalchemy.Column] object. *)
Definition builds_columns (columns : CreateArg) : bool :=
  match columns with
  | ColumnsMapping _ => true
  | ColumnsList l =>
      forallb (fun col => match col with
                          | SpecColumn _ => false
                          | _ => true
                          end) l
  end.

(** [create_table(table, columns, engine)] *)
Definition create_table (rt : Runtime) (table : option string)
    (columns : CreateArg) (engine : Connectable) :=
  sql.call table engine (create rt columns).

(** What the [name] getter returns for an accessor. *)
Definition name_of (t : Table) : option string :=
  match _object t with
  | Some o => Some (tbl_name o)
  | None => _name t
  end.

(** Every key of [values] is one of the columns. *)
Definition fits (cols : list Column) (values : gmap string Value) : Prop :=
  forall k, is_Some (values !! k) -> has_column cols k = true.


(** A row for the table of the tests, its date given as a date. *)
Definition jane : gmap string Value :=
  list_to_map [("id", VStr "d"); ("name", VStr "Jane");
               ("birth_date", VDate (mkDate 2010 5 5)); ("score", VInt 400)].

(** The state whose database has [rel] under [name]. *)
Definition with_relation (st : State) (name : string) (rel : Relation) : State :=
  with_database st (<[name := rel]> (database (world st))).

(** The cached handle and the stored name do not disagree. *)
Definition coherent (t : Table) : Prop :=
  forall o, _object t = Some o -> _name t = Some (tbl_name o).

(** A computation leaves the observation [f] of the state as it was. *)
Definition preserves {A X} (f : State -> X) (m : M A) : Prop :=
  forall st, f (snd (m st)) = f st.

(** A computation keeps the property [P] of the accessor. *)
Definition invariant {A} (P : Table -> Prop) (m : M A) : Prop :=
  forall st, P (self st) -> P (self (snd (m st))).

(** The handle the accessor works on and the transactions in progress. *)
Definition transaction_state (st : State)
  : Connectable * list (option (gmap string Relation)) :=
  (engine (self st), connections (world st)).

(** The calls that are about transactions or replace the handle. *)
Definition is_transaction_call (c : Call) : bool :=
  match c with
  | CallConnectionSet _ | CallOpenTransaction | CallExit _
  | CallRollback | CallCommit => true
  | _ => false
  end.

(** The accessor a transaction opened on connection [c] works with, in
    the world of [st]. *)
Definition in_transaction (st : State) (c : nat) : State :=
  mkState (mkTable (AConnection c) (_name (self st)) (_object (self st)) None)
          (world st).

(** * Properties *)

(** ** Three-valued conjunction *)

Lemma and3_comm (a b : option bool) : and3 a b = and3 b a.
Proof. destruct a as [[]|], b as [[]|]; reflexivity. Qed.

Lemma and3_assoc (a b c : option bool) :
  and3 a (and3 b c) = and3 (and3 a b) c.
Proof. destruct a as [[]|], b as [[]|], c as [[]|]; reflexivity. Qed.

Lemma and3_true (a b : option bool) :
  and3 a b = Some true <-> a = Some true /\ b = Some true.
Proof. destruct a as [[]|], b as [[]|]; simpl; intuition congruence. Qed.

Lemma or3_true (a b : option bool) :
  or3 a b = Some true <-> a = Some true \/ b = Some true.
Proof. destruct a as [[]|], b as [[]|]; simpl; intuition congruence. Qed.

Lemma fold_and3_permutation (l l' : list (option bool)) (a : option bool) :
  l ≡ₚ l' -> fold_left and3 l a = fold_left and3 l' a.
Proof.
  intros H. revert a.
  induction H as [|x l l' _ IH|x y l|l l' l'' _ IH1 _ IH2]; intros a; simpl.
  - reflexivity.
  - apply IH.
  - f_equal. rewrite <- !and3_assoc. f_equal. apply and3_comm.
  - rewrite IH1. apply IH2.
Qed.

Lemma fold_and3_true (l : list (option bool)) (a : option bool) :
  fold_left and3 l a = Some true <->
  a = Some true /\ Forall (fun x => x = Some true) l.
Proof.
  revert a. induction l as [|x l IH]; intros a; simpl.
  - split; [intros H; split; [exact H | constructor] | intros [H _]; exact H].
  - rewrite IH, and3_true, Forall_cons. tauto.
Qed.

Lemma eval_fold_and (es : list Expr) (acc : Expr) (row : gmap string Value) :
  eval (fold_left EAnd es acc) row
  = fold_left and3 (map (fun e => eval e row) es) (eval acc row).
Proof.
  revert acc. induction es as [|e es IH]; intros acc; simpl; [reflexivity|].
  apply IH.
Qed.

Lemma eval_in_true (c : ColumnRef) (vs : list Value) (row : gmap string Value) :
  eval (EIn c vs) row = Some true <->
  Exists (fun v => eq3 (cell_of row c) v = Some true) vs.
Proof.
  simpl. induction vs as [|v vs IH]; simpl.
  - rewrite Exists_nil. split; [discriminate | tauto].
  - rewrite or3_true, Exists_cons, IH. tauto.
Qed.

Lemma le3_int (a b : Z) : le3 (VInt a) (VInt b) = Some true <-> a <= b.
Proof.
  unfold le3. simpl. unfold Z.le.
  destruct (a ?= b); simpl; split; intros H; congruence.
Qed.

(** ** The filter translator *)

Lemma to_sql_expressions_from_app (table : option ColumnSource)
    (stmt : Expr) (a b : FilterMapping) :
  to_sql_expressions_from table stmt (a ++ b)
  = (e ← to_sql_expressions_from table stmt a;
     to_sql_expressions_from table e b).
Proof.
  revert stmt. induction a as [|[k v] a IH]; intros stmt; simpl; [reflexivity|].
  destruct (resolve_column table k) as [column|]; simpl; [|reflexivity].
  destruct (sql_oper_of column v) as [[e|]|]; simpl; auto.
Qed.

Lemma to_sql_expressions_from_translatable (qry : FilterMapping) (stmt : Expr) :
  forallb translatable qry = true ->
  to_sql_expressions_from None stmt qry
  = Ok (fold_left EAnd (omap spec_entry_expression qry) stmt).
Proof.
  revert stmt. induction qry as [|[k v] qry IH]; intros stmt H; simpl in *.
  - reflexivity.
  - apply andb_prop in H as [Hd H]. unfold translatable in Hd. simpl in Hd.
    destruct v as [value|[start end_|values| |repr [magic|] value]];
      unfold recognized in Hd; try discriminate Hd; simpl; try apply IH, H.
    unfold column_getattr. rewrite Hd. simpl. apply IH, H.
Qed.

Lemma spec_entry_holds_iff (kv : string * FilterValue)
    (row : gmap string Value) :
  match spec_entry_expression kv with
  | Some e => eval e row = Some true
  | None => True
  end <-> spec_entry_holds row kv.
Proof.
  destruct kv as [k v]. unfold spec_entry_expression, spec_entry_holds.
  destruct v as [value|[start end_|values| |repr [magic|] value]];
    cbn [fst snd]; try reflexivity.
  - apply and3_true.
  - apply (eval_in_true (mkColumnRef None k)).
Qed.

Lemma spec_entries_hold (qry : FilterMapping) (row : gmap string Value) :
  Forall (fun x => x = Some true)
         (map (fun e => eval e row) (omap spec_entry_expression qry))
  <-> Forall (spec_entry_holds row) qry.
Proof.
  induction qry as [|kv qry IH]; simpl.
  - split; constructor.
  - rewrite (Forall_cons (spec_entry_holds row)), <- IH,
      <- (spec_entry_holds_iff kv row).
    destruct (spec_entry_expression kv) as [e|]; simpl.
    + rewrite Forall_cons. reflexivity.
    + tauto.
Qed.

Lemma translatable_permutation (qry qry' : FilterMapping) :
  qry' ≡ₚ qry ->
  forallb translatable qry = true -> forallb translatable qry' = true.
Proof.
  intros Hp H. apply forallb_forall. intros x Hx.
  rewrite forallb_forall in H. apply H.
  apply list_elem_of_In. rewrite <- Hp. apply list_elem_of_In, Hx.
Qed.

(** C1. For every filter the translator accepts, the result is the
    conjunction, built with AND from the tautology, of one expression
    per entry: [column BETWEEN start AND end] for [Between],
    [column IN (values)] for [In], [column == value] for a plain value;
    a row satisfies it exactly when it satisfies every entry, BETWEEN
    being inclusive on both ends; and the order of the keys does not
    change which rows it admits. *)
Theorem to_sql_expressions_conjoins (qry : FilterMapping) :
  forallb translatable qry = true ->
  exists e,
    to_sql_expressions qry None = Ok e
    /\ e = fold_left EAnd (omap spec_entry_expression qry) ETrue
    /\ (forall k start end_ values value,
        spec_entry_expression (k, Oper (Between start end_))
          = Some (EBetween (mkColumnRef None k) start end_)
        /\ spec_entry_expression (k, Oper (In values))
          = Some (EIn (mkColumnRef None k) values)
        /\ spec_entry_expression (k, Plain value)
          = Some (ECompare "__eq__" (mkColumnRef None k) value))
    /\ (forall row, matches e row = true <-> Forall (spec_entry_holds row) qry)
    /\ (forall qry', qry' ≡ₚ qry ->
        exists e', to_sql_expressions qry' None = Ok e'
                   /\ forall row, eval e' row = eval e row)
    /\ (forall column a b x row,
        row !! column = Some (VInt x) ->
        eval (EBetween (mkColumnRef None column) (VInt a) (VInt b)) row
          = Some true <-> a <= x <= b).
Proof.
  intros H. eexists.
  split; [|split; [reflexivity|split; [|split; [|split]]]].
  - apply to_sql_expressions_from_translatable, H.
  - intros. repeat split.
  - intros row. unfold matches. rewrite bool_decide_eq_true.
    rewrite eval_fold_and, fold_and3_true, spec_entries_hold. simpl.
    tauto.
  - intros qry' Hp. eexists. split.
    + apply to_sql_expressions_from_translatable.
      apply (translatable_permutation qry qry' Hp H).
    + intros row. rewrite !eval_fold_and.
      apply fold_and3_permutation, Permutation_map, omap_Permutation, Hp.
  - intros column a b x row Hrow.
    change (eval (EBetween (mkColumnRef None column) (VInt a) (VInt b)) row)
      with (and3 (le3 (VInt a) (default VNone (row !! column)))
                 (le3 (default VNone (row !! column)) (VInt b))).
    rewrite Hrow. cbn [from_option id].
    rewrite and3_true, !le3_int. tauto.
Qed.

Lemma to_sql_expressions_conjoins_witness :
  exists e,
    to_sql_expressions
      [("score", Oper (Between (VInt 100) (VInt 220)));
       ("name", Oper (In [VStr "Jack"; VStr "John"]));
       ("id", Plain (VStr "a"))] None = Ok e
    /\ matches e (populated_row "a" "Jack" "2000-01-01" 100) = true
    /\ matches e (populated_row "c" "James" "2020-01-01" 300) = false.
Proof.
  destruct (to_sql_expressions_conjoins
              [("score", Oper (Between (VInt 100) (VInt 220)));
               ("name", Oper (In [VStr "Jack"; VStr "John"]));
               ("id", Plain (VStr "a"))] eq_refl)
    as (e & He & Hshape & _).
  exists e. split; [exact He|]. rewrite Hshape. split; reflexivity.
Defined.

Lemma prefix_refl (s : string) : String.prefix s s = true.
Proof.
  induction s as [|a s IH]; simpl; [reflexivity|].
  destruct (ascii_dec a a); [exact IH | congruence].
Qed.

Lemma contains_suffix (p s : string) : contains s (p +:+ s) = true.
Proof.
  induction p as [|a p IH].
  - change ("" +:+ s) with s.
    destruct s as [|a s]; [reflexivity|].
    unfold contains; fold contains.
    rewrite (prefix_refl (String a s)). reflexivity.
  - change (String a p +:+ s) with (String a (p +:+ s)).
    unfold contains; fold contains.
    rewrite IH. apply orb_true_r.
Qed.

(** C7, as the code has it.  When the entries before it translate, an
    operation that is neither [Between], [In] nor [skip] and carries no
    comparison tag makes the translator raise the [NotImplementedError]
    whose message names it; for one that carries a tag, what the lookup
    of that attribute on the column raises is what the translator
    raises. *)
Theorem unsupported_operation_raises (table : option ColumnSource)
    (before after : FilterMapping) (column_name repr : string)
    (value : Value) (e0 : Expr) :
  to_sql_expressions before table = Ok e0 ->
  is_ok (resolve_column table column_name) = true ->
  to_sql_expressions
    (before ++ (column_name, Oper (Generic repr None value)) :: after) table
    = Raise (NotImplementedError ("Not implemented operator: " +:+ repr))
  /\ UnsupportedOperation repr
       (NotImplementedError ("Not implemented operator: " +:+ repr)) = true
  /\ (forall magic column e,
      resolve_column table column_name = Ok column ->
      column_getattr column magic = Raise e ->
      to_sql_expressions
        (before ++ (column_name, Oper (Generic repr (Some magic) value)) :: after)
        table = Raise e).
Proof.
  intros Hbefore Hcol. unfold to_sql_expressions in *.
  destruct (resolve_column table column_name) as [column|] eqn:Hres;
    [|discriminate].
  split; [|split].
  - rewrite to_sql_expressions_from_app, Hbefore. simpl. rewrite Hres.
    reflexivity.
  - unfold UnsupportedOperation. simpl.
    apply (contains_suffix "Not implemented operator: " repr).
  - intros magic column' e [= <-] Hattr.
    rewrite to_sql_expressions_from_app, Hbefore. simpl. rewrite Hres. simpl.
    rewrite Hattr. reflexivity.
Qed.

Lemma unsupported_operation_raises_witness :
  to_sql_expressions
    [("score", Oper (Between (VInt 100) (VInt 220)));
     ("name", Oper (Generic "<redbird.oper.Like>" None (VStr "J%")))] None
  = Raise (NotImplementedError "Not implemented operator: <redbird.oper.Like>").
Proof.
  exact (proj1 (unsupported_operation_raises None
                  [("score", Oper (Between (VInt 100) (VInt 220)))] []
                  "name" "<redbird.oper.Like>" (VStr "J%") _ eq_refl eq_refl)).
Defined.

(** C7, as stated, fails: a comparator whose tag the column does not
    implement is not recognized, yet the error is the attribute lookup's,
    not the translator's. *)
Lemma unknown_magic_is_attribute_error :
  recognized (Generic "<redbird.oper.Like>" (Some "__like__") (VStr "J%")) = false
  /\ to_sql_expressions
       [("name", Oper (Generic "<redbird.oper.Like>" (Some "__like__") (VStr "J%")))]
       None
     = Raise (AttributeError
         "Neither 'Column' object nor 'Comparator' object has an attribute '__like__'")
  /\ UnsupportedOperation "<redbird.oper.Like>"
       (AttributeError
         "Neither 'Column' object nor 'Comparator' object has an attribute '__like__'")
     = false.
Proof. repeat split; reflexivity. Qed.

(** ** The type bridge *)



(** C8, as the code has it.  A cell that is no instance of the column's
    Python type, no string for a temporal column and no permitted null is
    handed to the class constructor, and [to_native] returns or raises
    exactly what the constructor does. *)
Theorem to_native_constructs (rt : Runtime) (value : Value)
    (sql_type : SqlType) (nullable : bool) (py_type : PyClass) :
  python_type sql_type = Ok py_type ->
  isinstance value py_type = false ->
  (type_of value = py_str -> py_type <> py_date /\ py_type <> py_datetime) ->
  (nullable = false \/ value <> VNone) ->
  to_native rt value sql_type nullable = construct rt py_type value.
Proof.
  intros Hty Hinst Hstr Hnull. unfold to_native. rewrite Hty. simpl.
  rewrite Hinst.
  assert (Hn : nullable && bool_decide (value = VNone) = false).
  { destruct Hnull as [-> | Hv]; [reflexivity|].
    rewrite (bool_decide_eq_false_2 _ Hv). apply andb_false_r. }
  destruct py_type, value; rewrite ?Hn; try reflexivity;
    destruct (Hstr eq_refl); congruence.
Qed.

Lemma to_native_constructs_witness :
  to_native sample_runtime (VStr "42") Integer false = Ok (VInt 42)
  /\ to_native sample_runtime (VStr "abc") Integer false
     = Raise (ValueError "invalid literal for int() with base 10: 'abc'").
Proof.
  split.
  - refine (eq_trans (to_native_constructs sample_runtime (VStr "42") Integer
                        false py_int eq_refl eq_refl _ _) eq_refl).
    + intros _. split; discriminate.
    + left. reflexivity.
  - refine (eq_trans (to_native_constructs sample_runtime (VStr "abc") Integer
                        false py_int eq_refl eq_refl _ _) eq_refl).
    + intros _. split; discriminate.
    + left. reflexivity.
Defined.

(** C8, as stated, fails: the error of a failed coercion is the
    constructor's own; it is no [TypeCoercionError] and does not name the
    column. *)
Lemma coercion_error_is_not_wrapped :
  format_row sample_runtime ∅ [mkColumn "score" Integer true false]
             [("score", VStr "abc")]
    = Raise (ValueError "invalid literal for int() with base 10: 'abc'")
  /\ exception_class
       (ValueError "invalid literal for int() with base 10: 'abc'")
     = "ValueError"
  /\ contains "score" "invalid literal for int() with base 10: 'abc'" = false
  /\ TypeCoercionError "score" py_str py_int
       (ValueError "invalid literal for int() with base 10: 'abc'") = false.
Proof. repeat split; reflexivity. Qed.

(** ** Transactions *)

(** C9, as the code has it.  With no transaction in progress on the
    accessor's handle, [commit] and [rollback] raise an [AttributeError]
    (the handle has no [get_transaction], or it returns [None]) and
    change nothing. *)
Theorem commit_without_transaction (st : State) :
  transaction_open st = false ->
  (exists msg, commit st = (Raise (AttributeError msg), st))
  /\ (exists msg, rollback st = (Raise (AttributeError msg), st)).
Proof.
  destruct st as [[e n o c] w]. unfold transaction_open. simpl.
  intros H. unfold commit, rollback, connection_get, get_transaction.
  destruct e as [|id|id]; simpl.
  - split; eexists; reflexivity.
  - unfold mbind, M_bind, get_self, get_world. simpl.
    destruct (connections w !! id) as [[snapshot|]|]; [discriminate| |];
      split; eexists; reflexivity.
  - split; eexists; reflexivity.
Qed.

Lemma commit_without_transaction_witness :
  (exists msg, commit (sample_state (Some "populated"))
               = (Raise (AttributeError msg), sample_state (Some "populated")))
  /\ (exists msg, rollback (sample_state (Some "populated"))
               = (Raise (AttributeError msg), sample_state (Some "populated"))).
Proof.
  exact (commit_without_transaction (sample_state (Some "populated")) eq_refl).
Defined.

(** C9, as stated, fails: there is no error of its own for a missing
    transaction; on an engine and on a connection whose transaction has
    ended, the error is an [AttributeError]. *)
Lemma commit_error_is_attribute_error :
  commit (sample_state (Some "populated"))
    = (Raise (AttributeError "'Engine' object has no attribute 'get_transaction'"),
       sample_state (Some "populated"))
  /\ NoActiveTransactionError
       (AttributeError "'Engine' object has no attribute 'get_transaction'")
     = false
  /\ rollback after_commit
    = (Raise (AttributeError "'NoneType' object has no attribute 'rollback'"),
       after_commit)
  /\ NoActiveTransactionError
       (AttributeError "'NoneType' object has no attribute 'rollback'")
     = false.
Proof. repeat split; reflexivity. Qed.

(** ** Running the methods *)

Ltac unfold_monad :=
  unfold mbind, mret, fmap, M_bind, M_ret, M_fmap, raise, lift,
    get_self, get_world, put_self, put_world in *.

Lemma with_object_cached (st : State) (o : SqlTable) :
  _object (self st) = Some o -> with_object st o = st.
Proof. destruct st as [[e n o' c] w]. simpl. intros ->. reflexivity. Qed.

Lemma with_database_same (st : State) :
  with_database st (database (world st)) = st.
Proof. destruct st as [t [db cs]]. reflexivity. Qed.

Lemma object_get_unfold (st : State) :
  object_get st =
  match _object (self st) with
  | Some o => (Ok o, st)
  | None =>
      match _name (self st) with
      | Some n =>
          match database (world st) !! n with
          | Some rel => (Ok (mkSqlTable n (rel_columns rel)),
                         with_object st (mkSqlTable n (rel_columns rel)))
          | None => (Raise (BackendError "NoSuchTableError" n), st)
          end
      | None => (Raise (BackendError "NoSuchTableError" "None"), st)
      end
  end.
Proof.
  destruct st as [[e n o c] w].
  unfold object_get, reflect, reflect_table, name_get, with_object.
  unfold_monad. simpl.
  destruct o as [o|]; simpl; [reflexivity|].
  destruct n as [n|]; simpl; [|reflexivity].
  destruct (database w !! n) as [rel|]; reflexivity.
Qed.

Lemma object_get_ok (st st1 : State) (o : SqlTable) :
  object_get st = (Ok o, st1) ->
  st1 = with_object st o /\ object_get st1 = (Ok o, st1).
Proof.
  rewrite object_get_unfold. intros H.
  destruct (_object (self st)) as [o'|] eqn:Ho.
  - injection H as -> ->. split.
    + symmetry. apply with_object_cached, Ho.
    + rewrite object_get_unfold, Ho. reflexivity.
  - destruct (_name (self st)) as [n|]; [|discriminate].
    destruct (database (world st) !! n) as [rel|]; [|discriminate].
    injection H as <- <-. split; [reflexivity|].
    rewrite object_get_unfold. reflexivity.
Qed.

Lemma object_get_bound (st : State) (name : string) (rel : Relation) :
  bound_to st name rel ->
  object_get st = (Ok (mkSqlTable name (rel_columns rel)), resolved st name rel).
Proof.
  intros (_ & Hdb & [[Ho Hn] | Ho]); rewrite object_get_unfold, Ho.
  - rewrite Hn, Hdb. reflexivity.
  - unfold resolved. rewrite (with_object_cached _ _ Ho). reflexivity.
Qed.

Lemma execute_unfold (rt : Runtime) (stmt : Statement) (st : State) :
  execute rt (inr stmt) st =
  match engine (self st) with
  | ATransaction _ =>
      (Raise (AttributeError "'RootTransaction' object has no attribute 'execute'"),
       st)
  | _ =>
      match run_statement rt stmt (database (world st)) with
      | Ok (db, rows) => (Ok rows, with_database st db)
      | Raise e => (Raise e, st)
      end
  end.
Proof.
  destruct st as [[e n o c] w]. unfold execute, connection_get, with_database.
  unfold_monad. simpl.
  destruct e; try reflexivity; cbn [database world];
    destruct (run_statement rt stmt (database w)) as [[db rows]|]; reflexivity.
Qed.

(** C10. On an accessor without a table name, [select] with raw SQL
    returns the rows exactly as the database delivered them: no
    conversion is applied, so a date delivered as text stays text. *)
Theorem select_without_table_is_raw (rt : Runtime) (sql : string)
    (columns : option (list string)) (st : State) :
  _name (self st) = None ->
  _object (self st) = None ->
  (forall c, engine (self st) <> ATransaction c) ->
  select_list rt (QStr sql) columns st =
    match execute_text rt sql (database (world st)) with
    | Ok (db, rows) => (Ok (map MappingRow rows), with_database st db)
    | Raise e => (Raise e, st)
    end
  /\ sql.select rt (QStr sql) columns (engine (self st)) None (world st) =
    match execute_text rt sql (database (world st)) with
    | Ok (db, rows) =>
        (Ok (Mappings rows),
         with_database (mkState (Table_init None (engine (self st))) (world st)) db)
    | Raise e => (Raise e, mkState (Table_init None (engine (self st))) (world st))
    end.
Proof.
  destruct st as [[e n o c] w]. simpl. intros -> -> He.
  unfold sql.select, sql.call, select_list, select, select_statement.
  unfold mbind at 1 2 3 4 5 6, M_bind at 1 2 3 4 5 6. unfold_monad.
  cbn [fst snd].
  rewrite !execute_unfold. simpl.
  destruct e as [| |id]; [| |destruct (He id eq_refl)];
    destruct (execute_text rt sql (database w)) as [[db rows]|];
    split; reflexivity.
Qed.

Lemma select_without_table_is_raw_witness :
  select_list sample_runtime
    (QStr "SELECT * FROM populated where name in ('Jack', 'John')") None
    (sample_state None)
  = (Ok [MappingRow [("id", VStr "a"); ("name", VStr "Jack");
                     ("birth_date", VStr "2000-01-01"); ("score", VInt 100)];
         MappingRow [("id", VStr "b"); ("name", VStr "John");
                     ("birth_date", VStr "1990-01-01"); ("score", VInt 200)]],
     sample_state None).
Proof.
  exact (eq_trans
    (proj1 (select_without_table_is_raw sample_runtime
       "SELECT * FROM populated where name in ('Jack', 'John')" None
       (sample_state None) eq_refl eq_refl
       (fun c (H : AnEngine = ATransaction c) =>
          eq_ind AnEngine
            (fun e => match e with AnEngine => True | _ => False end)
            I _ H)))
    eq_refl).
Defined.

(** ** Statements built from the documented filter forms *)

Lemma select_statement_unfold (rt : Runtime) (qry : Query) (w : Expr)
    (st : State) :
  query_expression qry = Ok w ->
  select_statement rt qry None st =
  match object_get st with
  | (Ok o, st1) => (Ok (Select o [] w), st1)
  | (Raise e, st1) => (Raise e, st1)
  end.
Proof.
  intros H. unfold select_statement.
  destruct qry as [|p|sql|d|e]; simpl in H; try discriminate.
  - injection H as <-. unfold_monad. simpl.
    destruct (object_get st) as [[o|e] st1]; reflexivity.
  - unfold_monad. simpl. rewrite H. simpl.
    destruct (object_get st) as [[o|e] st1]; reflexivity.
  - injection H as <-. unfold_monad. simpl.
    destruct (object_get st) as [[o|e'] st1]; reflexivity.
Qed.

Lemma delete_statement_unfold (qry : Query) (w : Expr) (st : State) :
  is_mapping_or_expression qry = true ->
  query_expression qry = Ok w ->
  delete_statement qry st =
  match object_get st with
  | (Ok o, st1) => (Ok (Delete o w), st1)
  | (Raise e, st1) => (Raise e, st1)
  end.
Proof.
  intros Hf H. unfold delete_statement.
  destruct qry as [|p|sql|d|e]; simpl in H, Hf; try discriminate.
  - unfold_monad. simpl. rewrite H. simpl.
    destruct (object_get st) as [[o|e] st1]; reflexivity.
  - injection H as <-. unfold_monad. simpl.
    destruct (object_get st) as [[o|e'] st1]; reflexivity.
Qed.

Lemma update_statement_unfold (qry : Query) (values : gmap string Value)
    (w : Expr) (st : State) :
  is_mapping_or_expression qry = true ->
  query_expression qry = Ok w ->
  update_statement qry values st =
  match object_get st with
  | (Ok o, st1) => (Ok (Update o w values), st1)
  | (Raise e, st1) => (Raise e, st1)
  end.
Proof.
  intros Hf H. unfold update_statement.
  destruct qry as [|p|sql|d|e]; simpl in H, Hf; try discriminate.
  - unfold_monad. simpl. rewrite H. simpl.
    destruct (object_get st) as [[o|e] st1]; reflexivity.
  - injection H as <-. unfold_monad. simpl.
    destruct (object_get st) as [[o|e'] st1]; reflexivity.
Qed.

Lemma count_statement_unfold (qry : Query) (w : Expr) (st : State) :
  query_expression qry = Ok w ->
  count_statement qry st =
  match object_get st with
  | (Ok o, st1) => (Ok (SelectCount o (count_clause qry w)), st1)
  | (Raise e, st1) => (Raise e, st1)
  end.
Proof.
  intros H. unfold count_statement.
  destruct qry as [|p|sql|d|e]; simpl in H; try discriminate.
  - unfold_monad. simpl.
    destruct (object_get st) as [[o|e] st1]; reflexivity.
  - unfold_monad. simpl. rewrite H. simpl.
    destruct (object_get st) as [[o|e] st1]; reflexivity.
  - injection H as <-. unfold_monad. simpl.
    destruct (object_get st) as [[o|e'] st1]; reflexivity.
Qed.

Lemma statement_of_failed_mapping (rt : Runtime) (d : FilterMapping)
    (e : Exception) (values : gmap string Value) (st : State) :
  to_sql_expressions d None = Raise e ->
  select_statement rt (QDict d) None st = (Raise e, st)
  /\ delete_statement (QDict d) st = (Raise e, st)
  /\ update_statement (QDict d) values st = (Raise e, st).
Proof.
  intros H. unfold select_statement, delete_statement, update_statement.
  unfold_monad. simpl. rewrite H. repeat split; reflexivity.
Qed.

Lemma statement_of_text (rt : Runtime) (sql : string)
    (columns : option (list string)) (values : gmap string Value) (st : State) :
  select_statement rt (QStr sql) columns st = (Ok (TextClause sql), st)
  /\ is_ok (fst (delete_statement (QStr sql) st)) = false
  /\ is_ok (fst (update_statement (QStr sql) values st)) = false.
Proof.
  split; [reflexivity|].
  unfold delete_statement, update_statement. unfold_monad. simpl.
  destruct (object_get st) as [[o|e] st1]; split; reflexivity.
Qed.

(** C5, as the code has it.  For a mapping and for a toolkit
    expression, [update] and [delete] build their statement as [select]
    does: the mapping goes through [to_sql_expressions] and the
    expression is passed on, to become the where clause on the accessor's
    table, and they fail where [select] fails.  Raw text is not treated
    alike: [select] executes it as the whole statement, [update] and
    [delete] hand it to [where()], which refuses a plain string. *)
Theorem update_delete_filter_forms (rt : Runtime) (st : State)
    (values : gmap string Value) :
  (forall qry, is_mapping_or_expression qry = true ->
     exists (r : Result (SqlTable * Expr)) (st' : State),
       select_statement rt qry None st
         = ((fun ow => Select (fst ow) [] (snd ow)) <$> r, st')
       /\ delete_statement qry st
         = ((fun ow => Delete (fst ow) (snd ow)) <$> r, st')
       /\ update_statement qry values st
         = ((fun ow => Update (fst ow) (snd ow) values) <$> r, st')
       /\ (forall ow, r = Ok ow -> query_expression qry = Ok (snd ow)))
  /\ (forall sql columns,
       select_statement rt (QStr sql) columns st = (Ok (TextClause sql), st)
       /\ is_ok (fst (delete_statement (QStr sql) st)) = false
       /\ is_ok (fst (update_statement (QStr sql) values st)) = false).
Proof.
  split; [|intros sql columns; apply statement_of_text].
  intros qry Hf.
  destruct (query_expression qry) as [w|e] eqn:Hq.
  - rewrite (select_statement_unfold rt qry w st Hq),
      (delete_statement_unfold qry w st Hf Hq),
      (update_statement_unfold qry values w st Hf Hq).
    destruct (object_get st) as [[o|e] st1].
    + exists (Ok (o, w)), st1. repeat split. intros ow [= <-]. reflexivity.
    + exists (Raise e), st1. repeat split. discriminate.
  - destruct qry as [|p|sql|d|e']; try discriminate. simpl in Hq.
    destruct (statement_of_failed_mapping rt d e values st Hq) as (-> & -> & ->).
    exists (Raise e), st. repeat split. discriminate.
Qed.

Lemma update_delete_filter_forms_witness :
  exists (r : Result (SqlTable * Expr)) (st' : State),
    select_statement sample_runtime (QDict [("name", Plain (VStr "John"))]) None
      (sample_state (Some "populated"))
      = ((fun ow => Select (fst ow) [] (snd ow)) <$> r, st')
    /\ delete_statement (QDict [("name", Plain (VStr "John"))])
         (sample_state (Some "populated"))
      = ((fun ow => Delete (fst ow) (snd ow)) <$> r, st')
    /\ update_statement (QDict [("name", Plain (VStr "John"))])
         {[ "score" := VInt 0 ]} (sample_state (Some "populated"))
      = ((fun ow => Update (fst ow) (snd ow) {[ "score" := VInt 0 ]}) <$> r, st')
    /\ (forall ow, r = Ok ow ->
        query_expression (QDict [("name", Plain (VStr "John"))]) = Ok (snd ow)).
Proof.
  exact (proj1 (update_delete_filter_forms sample_runtime
                  (sample_state (Some "populated")) {[ "score" := VInt 0 ]})
               (QDict [("name", Plain (VStr "John"))]) eq_refl).
Defined.

(** C5, as stated, fails on raw text: [select] runs the text and
    returns its rows, [delete] and [update] raise before any statement
    is executed. *)
Lemma delete_refuses_raw_text :
  length <$> fst (select_list sample_runtime
                    (QStr "SELECT * FROM populated where name in ('Jack', 'John')")
                    None (sample_state (Some "populated")))
    = Ok 2%nat
  /\ delete sample_runtime
       (QStr "SELECT * FROM populated where name in ('Jack', 'John')")
       (sample_state (Some "populated"))
     = (Raise (no_text_coercion
                 "SELECT * FROM populated where name in ('Jack', 'John')"),
        resolved (sample_state (Some "populated")) "populated" populated)
  /\ update sample_runtime
       (QStr "SELECT * FROM populated where name in ('Jack', 'John')")
       {[ "score" := VInt 0 ]} (sample_state (Some "populated"))
     = (Raise (no_text_coercion
                 "SELECT * FROM populated where name in ('Jack', 'John')"),
        resolved (sample_state (Some "populated")) "populated" populated).
Proof. repeat split; vm_compute; reflexivity. Qed.

(** ** Executing [select] and [count] *)

Lemma filter_matches_true (rows : list (gmap string Value)) :
  List.filter (matches ETrue) rows = rows.
Proof. induction rows as [|r rows IH]; simpl; [reflexivity|]. now rewrite IH. Qed.

Lemma has_column_name (cols : list Column) (c : Column) :
  c ∈ cols -> has_column cols (col_name c) = true.
Proof.
  intros H. unfold has_column. apply existsb_exists. exists c. split.
  - apply list_elem_of_In, H.
  - apply String.eqb_refl.
Qed.

Lemma find_app_none {A} (f : A -> bool) (a b : list A) :
  (forall x, x ∈ a -> f x = false) ->
  List.find f (a ++ b) = List.find f b.
Proof.
  induction a as [|x a IH]; intros H; simpl; [reflexivity|].
  rewrite (H x) by apply list_elem_of_here.
  apply IH. intros y Hy. apply H, list_elem_of_further, Hy.
Qed.

Lemma check_columns_own (rel : Relation) (names : list string) :
  check_columns rel (map col_name (rel_columns rel) ++ names)
  = check_columns rel names.
Proof.
  unfold check_columns. rewrite find_app_none; [reflexivity|].
  intros n Hn. apply list_elem_of_In, in_map_iff in Hn as (c & <- & Hc).
  rewrite has_column_name; [reflexivity | apply list_elem_of_In, Hc].
Qed.

Lemma check_columns_app (rel : Relation) (a b : list string) :
  check_columns rel (a ++ b) = Ok tt -> check_columns rel b = Ok tt.
Proof.
  unfold check_columns. induction a as [|x a IH]; simpl; [tauto|].
  destruct (negb (has_column (rel_columns rel) x)); [discriminate | exact IH].
Qed.

Lemma format_rows_length (rt : Runtime) (columns : list Column)
    (rows : list BackendRow) (ds : list (gmap string Value)) :
  format_rows rt columns rows = Ok ds -> length ds = length rows.
Proof.
  revert ds. induction rows as [|row rows IH]; intros ds H; simpl in H.
  - injection H as <-. reflexivity.
  - destruct (format_row rt ∅ columns row) as [d|]; simpl in H; [|discriminate].
    destruct (format_rows rt columns rows) as [ds'|]; simpl in H; [|discriminate].
    injection H as <-. simpl. f_equal. apply IH. reflexivity.
Qed.

Lemma name_get_cached (st : State) (o : SqlTable) :
  _object (self st) = Some o -> name_get st = (Ok (Some (tbl_name o)), st).
Proof.
  destruct st as [[e n o' c] w]. simpl. intros ->. reflexivity.
Qed.

Lemma execute_keeps_self (rt : Runtime) (arg : string + Statement)
    (st : State) :
  self (snd (execute rt arg st)) = self st.
Proof.
  destruct st as [[e n o c] w]. unfold execute, connection_get.
  unfold_monad. simpl.
  destruct e; try reflexivity; cbn [database world];
    match goal with
    | |- context [run_statement ?r ?s ?d] =>
        destruct (run_statement r s d) as [[db rows]|]; reflexivity
    end.
Qed.

(** [list(select(...))] for a filter given as nothing, a mapping or an
    expression. *)
Lemma select_list_unfold (rt : Runtime) (qry : Query) (w : Expr) (st : State) :
  query_expression qry = Ok w ->
  select_list rt qry None st =
  match object_get st with
  | (Raise e, st1) => (Raise e, st1)
  | (Ok o, st1) =>
      match execute rt (inr (Select o [] w)) st1 with
      | (Raise e, st2) => (Raise e, st2)
      | (Ok rows, st2) =>
          match format_rows rt (tbl_columns o) rows with
          | Ok ds => (Ok (map DictRow ds), st2)
          | Raise e => (Raise e, st2)
          end
      end
  end.
Proof.
  intros H. unfold select_list, select.
  unfold mbind at 1 2 3 4, M_bind at 1 2 3 4.
  rewrite (select_statement_unfold rt qry w st H).
  destruct (object_get st) as [[o|e] st1] eqn:Hobj; [|reflexivity].
  apply object_get_ok in Hobj as [Hst1 Hobj1].
  pose proof (execute_keeps_self rt (inr (Select o [] w)) st1) as Hself.
  destruct (execute rt (inr (Select o [] w)) st1) as [[rows|e] st2];
    [|reflexivity].
  simpl in Hself.
  assert (Ho : _object (self st2) = Some o).
  { rewrite Hself, Hst1. reflexivity. }
  rewrite (name_get_cached st2 o Ho).
  unfold list_, _format_results, _get_types. unfold_monad. simpl.
  rewrite object_get_unfold, Ho.
  destruct (format_rows rt (tbl_columns o) rows); reflexivity.
Qed.

Lemma select_unfold (rt : Runtime) (qry : Query) (w : Expr) (st : State) :
  query_expression qry = Ok w ->
  select rt qry None st =
  match object_get st with
  | (Raise e, st1) => (Raise e, st1)
  | (Ok o, st1) =>
      match execute rt (inr (Select o [] w)) st1 with
      | (Raise e, st2) => (Raise e, st2)
      | (Ok rows, st2) => (Ok (Generator rows), st2)
      end
  end.
Proof.
  intros H. unfold select.
  unfold mbind at 1 2 3, M_bind at 1 2 3.
  rewrite (select_statement_unfold rt qry w st H).
  destruct (object_get st) as [[o|e] st1] eqn:Hobj; [|reflexivity].
  apply object_get_ok in Hobj as [Hst1 Hobj1].
  pose proof (execute_keeps_self rt (inr (Select o [] w)) st1) as Hself.
  destruct (execute rt (inr (Select o [] w)) st1) as [[rows|e] st2];
    [|reflexivity].
  simpl in Hself.
  assert (Ho : _object (self st2) = Some o).
  { rewrite Hself, Hst1. reflexivity. }
  rewrite (name_get_cached st2 o Ho). reflexivity.
Qed.

Lemma count_unfold (rt : Runtime) (qry : Query) (w : Expr) (st : State) :
  query_expression qry = Ok w ->
  count rt qry st =
  match object_get st with
  | (Raise e, st1) => (Raise e, st1)
  | (Ok o, st1) =>
      match execute rt (inr (SelectCount o (count_clause qry w))) st1 with
      | (Raise e, st2) => (Raise e, st2)
      | (Ok (((_, v) :: _) :: _), st2) => (Ok v, st2)
      | (Ok _, st2) => (Raise (IndexError "index out of range"), st2)
      end
  end.
Proof.
  intros H. unfold count.
  unfold mbind at 1 2, M_bind at 1 2.
  rewrite (count_statement_unfold qry w st H).
  destruct (object_get st) as [[o|e] st1]; [|reflexivity].
  destruct (execute rt (inr (SelectCount o (count_clause qry w))) st1)
    as [[rows|e] st2]; [|reflexivity].
  destruct rows as [|[|[k v] r] rows]; reflexivity.
Qed.

(** The rows a where clause selects, for [Select] and for
    [SelectCount]. *)
Lemma run_select_count (rt : Runtime) (o : SqlTable) (qry : Query) (w : Expr)
    (db db' : gmap string Relation) (rows : list BackendRow) :
  query_expression qry = Ok w ->
  run_statement rt (Select o [] w) db = Ok (db', rows) ->
  run_statement rt (SelectCount o (count_clause qry w)) db
  = Ok (db', [[("count_1", VInt (Z.of_nat (length rows)))]]).
Proof.
  intros Hq H. simpl in *.
  destruct (lookup_relation db o) as [rel|]; simpl in *; [|discriminate].
  destruct (check_columns rel (selected_names o [] ++ expr_columns w))
    as [[]|] eqn:Hc; simpl in H; [|discriminate].
  injection H as <- <-. apply check_columns_app in Hc.
  rewrite length_map.
  destruct qry as [|p|sql|d|e]; simpl in Hq; try discriminate; simpl.
  - injection Hq as <-. rewrite filter_matches_true. reflexivity.
  - rewrite Hc. reflexivity.
  - rewrite Hc. reflexivity.
Qed.

Lemma run_select_bound (rt : Runtime) (name : string) (rel : Relation)
    (w : Expr) (db : gmap string Relation) :
  db !! name = Some rel ->
  check_columns rel (expr_columns w) = Ok tt ->
  run_statement rt (Select (mkSqlTable name (rel_columns rel)) [] w) db
  = Ok (db, map (result_row (map col_name (rel_columns rel)))
                (List.filter (matches w) (rel_rows rel))).
Proof.
  intros Hdb Hc. simpl. unfold lookup_relation. simpl. rewrite Hdb. simpl.
  unfold selected_names. simpl. rewrite check_columns_own, Hc. reflexivity.
Qed.

Lemma execute_bound (rt : Runtime) (stmt : Statement) (st : State)
    (name : string) (rel : Relation) (rows : list BackendRow) :
  bound_to st name rel ->
  run_statement rt stmt (database (world st))
    = Ok (database (world st), rows) ->
  execute rt (inr stmt) (resolved st name rel)
  = (Ok rows, resolved st name rel).
Proof.
  intros (He & _) Hrun. rewrite execute_unfold.
  change (database (world (resolved st name rel))) with (database (world st)).
  change (engine (self (resolved st name rel))) with (engine (self st)).
  rewrite Hrun.
  change (database (world st))
    with (database (world (resolved st name rel))) at 1 2.
  rewrite with_database_same.
  destruct He as [-> | [c ->]]; reflexivity.
Qed.

Lemma select_bound (rt : Runtime) (qry : Query) (w : Expr) (st : State)
    (name : string) (rel : Relation) :
  query_expression qry = Ok w ->
  bound_to st name rel ->
  check_columns rel (expr_columns w) = Ok tt ->
  select rt qry None st
  = (Ok (Generator (map (result_row (map col_name (rel_columns rel)))
                        (List.filter (matches w) (rel_rows rel)))),
     resolved st name rel).
Proof.
  intros Hq Hb Hc. rewrite (select_unfold rt qry w st Hq).
  rewrite (object_get_bound st name rel Hb).
  rewrite (execute_bound rt _ st name rel _ Hb
             (run_select_bound rt name rel w _ (proj1 (proj2 Hb)) Hc)).
  reflexivity.
Qed.

Lemma count_bound (rt : Runtime) (qry : Query) (w : Expr) (st : State)
    (name : string) (rel : Relation) :
  query_expression qry = Ok w ->
  bound_to st name rel ->
  check_columns rel (expr_columns w) = Ok tt ->
  count rt qry st
  = (Ok (VInt (Z.of_nat (length (List.filter (matches w) (rel_rows rel))))),
     resolved st name rel).
Proof.
  intros Hq Hb Hc. rewrite (count_unfold rt qry w st Hq).
  rewrite (object_get_bound st name rel Hb).
  rewrite (execute_bound rt _ st name rel _ Hb
             (run_select_count rt _ qry w _ _ _ Hq
                (run_select_bound rt name rel w _ (proj1 (proj2 Hb)) Hc))).
  rewrite length_map. reflexivity.
Qed.

(** C2, as the code has it.  For a filter given as nothing, as a mapping
    or as a toolkit expression: whenever [list(select(F))] returns,
    [count(F)] returns its length; and on an accessor bound to an
    existing table, with the filter's columns in the table, [count]
    returns the number of rows the filter admits, [select] yields exactly
    those rows, and their list has that length when every cell converts;
    the count is 0 when no row is admitted. *)
Theorem count_is_length_of_select (rt : Runtime) (qry : Query) (st : State) :
  (forall w out st',
     query_expression qry = Ok w ->
     select_list rt qry None st = (Ok out, st') ->
     count rt qry st = (Ok (VInt (Z.of_nat (length out))), st'))
  /\ (forall w name rel,
     query_expression qry = Ok w ->
     bound_to st name rel ->
     check_columns rel (expr_columns w) = Ok tt ->
     count rt qry st
       = (Ok (VInt (Z.of_nat (length (List.filter (matches w) (rel_rows rel))))),
          resolved st name rel)
     /\ select rt qry None st
       = (Ok (Generator (map (result_row (map col_name (rel_columns rel)))
                             (List.filter (matches w) (rel_rows rel)))),
          resolved st name rel)
     /\ (forall ds,
         format_rows rt (rel_columns rel)
           (map (result_row (map col_name (rel_columns rel)))
                (List.filter (matches w) (rel_rows rel))) = Ok ds ->
         select_list rt qry None st = (Ok (map DictRow ds), resolved st name rel)
         /\ length ds = length (List.filter (matches w) (rel_rows rel)))
     /\ (List.filter (matches w) (rel_rows rel) = [] ->
         count rt qry st = (Ok (VInt 0), resolved st name rel))).
Proof.
  split.
  - intros w out st' Hq H.
    rewrite (select_list_unfold rt qry w st Hq) in H.
    rewrite (count_unfold rt qry w st Hq).
    destruct (object_get st) as [[o|e] st1]; [|discriminate].
    rewrite execute_unfold in *.
    destruct (engine (self st1)); try discriminate;
      (destruct (run_statement rt (Select o [] w) (database (world st1)))
         as [[db rows]|] eqn:Hrun; [|discriminate];
       rewrite (run_select_count rt o qry w _ _ _ Hq Hrun);
       destruct (format_rows rt (tbl_columns o) rows) as [ds|] eqn:Hds;
         [|discriminate];
       injection H as <- <-;
       rewrite length_map, (format_rows_length _ _ _ _ Hds); reflexivity).
  - intros w name rel Hq Hb Hc.
    pose proof (count_bound rt qry w st name rel Hq Hb Hc) as Hcount.
    pose proof (select_bound rt qry w st name rel Hq Hb Hc) as Hsel.
    split; [exact Hcount|split; [exact Hsel|split]].
    + intros ds Hds. split.
      * unfold select_list. unfold mbind, M_bind. rewrite Hsel.
        unfold list_, _format_results, _get_types. unfold_monad.
        rewrite object_get_unfold. simpl. rewrite Hds. reflexivity.
      * rewrite (format_rows_length _ _ _ _ Hds). apply length_map.
    + intros Hnil. rewrite Hcount, Hnil. reflexivity.
Qed.

Lemma count_is_length_of_select_witness :
  count sample_runtime (QDict [("score", Oper (Between (VInt 100) (VInt 220)))])
    (sample_state (Some "populated"))
  = (Ok (VInt 2), resolved (sample_state (Some "populated")) "populated" populated)
  /\ length <$> fst (select_list sample_runtime
                       (QDict [("score", Oper (Between (VInt 100) (VInt 220)))])
                       None (sample_state (Some "populated")))
     = Ok 2%nat
  /\ count sample_runtime (QDict [("score", Plain (VInt 7))])
       (sample_state (Some "populated"))
     = (Ok (VInt 0), resolved (sample_state (Some "populated")) "populated" populated).
Proof.
  pose proof (proj2 (count_is_length_of_select sample_runtime
    (QDict [("score", Oper (Between (VInt 100) (VInt 220)))])
    (sample_state (Some "populated")))
    (EAnd ETrue (EBetween (mkColumnRef None "score") (VInt 100) (VInt 220)))
    "populated" populated eq_refl
    (conj (or_introl eq_refl) (conj eq_refl (or_introl (conj eq_refl eq_refl))))
    eq_refl) as (Hcount & _ & Hlist & _).
  split; [exact Hcount|split].
  - destruct (Hlist _ eq_refl) as [-> _]. reflexivity.
  - vm_compute. reflexivity.
Defined.

(** C2, as stated, fails on raw text: [select] runs the text and its
    list has three rows, [count] hands the string to [where()] and
    raises. *)
Lemma count_refuses_raw_text :
  length <$> fst (select_list sample_runtime (QStr "SELECT * FROM populated")
                    None (sample_state (Some "populated")))
    = Ok 3%nat
  /\ fst (count sample_runtime (QStr "SELECT * FROM populated")
            (sample_state (Some "populated")))
     = Raise (no_text_coercion "SELECT * FROM populated").
Proof. split; vm_compute; reflexivity. Qed.







Lemma sample_bound : bound_to (sample_state (Some "populated")) "populated" populated.
Proof.
  split; [left; reflexivity|]. split; [reflexivity|].
  left. split; reflexivity.
Qed.





(** ** The cached schema handle *)

Lemma respects_bind {A B} (R : option SqlTable -> option SqlTable -> Prop)
    (m : M A) (f : A -> M B) :
  (forall a b c, R a b -> R b c -> R a c) ->
  respects R m -> (forall x, respects R (f x)) -> respects R (m ≫= f).
Proof.
  intros Htrans Hm Hf st. unfold mbind, M_bind.
  pose proof (Hm st) as H1.
  destruct (m st) as [[a|e] st1]; simpl in *; [|exact H1].
  eapply Htrans; [exact H1 | apply Hf].
Qed.

Lemma kept_trans (a b c : option SqlTable) : kept a b -> kept b c -> kept a c.
Proof. unfold kept. congruence. Qed.

Lemma cached_trans (a b c : option SqlTable) :
  cached a b -> cached b c -> cached a c.
Proof. unfold cached. eauto. Qed.

Lemma stays_resolved_trans (a b c : option SqlTable) :
  stays_resolved a b -> stays_resolved b c -> stays_resolved a c.
Proof. unfold stays_resolved. eauto. Qed.

Lemma respects_fmap {A B} (R : option SqlTable -> option SqlTable -> Prop)
    (g : A -> B) (m : M A) :
  respects R m -> respects R (g <$> m).
Proof.
  intros Hm st. unfold fmap, M_fmap. pose proof (Hm st) as H1.
  destruct (m st) as [[a|e] st1]; exact H1.
Qed.

Lemma kept_cached {A} (m : M A) : respects kept m -> respects cached m.
Proof. intros H st o Ho. rewrite (H st). exact Ho. Qed.

Lemma kept_stays_resolved {A} (m : M A) :
  respects kept m -> respects stays_resolved m.
Proof. intros H st Ho. rewrite (H st). exact Ho. Qed.

Lemma kept_self {A} (m : M A) :
  (forall st, self (snd (m st)) = self st) -> respects kept m.
Proof. intros H st. unfold kept. rewrite H. reflexivity. Qed.

Lemma kept_ret {A} (a : A) : respects kept (mret a : M A).
Proof. intros st. reflexivity. Qed.

Lemma kept_raise {A} (e : Exception) : respects kept (raise e : M A).
Proof. intros st. reflexivity. Qed.

Lemma kept_lift {A} (r : Result A) : respects kept (lift r).
Proof. intros st. reflexivity. Qed.

Lemma kept_get_self : respects kept get_self.
Proof. intros st. reflexivity. Qed.

Lemma kept_get_world : respects kept get_world.
Proof. intros st. reflexivity. Qed.

Lemma kept_put_world (w : World) : respects kept (put_world w).
Proof. intros st. reflexivity. Qed.

Lemma kept_name_get : respects kept name_get.
Proof. intros st. reflexivity. Qed.

Lemma kept_connection_get : respects kept connection_get.
Proof. intros st. reflexivity. Qed.

Lemma kept_connection_set (value : Connectable) :
  respects kept (connection_set value).
Proof. intros st. reflexivity. Qed.

Lemma kept_execute (rt : Runtime) (arg : string + Statement) :
  respects kept (execute rt arg).
Proof. apply kept_self, execute_keeps_self. Qed.

Lemma cached_object_get : respects cached object_get.
Proof.
  intros st o Ho. rewrite object_get_unfold, Ho. exact Ho.
Qed.

Lemma stays_resolved_object_get : respects stays_resolved object_get.
Proof.
  intros st Ho. rewrite object_get_unfold.
  destruct (_object (self st)) as [o|] eqn:E; [|congruence].
  simpl. rewrite E. discriminate.
Qed.

Create HintDb respects.

#[local] Hint Resolve kept_ret kept_raise kept_lift kept_get_self
  kept_get_world kept_put_world kept_name_get kept_connection_get
  kept_connection_set kept_execute : respects.

(** Walks a method body: binds are split, matches are destructed, and
    the leaves are found in the hint database. *)
Ltac respects_steps trans leaf :=
  repeat first
    [ solve [leaf]
    | progress intros
    | match goal with
      | |- respects _ (match ?x with _ => _ end) => destruct x
      | |- respects _ (_ ≫= _) => apply (respects_bind _ _ _ trans)
      | |- respects _ (_ <$> _) => apply respects_fmap
      end ].

Ltac kept_steps := respects_steps kept_trans ltac:(eauto with respects).

Ltac cached_steps :=
  respects_steps cached_trans
    ltac:(first [ solve [eauto 2]
                | apply cached_object_get
                | apply kept_cached; eauto with respects ]).

Lemma kept_begin (conn : Connectable) : respects kept (begin_ conn).
Proof. unfold begin_. kept_steps. Qed.

Lemma kept_open_transaction : respects kept open_transaction.
Proof.
  intros st. destruct st as [[e n o c] w].
  unfold open_transaction, begin_. unfold_monad. simpl.
  destruct e as [|id|id]; simpl; try reflexivity.
  destruct (connections w !! id) as [[snapshot|]|]; reflexivity.
Qed.

Lemma kept_exit (failed : bool) : respects kept (__exit__ failed).
Proof. unfold __exit__. kept_steps. Qed.

Lemma kept_get_transaction (conn : Connectable) :
  respects kept (get_transaction conn).
Proof. unfold get_transaction. kept_steps. Qed.

Lemma kept_rollback : respects kept rollback.
Proof.
  unfold rollback. pose proof kept_get_transaction. kept_steps.
Qed.

Lemma kept_commit : respects kept commit.
Proof.
  unfold commit. pose proof kept_get_transaction. kept_steps.
Qed.

Lemma cached_column_getitem (col : string) : respects cached (column_getitem col).
Proof. unfold column_getitem. cached_steps. Qed.

Lemma cached_mapM {A B} (f : A -> M B) (l : list A) :
  (forall x, respects cached (f x)) -> respects cached (mapM f l).
Proof.
  intros Hf. induction l as [|x l IH]; simpl.
  - apply kept_cached, kept_ret.
  - pose proof (Hf x). cached_steps.
Qed.

Lemma cached_select_statement (rt : Runtime) (qry : Query)
    (columns : option (list string)) :
  respects cached (select_statement rt qry columns).
Proof.
  unfold select_statement.
  pose proof (fun l => cached_mapM column_getitem l cached_column_getitem).
  cached_steps.
Qed.

Lemma cached_select_list (rt : Runtime) (qry : Query)
    (columns : option (list string)) :
  respects cached (select_list rt qry columns).
Proof.
  unfold select_list, select, list_, _format_results, _get_types.
  pose proof (cached_select_statement rt qry columns). cached_steps.
Qed.

Lemma cached_insert (rt : Runtime) (data : gmap string Value) :
  respects cached (insert rt data).
Proof. unfold insert. cached_steps. Qed.

Lemma cached_delete (rt : Runtime) (where' : Query) :
  respects cached (delete rt where').
Proof. unfold delete, delete_statement. cached_steps. Qed.

Lemma cached_update (rt : Runtime) (where' : Query)
    (values : gmap string Value) :
  respects cached (update rt where' values).
Proof. unfold update, update_statement. cached_steps. Qed.

Lemma cached_count (rt : Runtime) (where' : Query) :
  respects cached (count rt where').
Proof. unfold count, count_statement. cached_steps. Qed.

Lemma stays_resolved_reflect : respects stays_resolved reflect.
Proof.
  intros st. destruct st as [[e n o c] w].
  unfold reflect, reflect_table, name_get. unfold_monad. simpl.
  destruct o as [o|]; simpl.
  - destruct (database w !! tbl_name o); simpl; congruence.
  - intros H. congruence.
Qed.

Lemma stays_resolved_create (rt : Runtime) (columns : CreateArg) :
  respects stays_resolved (create rt columns).
Proof.
  unfold create.
  respects_steps stays_resolved_trans
    ltac:(solve [apply kept_stays_resolved; eauto with respects]).
  cbv zeta.
  respects_steps stays_resolved_trans
    ltac:(first [ solve [apply kept_stays_resolved; eauto with respects]
                | solve [intros st _; simpl; discriminate] ]).
Qed.

Lemma kept_discard {A} (m : M A) : respects kept m -> respects kept (discard m).
Proof. intros H. unfold discard. kept_steps. Qed.

Lemma cached_discard {A} (m : M A) :
  respects cached m -> respects cached (discard m).
Proof. intros H. unfold discard. cached_steps. Qed.

(** The calls that leave the handle as it is. *)
Lemma run_call_kept (rt : Runtime) (c : Call) :
  is_create_or_reflect c || is_structural_access c
    || is_object_set c || is_name_set c = false ->
  respects kept (run_call rt c).
Proof.
  destruct c; simpl; try discriminate; intros _;
    try apply kept_discard; eauto with respects.
  - apply kept_open_transaction.
  - apply kept_exit.
  - apply kept_rollback.
  - apply kept_commit.
Qed.

(** The calls that never replace a cached handle. *)
Lemma run_call_cached (rt : Runtime) (c : Call) :
  is_create_or_reflect c || is_object_set c || is_name_set c = false ->
  respects cached (run_call rt c).
Proof.
  intros H.
  destruct (is_structural_access c) eqn:Hs.
  - destruct c; simpl in *; try discriminate; try apply cached_discard.
    + apply cached_object_get.
    + apply cached_select_list.
    + apply cached_insert.
    + apply cached_delete.
    + apply cached_update.
    + apply cached_count.
  - apply kept_cached, run_call_kept.
    destruct c; simpl in *; congruence.
Qed.

(** The calls that never drop a cached handle. *)
Lemma run_call_stays_resolved (rt : Runtime) (c : Call) :
  is_name_set c = false -> respects stays_resolved (run_call rt c).
Proof.
  intros H.
  destruct (is_create_or_reflect c || is_object_set c) eqn:Hs.
  - destruct c; simpl in *; try discriminate.
    + apply stays_resolved_reflect.
    + apply stays_resolved_create.
  - intros st Ho. destruct (_object (self st)) as [o|] eqn:Hobj; [|congruence].
    rewrite (run_call_cached rt c) with (o := o); [discriminate| |exact Hobj].
    rewrite H. apply orb_false_iff in Hs as [-> ->]. reflexivity.
Qed.

(** C3, as the code has it.  The cached schema handle goes from absent
    to present only in [create], in [reflect], in a call that reads
    [self.object] (which reflects lazily) or in an assignment to the
    [object] property; it goes back to absent only when the name is
    assigned; a call that reads [self.object] keeps a handle that is
    cached; and no other call changes the handle. *)
Theorem schema_handle_transitions (rt : Runtime) (c : Call) (st : State) :
  (_object (self st) = None -> handle_after rt c st <> None ->
     is_create_or_reflect c || is_structural_access c || is_object_set c = true)
  /\ (_object (self st) <> None -> handle_after rt c st = None ->
     is_name_set c = true)
  /\ (is_create_or_reflect c || is_object_set c || is_name_set c = false ->
      forall o, _object (self st) = Some o -> handle_after rt c st = Some o)
  /\ (is_create_or_reflect c || is_structural_access c
        || is_object_set c || is_name_set c = false ->
      handle_after rt c st = _object (self st))
  /\ (forall value, handle_after rt (CallNameSet value) st = None)
  /\ (forall value, handle_after rt (CallObjectSet value) st = Some value).
Proof.
  unfold handle_after. repeat split.
  - intros Hnone Hafter.
    destruct (is_create_or_reflect c || is_structural_access c
              || is_object_set c) eqn:Hf; [reflexivity|].
    destruct (is_name_set c) eqn:Hn.
    + destruct c; try discriminate. destruct Hafter. reflexivity.
    + destruct Hafter. rewrite (run_call_kept rt c); [exact Hnone|].
      rewrite Hf, Hn. reflexivity.
  - intros Hsome Hafter.
    destruct (is_name_set c) eqn:Hn; [reflexivity|].
    destruct (run_call_stays_resolved rt c Hn st Hsome Hafter).
  - intros Hf o Ho. apply (run_call_cached rt c Hf st o Ho).
  - intros Hf. apply (run_call_kept rt c Hf st).
Qed.

Lemma schema_handle_transitions_witness :
  handle_after sample_runtime (CallCount QNone) (sample_state (Some "populated"))
    = Some (mkSqlTable "populated" populated_columns)
  /\ handle_after sample_runtime (CallCount QNone)
       (resolved (sample_state (Some "populated")) "populated" populated)
    = Some (mkSqlTable "populated" populated_columns)
  /\ handle_after sample_runtime CallCommit
       (resolved (sample_state (Some "populated")) "populated" populated)
    = Some (mkSqlTable "populated" populated_columns)
  /\ handle_after sample_runtime (CallNameSet (Some "other"))
       (resolved (sample_state (Some "populated")) "populated" populated)
    = None.
Proof.
  pose proof (schema_handle_transitions sample_runtime (CallCount QNone)
                (resolved (sample_state (Some "populated")) "populated" populated))
    as (_ & _ & Hcached & _).
  pose proof (schema_handle_transitions sample_runtime CallCommit
                (resolved (sample_state (Some "populated")) "populated" populated))
    as (_ & _ & _ & Hkept & Hname & _).
  split; [vm_compute; reflexivity|split; [|split]].
  - apply (Hcached eq_refl _ eq_refl).
  - apply (Hkept eq_refl).
  - apply Hname.
Defined.

(** C3, as stated, fails: assigning the [object] property caches a
    handle, and it is neither [create], nor [reflect], nor an access that
    reflects lazily. *)
Lemma object_setter_resolves_handle :
  _object (self (sample_state (Some "populated"))) = None
  /\ handle_after sample_runtime (CallObjectSet (mkSqlTable "other" []))
       (sample_state (Some "populated"))
     = Some (mkSqlTable "other" [])
  /\ is_create_or_reflect (CallObjectSet (mkSqlTable "other" []))
     || is_structural_access (CallObjectSet (mkSqlTable "other" [])) = false.
Proof. repeat split. Qed.

(** * Further properties of the code *)

(** ** The filter translator *)

Lemma to_sql_expressions_from_skip (stmt : Expr) (qry : FilterMapping) :
  to_sql_expressions_from None stmt qry
  = to_sql_expressions_from None stmt
      (List.filter (fun kv => negb (is_skip kv)) qry).
Proof.
  revert stmt. induction qry as [|[k v] qry IH]; intros stmt; [reflexivity|].
  destruct v as [value|[start end_|values| |repr [magic|] value]];
    cbn -[column_getattr]; try apply IH; try reflexivity.
  destruct (column_getattr (mkColumnRef None k) magic) as [m|];
    cbn -[column_getattr]; [apply IH | reflexivity].
Qed.

(** X1. An entry whose value is [skip] contributes nothing: the
    translation of a filter is the translation of the filter without its
    [skip] entries (errors included).  With a column source, though, the
    column of a [skip] entry is still looked up, and a failing lookup
    raises. *)
Theorem skip_entries_are_omitted (qry : FilterMapping) :
  to_sql_expressions qry None
  = to_sql_expressions (List.filter (fun kv => negb (is_skip kv)) qry) None
  /\ (forall (t : ColumnSource) k rest,
      t k = None ->
      to_sql_expressions ((k, Oper Skip) :: rest) (Some t)
      = Raise (AttributeError k)).
Proof.
  split.
  - apply to_sql_expressions_from_skip.
  - intros t k rest Hk. unfold to_sql_expressions. simpl. rewrite Hk.
    reflexivity.
Qed.

Lemma skip_entries_are_omitted_witness :
  to_sql_expressions
    [("name", Oper Skip); ("score", Plain (VInt 100)); ("id", Oper Skip)] None
  = Ok (EAnd ETrue (ECompare "__eq__" (mkColumnRef None "score") (VInt 100))).
Proof.
  exact (eq_trans
    (proj1 (skip_entries_are_omitted
       [("name", Oper Skip); ("score", Plain (VInt 100)); ("id", Oper Skip)]))
    eq_refl).
Defined.

(** X2. Entries only narrow: a row admitted by the translation of a
    filter extended with further entries is admitted by the translation
    of the filter itself, and in particular by the empty filter. *)
Theorem more_entries_admit_fewer_rows (qry more : FilterMapping) :
  forallb translatable (qry ++ more) = true ->
  exists e e',
    to_sql_expressions qry None = Ok e
    /\ to_sql_expressions (qry ++ more) None = Ok e'
    /\ (forall row, matches e' row = true -> matches e row = true)
    /\ (forall row, matches e' row = true -> matches ETrue row = true).
Proof.
  intros H. rewrite forallb_app in H. apply andb_prop in H as [Hq Hm].
  exists (fold_left EAnd (omap spec_entry_expression qry) ETrue).
  exists (fold_left EAnd (omap spec_entry_expression (qry ++ more)) ETrue).
  split; [apply to_sql_expressions_from_translatable, Hq|].
  split.
  { apply to_sql_expressions_from_translatable.
    rewrite forallb_app, Hq, Hm. reflexivity. }
  split; [|reflexivity].
  intros row. unfold matches. rewrite !bool_decide_eq_true.
  rewrite omap_app, fold_left_app, eval_fold_and, fold_and3_true.
  tauto.
Qed.

Lemma more_entries_admit_fewer_rows_witness :
  exists e e',
    to_sql_expressions [("score", Oper (Between (VInt 100) (VInt 220)))] None
      = Ok e
    /\ to_sql_expressions
         ([("score", Oper (Between (VInt 100) (VInt 220)))]
          ++ [("name", Plain (VStr "John"))]) None = Ok e'
    /\ (forall row, matches e' row = true -> matches e row = true)
    /\ (forall row, matches e' row = true -> matches ETrue row = true).
Proof.
  exact (more_entries_admit_fewer_rows
           [("score", Oper (Between (VInt 100) (VInt 220)))]
           [("name", Plain (VStr "John"))] eq_refl).
Defined.

(** ** Types given to [create] *)

(** X3. [Optional[T]] is mapped as [T] is, whichever side [None] is
    on; a union of two types neither of which is [None], and a union of
    more than two, are refused with a [TypeError]. *)
Theorem optional_type_is_unwrapped (repr : string) (c : PyClass) :
  _to_sqlalchemy_type (AnnUnion repr [AnnClass c; AnnClass py_NoneType])
    = Ok (types c)
  /\ _to_sqlalchemy_type (AnnUnion repr [AnnClass py_NoneType; AnnClass c])
    = Ok (types c)
  /\ _to_sqlalchemy_type (AnnClass c) = Ok (types c)
  /\ (forall d, c <> py_NoneType -> d <> py_NoneType ->
      exists msg, _to_sqlalchemy_type (AnnUnion repr [AnnClass c; AnnClass d])
                  = Raise (TypeError msg))
  /\ (forall args, (2 < length args)%nat ->
      exists msg, _to_sqlalchemy_type (AnnUnion repr args)
                  = Raise (TypeError msg)).
Proof.
  repeat split.
  - destruct c; reflexivity.
  - destruct c; reflexivity.
  - intros d Hc Hd. eexists.
    destruct c, d; try congruence; reflexivity.
  - intros args Hlen. eexists. unfold _to_sqlalchemy_type.
    rewrite (proj2 (Nat.ltb_lt _ _) Hlen). reflexivity.
Qed.

Lemma optional_type_is_unwrapped_witness :
  _to_sqlalchemy_type (AnnUnion "Optional[int]" [AnnClass py_int; AnnClass py_NoneType])
    = Ok (Some Integer)
  /\ _to_sqlalchemy_type (AnnUnion "Optional[int]" [AnnClass py_NoneType; AnnClass py_int])
    = Ok (Some Integer).
Proof.
  split.
  - exact (proj1 (optional_type_is_unwrapped "Optional[int]" py_int)).
  - exact (proj1 (proj2 (optional_type_is_unwrapped "Optional[int]" py_int))).
Defined.

(** X4. A [Literal] is mapped by the class of its first member, the
    others having to be instances of it, so the order matters:
    [Literal[1, True]] is an integer, [Literal[True, 1]] is refused.  A
    [Literal] inside [Optional] is not resolved: the lookup finds no
    type. *)
Theorem literal_type_is_the_first_members (repr : string) (first : Value)
    (rest : list Value) :
  (Forall (fun a => isinstance a (type_of first) = true) rest ->
   _to_sqlalchemy_type (AnnLiteral repr first rest) = Ok (types (type_of first)))
  /\ (Exists (fun a => isinstance a (type_of first) = false) rest ->
      exists msg, _to_sqlalchemy_type (AnnLiteral repr first rest)
                  = Raise (TypeError msg))
  /\ _to_sqlalchemy_type (AnnLiteral repr (VInt 1) [VBool true])
     = Ok (Some Integer)
  /\ (exists msg, _to_sqlalchemy_type (AnnLiteral repr (VBool true) [VInt 1])
                  = Raise (TypeError msg))
  /\ (forall repr',
      _to_sqlalchemy_type
        (AnnUnion repr' [AnnLiteral repr first rest; AnnClass py_NoneType])
      = Ok None).
Proof.
  split; [|split; [|split; [reflexivity|split; [eexists; reflexivity|]]]].
  - intros H. unfold _to_sqlalchemy_type.
    rewrite (proj2 (forallb_forall _ _)); [reflexivity|].
    intros a Ha. rewrite Forall_forall in H. apply H, list_elem_of_In, Ha.
  - intros H. eexists. unfold _to_sqlalchemy_type.
    destruct (forallb (fun a => isinstance a (type_of first)) rest) eqn:Hall;
      [|reflexivity].
    apply Exists_exists in H as (a & Ha & Hfalse).
    rewrite forallb_forall in Hall.
    rewrite (Hall a) in Hfalse; [discriminate | apply list_elem_of_In, Ha].
  - reflexivity.
Qed.

Lemma literal_type_is_the_first_members_witness :
  _to_sqlalchemy_type (AnnLiteral "Literal['a', 'b']" (VStr "a") [VStr "b"])
  = Ok (Some String_).
Proof.
  apply (proj1 (literal_type_is_the_first_members "Literal['a', 'b']"
                  (VStr "a") [VStr "b"])).
  repeat constructor.
Defined.

(** ** The type bridge, further cases *)

(** X5. A [None] cell of a nullable column is returned as it is; a
    [bool] cell of an integer column and a [datetime] cell of a date
    column are returned unchanged, being instances of the column's type;
    a [date] cell of a datetime column is not, and goes to the
    constructor; and a column without a Python type (one created with a
    type [Table.types] does not know) makes every conversion raise
    [NotImplementedError], a [None] cell included. *)
Theorem to_native_null_and_subclass (rt : Runtime) (nullable : bool) :
  (forall t c, python_type t = Ok c -> to_native rt VNone t true = Ok VNone)
  /\ (forall b, to_native rt (VBool b) Integer nullable = Ok (VBool b))
  /\ (forall dt, to_native rt (VDateTime dt) Date_ nullable = Ok (VDateTime dt))
  /\ (forall d, to_native rt (VDate d) DateTime_ nullable
                = construct rt py_datetime (VDate d))
  /\ (forall value, to_native rt value NullType nullable
                    = Raise (NotImplementedError ""))
  /\ (forall name ann,
      _to_sqlalchemy_type ann = Ok None ->
      create_columns (ColumnsMapping [(name, ann)])
      = Ok [mkColumn name NullType true false]).
Proof.
  split; [|repeat split; try (intros; destruct nullable; reflexivity)].
  - intros t c Ht. unfold to_native. rewrite Ht.
    destruct c; reflexivity.
  - intros name ann Hann. simpl. rewrite Hann. reflexivity.
Qed.

Lemma to_native_null_and_subclass_witness :
  to_native sample_runtime VNone Integer true = Ok VNone
  /\ create_columns (ColumnsMapping [("payload", AnnClass py_NoneType)])
     = Ok [mkColumn "payload" NullType true false].
Proof.
  split.
  - exact (proj1 (to_native_null_and_subclass sample_runtime true)
                 Integer py_int eq_refl).
  - exact (proj2 (proj2 (proj2 (proj2 (proj2
             (to_native_null_and_subclass sample_runtime true)))))
             "payload" (AnnClass py_NoneType) eq_refl).
Defined.

(** ** Writing rows *)

Lemma find_all_false {A} (f : A -> bool) (l : list A) :
  (forall x, x ∈ l -> f x = false) -> List.find f l = None.
Proof.
  induction l as [|x l IH]; intros H; simpl; [reflexivity|].
  rewrite (H x) by apply list_elem_of_here.
  apply IH. intros y Hy. apply H, list_elem_of_further, Hy.
Qed.

Lemma fits_keys (cols : list Column) (values : gmap string Value) :
  fits cols values ->
  List.find (fun n => negb (has_column cols n)) (map fst (map_to_list values))
  = None.
Proof.
  intros H. apply find_all_false. intros k Hk.
  apply list_elem_of_In, in_map_iff in Hk as ([k' v] & <- & Hkv).
  apply list_elem_of_In, elem_of_map_to_list in Hkv.
  simpl. rewrite (H k'); [reflexivity | exists v; exact Hkv].
Qed.





Lemma execute_write (rt : Runtime) (stmt : Statement) (st : State)
    (name : string) (rel : Relation) (db : gmap string Relation)
    (rows : list BackendRow) :
  bound_to st name rel ->
  run_statement rt stmt (database (world st)) = Ok (db, rows) ->
  execute rt (inr stmt) (resolved st name rel)
  = (Ok rows, with_database (resolved st name rel) db).
Proof.
  intros (He & _) Hrun. rewrite execute_unfold.
  change (database (world (resolved st name rel))) with (database (world st)).
  change (engine (self (resolved st name rel))) with (engine (self st)).
  rewrite Hrun. destruct He as [-> | [c ->]]; reflexivity.
Qed.

Lemma bound_after_write (st : State) (name : string) (rel rel' : Relation) :
  bound_to st name rel ->
  rel_columns rel' = rel_columns rel ->
  bound_to (with_relation (resolved st name rel) name rel') name rel'
  /\ resolved (with_relation (resolved st name rel) name rel') name rel'
     = with_relation (resolved st name rel) name rel'.
Proof.
  intros (He & Hdb & _) Hcols. split.
  - split; [exact He|]. split.
    + apply lookup_insert_eq.
    + right. simpl. rewrite Hcols. reflexivity.
  - unfold resolved at 1. apply with_object_cached. simpl.
    rewrite Hcols. reflexivity.
Qed.

Lemma insert_unfold (rt : Runtime) (data : gmap string Value) (st : State) :
  insert rt data st =
  match object_get st with
  | (Raise e, st1) => (Raise e, st1)
  | (Ok o, st1) =>
      match execute rt (inr (Insert o data)) st1 with
      | (Raise e, st2) => (Raise e, st2)
      | (Ok _, st2) => (Ok tt, st2)
      end
  end.
Proof.
  unfold insert. unfold mbind at 1 2, M_bind at 1 2.
  destruct (object_get st) as [[o|e] st1]; [|reflexivity].
  destruct (execute rt (inr (Insert o data)) st1) as [[rows|e] st2];
    reflexivity.
Qed.

Lemma delete_unfold (rt : Runtime) (qry : Query) (w : Expr) (st : State) :
  is_mapping_or_expression qry = true ->
  query_expression qry = Ok w ->
  delete rt qry st =
  match object_get st with
  | (Raise e, st1) => (Raise e, st1)
  | (Ok o, st1) =>
      match execute rt (inr (Delete o w)) st1 with
      | (Raise e, st2) => (Raise e, st2)
      | (Ok _, st2) => (Ok tt, st2)
      end
  end.
Proof.
  intros Hf Hq. unfold delete. unfold mbind at 1 2, M_bind at 1 2.
  rewrite (delete_statement_unfold qry w st Hf Hq).
  destruct (object_get st) as [[o|e] st1]; [|reflexivity].
  destruct (execute rt (inr (Delete o w)) st1) as [[rows|e] st2]; reflexivity.
Qed.

Lemma update_unfold (rt : Runtime) (qry : Query) (values : gmap string Value)
    (w : Expr) (st : State) :
  is_mapping_or_expression qry = true ->
  query_expression qry = Ok w ->
  update rt qry values st =
  match object_get st with
  | (Raise e, st1) => (Raise e, st1)
  | (Ok o, st1) =>
      match execute rt (inr (Update o w values)) st1 with
      | (Raise e, st2) => (Raise e, st2)
      | (Ok _, st2) => (Ok tt, st2)
      end
  end.
Proof.
  intros Hf Hq. unfold update. unfold mbind at 1 2, M_bind at 1 2.
  rewrite (update_statement_unfold qry values w st Hf Hq).
  destruct (object_get st) as [[o|e] st1]; [|reflexivity].
  destruct (execute rt (inr (Update o w values)) st1) as [[rows|e] st2];
    reflexivity.
Qed.

Lemma execute_refused (rt : Runtime) (stmt : Statement) (st : State)
    (name : string) (rel : Relation) (e : Exception) :
  bound_to st name rel ->
  run_statement rt stmt (database (world st)) = Raise e ->
  execute rt (inr stmt) (resolved st name rel)
  = (Raise e, resolved st name rel).
Proof.
  intros (He & _) Hrun. rewrite execute_unfold.
  change (database (world (resolved st name rel))) with (database (world st)).
  change (engine (self (resolved st name rel))) with (engine (self st)).
  rewrite Hrun. destruct He as [-> | [c ->]]; reflexivity.
Qed.

(** The cells [bind_values] stores: for a value given under the name of
    a column, what the column's type binds it to. *)
Lemma bind_values_lookup (rt : Runtime) (cols : list Column)
    (values cells : gmap string Value) (k : string) :
  bind_values rt cols values = Ok cells ->
  cells !! k =
  match List.find (fun c => String.eqb (col_name c) k) cols, values !! k with
  | Some c, Some v =>
      match bind_param rt (col_type c) v with
      | Ok cell => Some cell
      | Raise _ => None
      end
  | _, _ => None
  end.
Proof.
  revert cells. induction cols as [|c cols IH]; intros cells H; simpl in H.
  - injection H as <-. simpl. apply lookup_empty.
  - simpl. destruct (values !! col_name c) as [v|] eqn:Hv.
    + destruct (bind_param rt (col_type c) v) as [cell|] eqn:Hcell;
        simpl in H; [|discriminate].
      destruct (bind_values rt cols values) as [cells'|]; simpl in H;
        [|discriminate].
      injection H as <-.
      destruct (String.eqb_spec (col_name c) k) as [<-|Hne].
      * rewrite lookup_insert_eq, Hv, Hcell. reflexivity.
      * rewrite lookup_insert_ne by exact Hne. apply IH. reflexivity.
    + destruct (String.eqb_spec (col_name c) k) as [<-|Hne].
      * rewrite Hv, (IH cells H), Hv.
        destruct (List.find _ cols); reflexivity.
      * apply IH, H.
Qed.

Lemma find_column_elem (cols : list Column) (k : string) (c : Column) :
  List.find (fun c => String.eqb (col_name c) k) cols = Some c ->
  c ∈ cols /\ col_name c = k.
Proof.
  intros H. apply find_some in H as [Hin Heq].
  split; [apply list_elem_of_In, Hin | apply String.eqb_eq, Heq].
Qed.

Lemma bind_values_given (rt : Runtime) (cols : list Column)
    (values cells : gmap string Value) :
  bind_values rt cols values = Ok cells ->
  (forall k, values !! k = None -> cells !! k = None)
  /\ (forall k x, cells !! k = Some x ->
      exists c v, c ∈ cols /\ col_name c = k /\ values !! k = Some v
                  /\ bind_param rt (col_type c) v = Ok x).
Proof.
  intros H. split.
  - intros k Hk. rewrite (bind_values_lookup rt cols values cells k H), Hk.
    destruct (List.find _ cols); reflexivity.
  - intros k x. rewrite (bind_values_lookup rt cols values cells k H).
    destruct (List.find _ cols) as [c|] eqn:Hc; [|discriminate].
    destruct (values !! k) as [v|]; [|discriminate].
    destruct (bind_param rt (col_type c) v) as [cell|] eqn:Hcell;
      [|discriminate].
    intros [= <-]. destruct (find_column_elem cols k c Hc) as [Hin Hname].
    exists c, v. repeat split; assumption.
Qed.



Lemma run_insert_bound (rt : Runtime) (data : gmap string Value)
    (db : gmap string Relation) (name : string) (rel : Relation) :
  db !! name = Some rel ->
  fits (rel_columns rel) data ->
  run_statement rt (Insert (mkSqlTable name (rel_columns rel)) data) db
  = (cells ← bind_values rt (rel_columns rel) data;
     check_row (rel_columns rel) (rel_rows rel)
       (stored_row (rel_columns rel) cells);;
     Ok (<[name := mkRelation (rel_columns rel)
                     (rel_rows rel ++ [stored_row (rel_columns rel) cells])]> db,
         [])).
Proof.
  intros Hdb Hfits. simpl. unfold lookup_relation. simpl. rewrite Hdb. simpl.
  unfold check_consumed, check_columns. simpl.
  rewrite (fits_keys _ _ Hfits). reflexivity.
Qed.

Lemma insert_bound (rt : Runtime) (data cells : gmap string Value) (st : State)
    (name : string) (rel : Relation) :
  bound_to st name rel ->
  fits (rel_columns rel) data ->
  bind_values rt (rel_columns rel) data = Ok cells ->
  check_row (rel_columns rel) (rel_rows rel)
    (stored_row (rel_columns rel) cells) = Ok tt ->
  insert rt data st
  = (Ok tt,
     with_relation (resolved st name rel) name
       (mkRelation (rel_columns rel)
          (rel_rows rel ++ [stored_row (rel_columns rel) cells]))).
Proof.
  intros Hb Hfits Hbind Hcheck.
  rewrite insert_unfold, (object_get_bound st name rel Hb).
  erewrite (execute_write rt _ st name rel _ _ Hb); [reflexivity|].
  rewrite (run_insert_bound rt data _ name rel (proj1 (proj2 Hb)) Hfits).
  rewrite Hbind. simpl. rewrite Hcheck. reflexivity.
Qed.

Lemma insert_refused (rt : Runtime) (data : gmap string Value) (st : State)
    (name : string) (rel : Relation) (e : Exception) :
  bound_to st name rel ->
  fits (rel_columns rel) data ->
  (bind_values rt (rel_columns rel) data = Raise e
   \/ exists cells,
        bind_values rt (rel_columns rel) data = Ok cells
        /\ check_row (rel_columns rel) (rel_rows rel)
             (stored_row (rel_columns rel) cells) = Raise e) ->
  insert rt data st = (Raise e, resolved st name rel).
Proof.
  intros Hb Hfits H.
  rewrite insert_unfold, (object_get_bound st name rel Hb).
  rewrite (execute_refused rt _ st name rel e Hb); [reflexivity|].
  rewrite (run_insert_bound rt data _ name rel (proj1 (proj2 Hb)) Hfits).
  destruct H as [-> | (cells & -> & Hcheck)]; [reflexivity|].
  simpl. rewrite Hcheck. reflexivity.
Qed.

(** X6. On an accessor bound to an existing table, for a mapping whose
    keys are columns of the table: when the backend binds every value
    and the row meets NOT NULL and the primary key, [insert] succeeds
    and appends exactly one row, made of the bound cells, after the rows
    already there, and the number of rows [count] reports grows by one;
    when the backend refuses a value, [insert] raises what the binding
    raised, and when a row with the same primary key is there it raises
    [IntegrityError]: either way the database is left as it was. *)
Theorem insert_appends_one_row (rt : Runtime) (data : gmap string Value)
    (st : State) (name : string) (rel : Relation) :
  bound_to st name rel ->
  fits (rel_columns rel) data ->
  (forall cells,
     bind_values rt (rel_columns rel) data = Ok cells ->
     check_row (rel_columns rel) (rel_rows rel)
       (stored_row (rel_columns rel) cells) = Ok tt ->
     exists st1,
       insert rt data st = (Ok tt, st1)
       /\ database (world st1) !! name
          = Some (mkRelation (rel_columns rel)
                    (rel_rows rel ++ [stored_row (rel_columns rel) cells]))
       /\ (forall other, other <> name ->
           database (world st1) !! other = database (world st) !! other)
       /\ count rt QNone st = (Ok (VInt (Z.of_nat (length (rel_rows rel)))),
                               resolved st name rel)
       /\ count rt QNone st1
          = (Ok (VInt (Z.of_nat (S (length (rel_rows rel))))), st1))
  /\ (forall e,
      bind_values rt (rel_columns rel) data = Raise e ->
      insert rt data st = (Raise e, resolved st name rel))
  /\ (forall cells,
      bind_values rt (rel_columns rel) data = Ok cells ->
      existsb (same_key (rel_columns rel) (stored_row (rel_columns rel) cells))
              (rel_rows rel) = true ->
      exists msg,
        insert rt data st
        = (Raise (BackendError "IntegrityError" msg), resolved st name rel)).
Proof.
  intros Hb Hfits. split; [|split].
  - intros cells Hbind Hcheck. eexists.
    split; [apply (insert_bound rt data cells st name rel Hb Hfits Hbind Hcheck)|].
    destruct (bound_after_write st name rel
                (mkRelation (rel_columns rel)
                   (rel_rows rel ++ [stored_row (rel_columns rel) cells]))
                Hb eq_refl) as [Hb1 Hres].
    split; [apply lookup_insert_eq|].
    split; [intros other Hne; apply lookup_insert_ne; congruence|].
    split.
    + rewrite (count_bound rt QNone ETrue st name rel eq_refl Hb eq_refl).
      rewrite filter_matches_true. reflexivity.
    + rewrite (count_bound rt QNone ETrue _ name _ eq_refl Hb1 eq_refl).
      rewrite Hres, filter_matches_true. simpl.
      rewrite length_app. simpl. rewrite Nat.add_1_r. reflexivity.
  - intros e Hbind. apply (insert_refused rt data st name rel e Hb Hfits).
    left. exact Hbind.
  - intros cells Hbind Hdup.
    destruct (check_row (rel_columns rel) (rel_rows rel)
                (stored_row (rel_columns rel) cells)) as [[]|e] eqn:Hcheck.
    + unfold check_row in Hcheck. rewrite Hdup in Hcheck.
      destruct (List.find _ (rel_columns rel)); discriminate.
    + assert (He : exists msg, e = BackendError "IntegrityError" msg).
      { unfold check_row in Hcheck. rewrite Hdup in Hcheck.
        destruct (List.find _ (rel_columns rel));
          injection Hcheck as <-; eauto. }
      destruct He as [msg ->]. exists msg.
      apply (insert_refused rt data st name rel _ Hb Hfits).
      right. exists cells. split; assumption.
Qed.

Lemma sample_fits : fits populated_columns jane.
Proof.
  intros k [v Hk]. unfold jane in Hk.
  destruct (decide (k = "id")) as [->|]; [reflexivity|].
  destruct (decide (k = "name")) as [->|]; [reflexivity|].
  destruct (decide (k = "birth_date")) as [->|]; [reflexivity|].
  destruct (decide (k = "score")) as [->|]; [reflexivity|].
  simpl in Hk. rewrite !lookup_insert_ne in Hk by congruence.
  rewrite lookup_empty in Hk. discriminate.
Qed.

Lemma sample_fits_text :
  fits populated_columns (populated_row "d" "Jane" "2010-05-05" 400).
Proof.
  intros k [v Hk]. unfold populated_row in Hk.
  destruct (decide (k = "id")) as [->|]; [reflexivity|].
  destruct (decide (k = "name")) as [->|]; [reflexivity|].
  destruct (decide (k = "birth_date")) as [->|]; [reflexivity|].
  destruct (decide (k = "score")) as [->|]; [reflexivity|].
  simpl in Hk. rewrite !lookup_insert_ne in Hk by congruence.
  rewrite lookup_empty in Hk. discriminate.
Qed.

Lemma insert_appends_one_row_witness :
  (exists st1,
     insert sample_runtime jane (sample_state (Some "populated")) = (Ok tt, st1)
     /\ count sample_runtime QNone st1 = (Ok (VInt 4), st1))
  /\ (exists msg,
      insert sample_runtime (populated_row "d" "Jane" "2010-05-05" 400)
        (sample_state (Some "populated"))
      = (Raise (BackendError "StatementError" msg),
         resolved (sample_state (Some "populated")) "populated" populated)).
Proof.
  split.
  - destruct (proj1 (insert_appends_one_row sample_runtime jane
                       (sample_state (Some "populated")) "populated" populated
                       sample_bound sample_fits)
                    jane eq_refl eq_refl)
      as (st1 & Hins & _ & _ & _ & Hcount).
    exists st1. split; [exact Hins | exact Hcount].
  - eexists.
    apply (proj1 (proj2 (insert_appends_one_row sample_runtime
                           (populated_row "d" "Jane" "2010-05-05" 400)
                           (sample_state (Some "populated")) "populated"
                           populated sample_bound sample_fits_text))).
    reflexivity.
Defined.

Lemma filter_none {A} (f : A -> bool) (l : list A) :
  (forall x, x ∈ l -> f x = false) -> List.filter f l = [].
Proof.
  induction l as [|x l IH]; intros H; simpl; [reflexivity|].
  rewrite (H x) by apply list_elem_of_here.
  apply IH. intros y Hy. apply H, list_elem_of_further, Hy.
Qed.








Lemma filter_negb_filter {A} (f : A -> bool) (l : list A) :
  List.filter f (List.filter (fun x => negb (f x)) l) = [].
Proof.
  apply filter_none. intros x Hx.
  apply list_elem_of_In, filter_In in Hx as [_ Hx].
  destruct (f x); [discriminate | reflexivity].
Qed.

Lemma filter_partition_length {A} (f : A -> bool) (l : list A) :
  (length (List.filter f l) + length (List.filter (fun x => negb (f x)) l)
   = length l)%nat.
Proof.
  induction l as [|x l IH]; simpl; [reflexivity|].
  destruct (f x); simpl; lia.
Qed.

Lemma delete_bound (rt : Runtime) (qry : Query) (w : Expr) (st : State)
    (name : string) (rel : Relation) :
  is_mapping_or_expression qry = true ->
  query_expression qry = Ok w ->
  bound_to st name rel ->
  check_columns rel (expr_columns w) = Ok tt ->
  delete rt qry st
  = (Ok tt,
     with_relation (resolved st name rel) name
       (mkRelation (rel_columns rel)
          (List.filter (fun r => negb (matches w r)) (rel_rows rel)))).
Proof.
  intros Hf Hq Hb Hc.
  rewrite (delete_unfold rt qry w st Hf Hq), (object_get_bound st name rel Hb).
  erewrite (execute_write rt _ st name rel _ _ Hb); [reflexivity|].
  simpl. unfold lookup_relation. simpl.
  rewrite (proj1 (proj2 Hb)). simpl. rewrite Hc. reflexivity.
Qed.

(** X8. [delete] removes exactly the rows the filter admits and keeps
    the others in order: afterwards [count] of the same filter is 0, the
    number of rows has dropped by the number that matched, and other
    tables are untouched.  With the empty mapping every row is
    deleted. *)
Theorem delete_removes_matching_rows (rt : Runtime) (qry : Query) (w : Expr)
    (st : State) (name : string) (rel : Relation) :
  is_mapping_or_expression qry = true ->
  query_expression qry = Ok w ->
  bound_to st name rel ->
  check_columns rel (expr_columns w) = Ok tt ->
  exists st1,
    delete rt qry st = (Ok tt, st1)
    /\ database (world st1) !! name
       = Some (mkRelation (rel_columns rel)
                 (List.filter (fun r => negb (matches w r)) (rel_rows rel)))
    /\ (forall other, other <> name ->
        database (world st1) !! other = database (world st) !! other)
    /\ count rt qry st1 = (Ok (VInt 0), st1)
    /\ (exists n,
        count rt QNone st1 = (Ok (VInt (Z.of_nat n)), st1)
        /\ (length (List.filter (matches w) (rel_rows rel)) + n
            = length (rel_rows rel))%nat)
    /\ (qry = QDict [] ->
        database (world st1) !! name = Some (mkRelation (rel_columns rel) [])).
Proof.
  intros Hf Hq Hb Hc.
  set (rel' := mkRelation (rel_columns rel)
                 (List.filter (fun r => negb (matches w r)) (rel_rows rel))).
  destruct (bound_after_write st name rel rel' Hb eq_refl) as [Hb1 Hres].
  exists (with_relation (resolved st name rel) name rel').
  split; [apply (delete_bound rt qry w st name rel Hf Hq Hb Hc)|].
  split; [apply lookup_insert_eq|].
  split; [intros other Hne; apply lookup_insert_ne; congruence|].
  split; [|split].
  - rewrite (count_bound rt qry w _ name rel' Hq Hb1 Hc), Hres. simpl.
    rewrite filter_negb_filter. reflexivity.
  - eexists. split.
    + rewrite (count_bound rt QNone ETrue _ name rel' eq_refl Hb1 eq_refl), Hres.
      rewrite filter_matches_true. reflexivity.
    + apply filter_partition_length.
  - intros ->. injection Hq as <-. unfold with_relation, with_database. simpl.
    rewrite lookup_insert_eq. unfold rel'. do 2 f_equal.
    apply filter_none. intros r _. reflexivity.
Qed.

Lemma delete_removes_matching_rows_witness :
  exists st1,
    delete sample_runtime (QDict [("score", Oper (Between (VInt 100) (VInt 220)))])
      (sample_state (Some "populated")) = (Ok tt, st1)
    /\ count sample_runtime QNone st1 = (Ok (VInt 1), st1).
Proof.
  destruct (delete_removes_matching_rows sample_runtime
              (QDict [("score", Oper (Between (VInt 100) (VInt 220)))])
              (EAnd ETrue (EBetween (mkColumnRef None "score") (VInt 100) (VInt 220)))
              (sample_state (Some "populated")) "populated" populated
              eq_refl eq_refl sample_bound eq_refl)
    as (st1 & Hdel & _ & _ & _ & (n & Hcount & Hn) & _).
  exists st1. split; [exact Hdel|].
  assert (n = 1%nat) as -> by (vm_compute in Hn; lia).
  exact Hcount.
Defined.

Lemma lookup_map {A B} (f : A -> B) (l : list A) (i : nat) :
  map f l !! i = f <$> l !! i.
Proof.
  revert i. induction l as [|x l IH]; intros [|i]; simpl; try reflexivity.
  apply IH.
Qed.

Lemma run_update_bound (rt : Runtime) (values : gmap string Value) (w : Expr)
    (db : gmap string Relation) (name : string) (rel : Relation) :
  db !! name = Some rel ->
  fits (rel_columns rel) values ->
  values <> ∅ ->
  check_columns rel (expr_columns w) = Ok tt ->
  run_statement rt (Update (mkSqlTable name (rel_columns rel)) w values) db
  = (cells ← bind_values rt (rel_columns rel) values;
     check_rows (rel_columns rel) []
       (map (fun r => if matches w r then cells ∪ r else r) (rel_rows rel));;
     Ok (<[name := mkRelation (rel_columns rel)
                     (map (fun r => if matches w r then cells ∪ r else r)
                          (rel_rows rel))]> db,
         [])).
Proof.
  intros Hdb Hfits Hne Hc. simpl. unfold lookup_relation. simpl.
  rewrite Hdb. simpl.
  unfold check_consumed. simpl. rewrite (fits_keys _ _ Hfits). simpl.
  rewrite (bool_decide_eq_false_2 _ Hne). simpl.
  unfold check_columns in *. rewrite find_app_none.
  - rewrite Hc. reflexivity.
  - intros k Hk. apply list_elem_of_In, in_map_iff in Hk as ([k' v] & <- & Hkv).
    apply list_elem_of_In, elem_of_map_to_list in Hkv. simpl.
    rewrite (Hfits k'); [reflexivity | exists v; exact Hkv].
Qed.

Lemma update_bound (rt : Runtime) (qry : Query) (values cells : gmap string Value)
    (w : Expr) (st : State) (name : string) (rel : Relation) :
  is_mapping_or_expression qry = true ->
  query_expression qry = Ok w ->
  bound_to st name rel ->
  fits (rel_columns rel) values ->
  check_columns rel (expr_columns w) = Ok tt ->
  values <> ∅ ->
  bind_values rt (rel_columns rel) values = Ok cells ->
  check_rows (rel_columns rel) []
    (map (fun r => if matches w r then cells ∪ r else r) (rel_rows rel))
  = Ok tt ->
  update rt qry values st
  = (Ok tt,
     with_relation (resolved st name rel) name
       (mkRelation (rel_columns rel)
          (map (fun r => if matches w r then cells ∪ r else r) (rel_rows rel)))).
Proof.
  intros Hf Hq Hb Hfits Hc Hne Hbind Hcheck.
  rewrite (update_unfold rt qry values w st Hf Hq),
    (object_get_bound st name rel Hb).
  erewrite (execute_write rt _ st name rel _ _ Hb); [reflexivity|].
  rewrite (run_update_bound rt values w _ name rel (proj1 (proj2 Hb))
             Hfits Hne Hc).
  rewrite Hbind. simpl. rewrite Hcheck. reflexivity.
Qed.

(** X9. On an accessor bound to an existing table, for values whose
    keys are columns of the table and a filter on its columns: when
    some value is given, the backend binds every value and the rewritten
    rows meet NOT NULL and the primary key, [update] rewrites the rows
    the filter admits and no others: the number of rows is kept, a row
    the filter does not admit is left as it was, and a row it admits gets
    the bound cells in the given columns and keeps its other cells.
    With no value given, and when the backend refuses a value, [update]
    raises and the database is left as it was. *)
Theorem update_rewrites_matching_rows (rt : Runtime) (qry : Query)
    (values : gmap string Value) (w : Expr) (st : State) (name : string)
    (rel : Relation) :
  is_mapping_or_expression qry = true ->
  query_expression qry = Ok w ->
  bound_to st name rel ->
  fits (rel_columns rel) values ->
  check_columns rel (expr_columns w) = Ok tt ->
  (forall cells,
     values <> ∅ ->
     bind_values rt (rel_columns rel) values = Ok cells ->
     check_rows (rel_columns rel) []
       (map (fun r => if matches w r then cells ∪ r else r) (rel_rows rel))
     = Ok tt ->
     exists st1 rows,
       update rt qry values st = (Ok tt, st1)
       /\ database (world st1) !! name = Some (mkRelation (rel_columns rel) rows)
       /\ length rows = length (rel_rows rel)
       /\ count rt QNone st1
          = (Ok (VInt (Z.of_nat (length (rel_rows rel)))), st1)
       /\ (forall i r, rel_rows rel !! i = Some r ->
           exists r', rows !! i = Some r'
             /\ (matches w r = false -> r' = r)
             /\ (matches w r = true ->
                 forall k, r' !! k = match cells !! k with
                                     | Some x => Some x
                                     | None => r !! k
                                     end))
       /\ (forall k, values !! k = None -> cells !! k = None)
       /\ (forall k x, cells !! k = Some x ->
           exists c v, c ∈ rel_columns rel /\ col_name c = k
                       /\ values !! k = Some v
                       /\ bind_param rt (col_type c) v = Ok x))
  /\ (values = ∅ ->
      exists e, update rt qry values st = (Raise e, resolved st name rel))
  /\ (forall e,
      values <> ∅ ->
      bind_values rt (rel_columns rel) values = Raise e ->
      update rt qry values st = (Raise e, resolved st name rel)).
Proof.
  intros Hf Hq Hb Hfits Hc. split; [|split].
  - intros cells Hne Hbind Hcheck.
    set (rows := map (fun r => if matches w r then cells ∪ r else r)
                     (rel_rows rel)).
    set (rel' := mkRelation (rel_columns rel) rows).
    destruct (bound_after_write st name rel rel' Hb eq_refl) as [Hb1 Hres].
    exists (with_relation (resolved st name rel) name rel'), rows.
    split; [apply (update_bound rt qry values cells w st name rel
                     Hf Hq Hb Hfits Hc Hne Hbind Hcheck)|].
    split; [apply lookup_insert_eq|].
    split; [apply length_map|].
    split; [|split; [|apply (bind_values_given rt _ _ _ Hbind)]].
    + rewrite (count_bound rt QNone ETrue _ name rel' eq_refl Hb1 eq_refl), Hres.
      rewrite filter_matches_true. simpl. unfold rows. rewrite length_map.
      reflexivity.
    + intros i r Hi. exists (if matches w r then cells ∪ r else r).
      split; [|split].
      * unfold rows. rewrite lookup_map, Hi. reflexivity.
      * intros ->. reflexivity.
      * intros -> k. rewrite lookup_union.
        destruct (cells !! k), (r !! k); reflexivity.
  - intros ->. exists (BackendError "OperationalError" "near WHERE: syntax error").
    rewrite (update_unfold rt qry ∅ w st Hf Hq),
      (object_get_bound st name rel Hb).
    rewrite (execute_refused rt _ st name rel
               (BackendError "OperationalError" "near WHERE: syntax error") Hb);
      [reflexivity|].
    simpl. unfold lookup_relation. simpl. rewrite (proj1 (proj2 Hb)).
    reflexivity.
  - intros e Hne Hbind.
    rewrite (update_unfold rt qry values w st Hf Hq),
      (object_get_bound st name rel Hb).
    rewrite (execute_refused rt _ st name rel e Hb); [reflexivity|].
    rewrite (run_update_bound rt values w _ name rel (proj1 (proj2 Hb))
               Hfits Hne Hc).
    rewrite Hbind. reflexivity.
Qed.

Lemma sample_fits_score : fits populated_columns {[ "score" := VInt 0 ]}.
Proof.
  intros k [v Hk].
  destruct (decide (k = "score")) as [->|Hne]; [reflexivity|].
  rewrite lookup_singleton_ne in Hk by congruence. discriminate.
Qed.

Lemma update_rewrites_matching_rows_witness :
  exists st1 rows,
    update sample_runtime (QDict [("name", Plain (VStr "John"))])
      {[ "score" := VInt 0 ]} (sample_state (Some "populated")) = (Ok tt, st1)
    /\ database (world st1) !! "populated" = Some (mkRelation populated_columns rows)
    /\ length rows = 3%nat
    /\ (rows !! 1%nat ≫= (.!! "score")) = Some (VInt 0).
Proof.
  destruct (proj1 (update_rewrites_matching_rows sample_runtime
              (QDict [("name", Plain (VStr "John"))]) {[ "score" := VInt 0 ]}
              (EAnd ETrue (ECompare "__eq__" (mkColumnRef None "name") (VStr "John")))
              (sample_state (Some "populated")) "populated" populated
              eq_refl eq_refl sample_bound sample_fits_score eq_refl)
            {[ "score" := VInt 0 ]})
    as (st1 & rows & Hupd & Hdb & Hlen & _ & Hrows & _).
  - intros H. apply (f_equal (fun m => m !! "score")) in H. discriminate H.
  - reflexivity.
  - reflexivity.
  - exists st1, rows. split; [exact Hupd|]. split; [exact Hdb|].
    split; [exact Hlen|].
    destruct (Hrows 1%nat _ eq_refl) as (r' & -> & _ & Hr').
    simpl. rewrite (Hr' eq_refl "score"). reflexivity.
Defined.

(** ** Reading rows: errors and laziness *)

Lemma column_getitem_resolved (st : State) (o : SqlTable) (col : string) :
  _object (self st) = Some o ->
  column_getitem col st =
  match List.find (fun c => String.eqb (col_name c) col) (tbl_columns o) with
  | Some c => (Ok c, st)
  | None => (Raise (KeyError col), st)
  end.
Proof.
  intros Ho. unfold column_getitem. unfold mbind, M_bind.
  rewrite object_get_unfold, Ho.
  destruct (List.find _ (tbl_columns o)); reflexivity.
Qed.

Lemma find_column_known (cols : list Column) (col : string) :
  has_column cols col = true ->
  exists c, List.find (fun c => String.eqb (col_name c) col) cols = Some c.
Proof.
  unfold has_column. induction cols as [|c cols IH]; simpl; [discriminate|].
  destruct (String.eqb (col_name c) col); simpl; [eauto | exact IH].
Qed.

Lemma find_column_unknown (cols : list Column) (col : string) :
  has_column cols col = false ->
  List.find (fun c => String.eqb (col_name c) col) cols = None.
Proof.
  unfold has_column. induction cols as [|c cols IH]; simpl; [reflexivity|].
  destruct (String.eqb (col_name c) col); simpl; [discriminate | exact IH].
Qed.

Lemma mapM_column_getitem_unknown (st : State) (o : SqlTable)
    (before after : list string) (col : string) :
  _object (self st) = Some o ->
  Forall (fun n => has_column (tbl_columns o) n = true) before ->
  has_column (tbl_columns o) col = false ->
  mapM column_getitem (before ++ col :: after) st = (Raise (KeyError col), st).
Proof.
  intros Ho Hbefore Hcol.
  induction Hbefore as [|n before Hn _ IH]; simpl; unfold mbind, M_bind.
  - rewrite (column_getitem_resolved st o col Ho),
      (find_column_unknown _ _ Hcol). reflexivity.
  - rewrite (column_getitem_resolved st o n Ho).
    destruct (find_column_known _ _ Hn) as [c ->].
    unfold mbind, M_bind in IH. simpl in IH. rewrite IH. reflexivity.
Qed.

(** X10. A name in [columns] that is not a column of the table makes
    [select] raise [KeyError] with that name (the first such name),
    after the schema was resolved and before any statement is executed:
    the database is left as it was. *)
Theorem select_unknown_column (rt : Runtime) (qry : Query) (w : Expr)
    (before after : list string) (col : string) (st : State)
    (name : string) (rel : Relation) :
  query_expression qry = Ok w ->
  bound_to st name rel ->
  Forall (fun n => has_column (rel_columns rel) n = true) before ->
  has_column (rel_columns rel) col = false ->
  select rt qry (Some (before ++ col :: after)) st
  = (Raise (KeyError col), resolved st name rel).
Proof.
  intros Hq Hb Hbefore Hcol.
  assert (Hget : forall c,
    column_getitem c st =
    match List.find (fun x => String.eqb (col_name x) c) (rel_columns rel) with
    | Some x => (Ok x, resolved st name rel)
    | None => (Raise (KeyError c), resolved st name rel)
    end).
  { intros c. unfold column_getitem. unfold mbind, M_bind.
    rewrite (object_get_bound st name rel Hb). simpl.
    destruct (List.find _ (rel_columns rel)); reflexivity. }
  assert (Hmap : mapM column_getitem (before ++ col :: after) st
                 = (Raise (KeyError col), resolved st name rel)).
  { destruct Hbefore as [|n before Hn Hrest].
    - change (mapM column_getitem ([] ++ col :: after))
        with (y ← column_getitem col;
              ys ← mapM column_getitem after; mret (y :: ys)).
      unfold mbind at 1, M_bind at 1.
      rewrite Hget, (find_column_unknown _ _ Hcol). reflexivity.
    - change (mapM column_getitem ((n :: before) ++ col :: after))
        with (y ← column_getitem n;
              ys ← mapM column_getitem (before ++ col :: after);
              mret (y :: ys)).
      unfold mbind at 1, M_bind at 1.
      rewrite Hget. destruct (find_column_known _ _ Hn) as [c ->].
      unfold mbind at 1, M_bind at 1.
      rewrite (mapM_column_getitem_unknown (resolved st name rel)
                 (mkSqlTable name (rel_columns rel)) before after col
                 eq_refl Hrest Hcol).
      reflexivity. }
  unfold select, select_statement.
  destruct qry as [|p|sql|d|e]; simpl in Hq; try discriminate;
    unfold_monad; simpl; rewrite ?Hq; simpl; rewrite Hmap; reflexivity.
Qed.

Lemma select_unknown_column_witness :
  select sample_runtime QNone (Some ["name"; "age"; "score"])
    (sample_state (Some "populated"))
  = (Raise (KeyError "age"),
     resolved (sample_state (Some "populated")) "populated" populated).
Proof.
  apply (select_unknown_column sample_runtime QNone ETrue ["name"] ["score"]
           "age" (sample_state (Some "populated")) "populated" populated
           eq_refl sample_bound).
  - repeat constructor.
  - reflexivity.
Defined.

Lemma format_row_app (rt : Runtime) (a b : list Column)
    (acc : gmap string Value) (row : BackendRow) :
  format_row rt acc (a ++ b) row
  = (acc' ← format_row rt acc a row; format_row rt acc' b row).
Proof.
  revert acc. induction a as [|c a IH]; intros acc; simpl; [reflexivity|].
  destruct (row_getitem row (col_name c)) as [cell|]; simpl; [|reflexivity].
  destruct (to_native rt cell (col_type c) (col_nullable c)) as [v|]; simpl;
    [apply IH | reflexivity].
Qed.

Lemma format_rows_app (rt : Runtime) (columns : list Column)
    (a b : list BackendRow) :
  format_rows rt columns (a ++ b)
  = (da ← format_rows rt columns a;
     db ← format_rows rt columns b;
     Ok (da ++ db)).
Proof.
  induction a as [|row a IH]; simpl.
  - destruct (format_rows rt columns b); reflexivity.
  - destruct (format_row rt ∅ columns row) as [d|]; simpl; [|reflexivity].
    rewrite IH.
    destruct (format_rows rt columns a) as [da|]; simpl; [|reflexivity].
    destruct (format_rows rt columns b) as [db|]; reflexivity.
Qed.

(** X11. Formatting asks every row for every column of the table: a
    row without the cell of some column raises [KeyError] with the first
    such column's name, a cell that does not convert raises what
    [to_native] raises, and one failing row makes the whole list fail,
    whatever rows came before or come after it. *)
Theorem format_results_first_failure (rt : Runtime) (columns : list Column)
    (rows_before rows_after : list BackendRow) (row : BackendRow) :
  (forall before c after acc,
     columns = before ++ c :: after ->
     format_row rt ∅ before row = Ok acc ->
     (row_getitem row (col_name c) = Raise (KeyError (col_name c)) ->
      format_row rt ∅ columns row = Raise (KeyError (col_name c)))
     /\ (forall cell e,
         row_getitem row (col_name c) = Ok cell ->
         to_native rt cell (col_type c) (col_nullable c) = Raise e ->
         format_row rt ∅ columns row = Raise e))
  /\ (forall e,
      Forall (fun r => is_ok (format_row rt ∅ columns r) = true) rows_before ->
      format_row rt ∅ columns row = Raise e ->
      format_rows rt columns (rows_before ++ row :: rows_after) = Raise e)
  /\ (forall name,
      List.find (fun kv => String.eqb (fst kv) name) row = None ->
      row_getitem row name = Raise (KeyError name)).
Proof.
  split; [|split].
  - intros before c after acc -> Hbefore. split.
    + intros Hcell. rewrite format_row_app, Hbefore. simpl.
      rewrite Hcell. reflexivity.
    + intros cell e Hcell Hconv. rewrite format_row_app, Hbefore. simpl.
      rewrite Hcell. simpl. rewrite Hconv. reflexivity.
  - intros e Hbefore Hrow. rewrite format_rows_app.
    assert (Hok : exists ds, format_rows rt columns rows_before = Ok ds).
    { induction Hbefore as [|r rs Hr _ IH]; simpl; [eauto|].
      destruct (format_row rt ∅ columns r); [|discriminate]. simpl.
      destruct IH as [ds ->]. simpl. eauto. }
    destruct Hok as [ds ->]. simpl. rewrite Hrow. reflexivity.
  - intros name Hfind. unfold row_getitem. rewrite Hfind. reflexivity.
Qed.

Lemma format_results_first_failure_witness :
  format_rows sample_runtime populated_columns
    ([[("id", VStr "a"); ("name", VStr "Jack");
       ("birth_date", VStr "2000-01-01"); ("score", VInt 100)]]
     ++ [("id", VStr "b"); ("name", VStr "John")] :: [])
  = Raise (KeyError "birth_date").
Proof.
  apply (proj1 (proj2 (format_results_first_failure sample_runtime
           populated_columns
           [[("id", VStr "a"); ("name", VStr "Jack");
             ("birth_date", VStr "2000-01-01"); ("score", VInt 100)]]
           [] [("id", VStr "b"); ("name", VStr "John")]))).
  - repeat constructor.
  - reflexivity.
Defined.

(** X12. Raw SQL on a named accessor: [select] executes the text (a
    [Path] is read first, and a failing read raises before anything is
    executed) and returns a generator without resolving the schema; the
    schema is reflected only when the generator is iterated, so a table
    that does not exist is reported then, after [select] has returned;
    when it exists, the rows are formatted with its column types. *)
Theorem raw_select_reflects_on_iteration (rt : Runtime) (sql : string)
    (columns : option (list string)) (st : State) (n : string) :
  _object (self st) = None ->
  _name (self st) = Some n ->
  (engine (self st) = AnEngine \/ exists c, engine (self st) = AConnection c) ->
  select rt (QStr sql) columns st
    = match execute_text rt sql (database (world st)) with
      | Ok (db, rows) => (Ok (Generator rows), with_database st db)
      | Raise e => (Raise e, st)
      end
  /\ (forall db rows,
      db !! n = None ->
      list_ rt (Generator rows) (with_database st db)
      = (Raise (BackendError "NoSuchTableError" n), with_database st db))
  /\ (forall db rows rel,
      db !! n = Some rel ->
      list_ rt (Generator rows) (with_database st db)
      = (map DictRow <$> format_rows rt (rel_columns rel) rows,
         resolved (with_database st db) n rel))
  /\ (forall p,
      select rt (QPath p) columns st
      = match read_text rt p with
        | Ok text => select rt (QStr text) columns st
        | Raise e => (Raise e, st)
        end).
Proof.
  intros Ho Hn He. split; [|split; [|split]].
  - unfold select, select_statement.
    unfold mbind at 1 2 3 4 5, M_bind at 1 2 3 4 5. unfold_monad.
    cbn [fst snd]. rewrite execute_unfold.
    destruct st as [[e nm o c] w]. simpl in *. subst.
    destruct He as [-> | [c' ->]];
      destruct (execute_text rt sql (database w)) as [[db rows]|]; reflexivity.
  - intros db rows Hdb. unfold list_, _format_results, _get_types.
    unfold mbind at 1 2 3, M_bind at 1 2 3.
    rewrite object_get_unfold. simpl. rewrite Ho, Hn, Hdb. reflexivity.
  - intros db rows rel Hdb. unfold list_, _format_results, _get_types.
    unfold mbind at 1 2 3, M_bind at 1 2 3.
    rewrite object_get_unfold. simpl. rewrite Ho, Hn, Hdb.
    unfold_monad. simpl.
    destruct (format_rows rt (rel_columns rel) rows); reflexivity.
  - intros p. unfold select, select_statement.
    unfold mbind at 1 2 3 4 5 6, M_bind at 1 2 3 4 5 6. unfold_monad.
    destruct (read_text rt p); reflexivity.
Qed.

Lemma raw_select_reflects_on_iteration_witness :
  select sample_runtime (QStr "SELECT * FROM populated") None
    (sample_state (Some "missing"))
  = (Ok (Generator (all_rows populated (fun _ => true))),
     sample_state (Some "missing"))
  /\ list_ sample_runtime (Generator (all_rows populated (fun _ => true)))
       (sample_state (Some "missing"))
     = (Raise (BackendError "NoSuchTableError" "missing"),
        sample_state (Some "missing")).
Proof.
  destruct (raw_select_reflects_on_iteration sample_runtime
              "SELECT * FROM populated" None (sample_state (Some "missing"))
              "missing" eq_refl eq_refl (or_introl eq_refl))
    as (Hsel & Hmissing & _).
  split.
  - rewrite Hsel. reflexivity.
  - apply (Hmissing {[ "populated" := populated ]}). reflexivity.
Defined.

(** X13. Which error comes first: [select], [delete] and [update]
    translate a mapping before they resolve the schema, [count] resolves
    the schema first.  For a mapping that does not translate, on an
    accessor whose table cannot be reflected, the first three raise the
    translator's error and [count] raises the reflection's. *)
Theorem filter_error_or_table_error (rt : Runtime) (d : FilterMapping)
    (values : gmap string Value) (st : State) (e e' : Exception) :
  to_sql_expressions d None = Raise e ->
  object_get st = (Raise e', st) ->
  select rt (QDict d) None st = (Raise e, st)
  /\ delete rt (QDict d) st = (Raise e, st)
  /\ update rt (QDict d) values st = (Raise e, st)
  /\ count rt (QDict d) st = (Raise e', st).
Proof.
  intros Hd Hobj.
  destruct (statement_of_failed_mapping rt d e values st Hd) as (Hs & Hdel & Hu).
  repeat split.
  - unfold select. unfold mbind at 1, M_bind at 1. rewrite Hs. reflexivity.
  - unfold delete. unfold mbind at 1, M_bind at 1. rewrite Hdel. reflexivity.
  - unfold update. unfold mbind at 1, M_bind at 1. rewrite Hu. reflexivity.
  - assert (Hstmt : count_statement (QDict d) st = (Raise e', st)).
    { unfold count_statement. unfold mbind at 1, M_bind at 1.
      rewrite Hobj. reflexivity. }
    unfold count. unfold mbind at 1, M_bind at 1. rewrite Hstmt. reflexivity.
Qed.

Lemma filter_error_or_table_error_witness :
  select sample_runtime
    (QDict [("name", Oper (Generic "<redbird.oper.Like>" None (VStr "J%")))])
    None (sample_state (Some "missing"))
  = (Raise (NotImplementedError "Not implemented operator: <redbird.oper.Like>"),
     sample_state (Some "missing"))
  /\ count sample_runtime
       (QDict [("name", Oper (Generic "<redbird.oper.Like>" None (VStr "J%")))])
       (sample_state (Some "missing"))
     = (Raise (BackendError "NoSuchTableError" "missing"),
        sample_state (Some "missing")).
Proof.
  destruct (filter_error_or_table_error sample_runtime
              [("name", Oper (Generic "<redbird.oper.Like>" None (VStr "J%")))]
              ∅ (sample_state (Some "missing")) _ _ eq_refl eq_refl)
    as (Hs & _ & _ & Hc).
  split; [exact Hs | exact Hc].
Defined.

(** ** Creating the table *)

Lemma create_unfold (rt : Runtime) (columns : CreateArg) (st : State) :
  create rt columns st =
  match create_columns columns with
  | Raise e => (Raise e, st)
  | Ok cols =>
      match name_of (self st) with
      | None => (Raise (BackendError "ArgumentError" "None"), st)
      | Some n =>
          match execute rt (inr (CreateTable (mkSqlTable n cols))) st with
          | (Ok _, st2) => (Ok tt, with_object st2 (mkSqlTable n cols))
          | (Raise e, st2) => (Raise e, st2)
          end
      end
  end.
Proof.
  unfold create. unfold mbind at 1, M_bind at 1.
  change (lift match columns with
               | ColumnsMapping m =>
                   mapR (fun kv => ty ← _to_sqlalchemy_type (snd kv);
                                   Ok (new_column (fst kv) ty None None)) m
               | ColumnsList l => mapR column_of_spec l
               end st)
    with (create_columns columns, st).
  destruct (create_columns columns) as [cols|e]; [|reflexivity].
  unfold mbind at 1, M_bind at 1.
  change (name_get st) with (Ok (name_of (self st)), st).
  destruct (name_of (self st)) as [n|]; [|reflexivity].
  unfold mbind at 1, M_bind at 1.
  destruct (execute rt (inr (CreateTable (mkSqlTable n cols))) st)
    as [[rows|e] st2]; reflexivity.
Qed.

Lemma run_create_table (rt : Runtime) (n : string) (cols : list Column)
    (db : gmap string Relation) :
  cols <> [] ->
  Forall (fun c => col_type c <> NullType) cols ->
  run_statement rt (CreateTable (mkSqlTable n cols)) db
  = match db !! n with
    | Some _ =>
        Raise (BackendError "OperationalError"
                 ("table " +:+ n +:+ " already exists"))
    | None => Ok (<[n := mkRelation cols []]> db, [])
    end.
Proof.
  intros Hne H. simpl. rewrite find_all_false.
  - destruct cols; [congruence | reflexivity].
  - intros c Hc. rewrite Forall_forall in H.
    apply bool_decide_eq_false_2, H, Hc.
Qed.

(** X14. [create] followed by [reflect], for columns that [create]
    builds itself (names, dicts or a mapping of types).  On an accessor
    named [n] whose table does not exist, when there is a column, the
    names are distinct and every column got a type, [create] succeeds:
    a table [n] with the declared column names and no rows exists, and
    its handle is cached; [reflect] then finds a table of that name with
    those column names, the table counts 0 rows, and creating it a
    second time fails because it exists.  When some column got no type
    ([NullType]), [create] raises and neither the accessor nor the
    database changes. *)
Theorem create_then_reflect (rt : Runtime) (columns : CreateArg)
    (cols : list Column) (st : State) (n : string) :
  builds_columns columns = true ->
  create_columns columns = Ok cols ->
  name_of (self st) = Some n ->
  (engine (self st) = AnEngine \/ exists c, engine (self st) = AConnection c) ->
  (cols <> [] ->
   NoDup (map col_name cols) ->
   Forall (fun c => col_type c <> NullType) cols ->
   database (world st) !! n = None ->
   exists st1,
     create rt columns st = (Ok tt, st1)
     /\ _object (self st1) = Some (mkSqlTable n cols)
     /\ (exists rel,
         database (world st1) !! n = Some rel
         /\ rel_rows rel = []
         /\ map col_name (rel_columns rel) = map col_name cols)
     /\ (forall other, other <> n ->
         database (world st1) !! other = database (world st) !! other)
     /\ (exists st2 o,
         reflect st1 = (Ok tt, st2)
         /\ _object (self st2) = Some o
         /\ tbl_name o = n
         /\ map col_name (tbl_columns o) = map col_name cols
         /\ world st2 = world st1)
     /\ count rt QNone st1 = (Ok (VInt 0), st1)
     /\ (exists msg,
         create rt columns st1
         = (Raise (BackendError "OperationalError" msg), st1)))
  /\ (Exists (fun c => col_type c = NullType) cols ->
      exists e, create rt columns st = (Raise e, st)).
Proof.
  intros _ Hcols Hname He. split.
  - intros Hne _ Hty Hdb.
    set (st1 := with_object
                  (with_database st
                     (<[n := mkRelation cols []]> (database (world st))))
                  (mkSqlTable n cols)).
    assert (Hcreate : create rt columns st = (Ok tt, st1)).
    { rewrite create_unfold, Hcols, Hname, execute_unfold.
      rewrite (run_create_table rt n cols _ Hne Hty), Hdb.
      destruct He as [-> | [c ->]]; reflexivity. }
    assert (Hb : bound_to st1 n (mkRelation cols [])).
    { split; [exact He|]. split; [apply lookup_insert_eq|]. right. reflexivity. }
    exists st1. split; [exact Hcreate|]. split; [reflexivity|].
    split; [|split; [|split; [|split]]].
    + exists (mkRelation cols []). split; [apply lookup_insert_eq|].
      split; reflexivity.
    + intros other Hother. apply lookup_insert_ne. congruence.
    + exists st1, (mkSqlTable n cols). split; [|repeat split].
      unfold reflect, reflect_table, name_get. unfold_monad. simpl.
      rewrite lookup_insert_eq. reflexivity.
    + rewrite (count_bound rt QNone ETrue st1 n _ eq_refl Hb eq_refl).
      unfold resolved. rewrite with_object_cached by reflexivity. reflexivity.
    + eexists. rewrite create_unfold, Hcols. simpl. rewrite execute_unfold.
      rewrite (run_create_table rt n cols _ Hne Hty).
      simpl. rewrite lookup_insert_eq.
      destruct He as [-> | [c ->]]; reflexivity.
  - intros Hnull. rewrite create_unfold, Hcols, Hname, execute_unfold.
    assert (Hrun : exists e,
      run_statement rt (CreateTable (mkSqlTable n cols)) (database (world st))
      = Raise e).
    { simpl. apply Exists_exists in Hnull as (c & Hin & Hc).
      destruct (List.find (fun c => bool_decide (col_type c = NullType)) cols)
        as [c'|] eqn:Hfind; [eauto|].
      apply list_elem_of_In in Hin. apply (find_none _ _ Hfind) in Hin.
      rewrite bool_decide_eq_true_2 in Hin by exact Hc. discriminate. }
    destruct Hrun as [e ->].
    destruct He as [-> | [c ->]]; eexists; reflexivity.
Qed.

Lemma create_then_reflect_witness :
  (exists st1,
     create sample_runtime
       (ColumnsMapping [("id", AnnClass py_str);
                        ("born", AnnUnion "Optional[date]"
                                   [AnnClass py_date; AnnClass py_NoneType])])
       (sample_state (Some "people")) = (Ok tt, st1)
     /\ _object (self st1)
        = Some (mkSqlTable "people" [mkColumn "id" String_ true false;
                                     mkColumn "born" Date_ true false])
     /\ count sample_runtime QNone st1 = (Ok (VInt 0), st1))
  /\ (exists e,
      create sample_runtime (ColumnsMapping [("id", AnnClass py_NoneType)])
        (sample_state (Some "people"))
      = (Raise e, sample_state (Some "people"))).
Proof.
  split.
  - destruct (proj1 (create_then_reflect sample_runtime
                (ColumnsMapping [("id", AnnClass py_str);
                                 ("born", AnnUnion "Optional[date]"
                                            [AnnClass py_date; AnnClass py_NoneType])])
                [mkColumn "id" String_ true false; mkColumn "born" Date_ true false]
                (sample_state (Some "people")) "people"
                eq_refl eq_refl eq_refl (or_introl eq_refl)))
      as (st1 & Hc & Ho & _ & _ & _ & Hcount & _).
    + discriminate.
    + apply NoDup_cons. split; [|apply NoDup_singleton].
      intros H. apply list_elem_of_singleton in H. discriminate H.
    + repeat constructor; discriminate.
    + reflexivity.
    + exists st1. split; [exact Hc|]. split; [exact Ho | exact Hcount].
  - apply (proj2 (create_then_reflect sample_runtime
                    (ColumnsMapping [("id", AnnClass py_NoneType)])
                    [mkColumn "id" NullType true false]
                    (sample_state (Some "people")) "people"
                    eq_refl eq_refl eq_refl (or_introl eq_refl))).
    constructor. reflexivity.
Defined.

(** X15. [create] is all or nothing: when it raises (a type that is
    refused, a column dict without ['type_'], no table name, a table
    that already exists) neither the accessor nor the database has
    changed; when it returns, the cached handle is the table just
    created, named as the accessor was. *)
Theorem create_is_all_or_nothing (rt : Runtime) (columns : CreateArg)
    (st st' : State) :
  (forall e, create rt columns st = (Raise e, st') -> st' = st)
  /\ (create rt columns st = (Ok tt, st') ->
      exists n cols,
        name_of (self st) = Some n
        /\ create_columns columns = Ok cols
        /\ _object (self st') = Some (mkSqlTable n cols)
        /\ name_of (self st') = Some n)
  /\ (forall n rel cols,
      name_of (self st) = Some n ->
      create_columns columns = Ok cols ->
      database (world st) !! n = Some rel ->
      exists e, create rt columns st = (Raise e, st))
  /\ (forall d rest,
      cd_type_ d = None ->
      create rt (ColumnsList (SpecDict d :: rest)) st
      = (Raise (KeyError "type_"), st)).
Proof.
  split; [|split; [|split]].
  - intros e. rewrite create_unfold.
    destruct (create_columns columns) as [cols|e0];
      [|intros [= _ <-]; reflexivity].
    destruct (name_of (self st)) as [n|]; [|intros [= _ <-]; reflexivity].
    rewrite execute_unfold.
    destruct (engine (self st));
      try (intros [= _ <-]; reflexivity);
      (destruct (run_statement rt (CreateTable (mkSqlTable n cols))
                   (database (world st))) as [[db rows]|];
       [discriminate | intros [= _ <-]; reflexivity]).
  - rewrite create_unfold.
    destruct (create_columns columns) as [cols|e0]; [|discriminate].
    destruct (name_of (self st)) as [n|]; [|discriminate].
    destruct (execute rt (inr (CreateTable (mkSqlTable n cols))) st)
      as [[rows|e] st2]; [|discriminate].
    intros [= <-]. exists n, cols. repeat split.
  - intros n rel cols Hn Hcols Hdb.
    rewrite create_unfold, Hcols, Hn, execute_unfold. simpl. rewrite Hdb.
    destruct (List.find _ cols); [|destruct cols];
      destruct (engine (self st)); eexists; reflexivity.
  - intros d rest Hd. rewrite create_unfold. simpl. rewrite Hd. reflexivity.
Qed.

Lemma create_is_all_or_nothing_witness :
  exists e,
    create sample_runtime (ColumnsList [SpecName "id"])
      (sample_state (Some "populated"))
    = (Raise e, sample_state (Some "populated")).
Proof.
  exact (proj1 (proj2 (proj2 (create_is_all_or_nothing sample_runtime
           (ColumnsList [SpecName "id"]) (sample_state (Some "populated"))
           (sample_state (Some "populated")))))
         "populated" populated [new_column "id" (Some String_) None None]
         eq_refl eq_refl eq_refl).
Defined.

(** ** Transactions *)

Lemma preserves_bind {A B X} (f : State -> X) (m : M A) (k : A -> M B) :
  preserves f m -> (forall x, preserves f (k x)) -> preserves f (m ≫= k).
Proof.
  intros Hm Hk st. unfold mbind, M_bind. pose proof (Hm st) as H1.
  destruct (m st) as [[a|e] st1]; simpl in *; [|exact H1].
  rewrite (Hk a st1). exact H1.
Qed.

Lemma preserves_fmap {A B X} (f : State -> X) (g : A -> B) (m : M A) :
  preserves f m -> preserves f (g <$> m).
Proof.
  intros Hm st. unfold fmap, M_fmap. pose proof (Hm st) as H1.
  destruct (m st) as [[a|e] st1]; exact H1.
Qed.

Lemma preserves_execute (rt : Runtime) (arg : string + Statement) :
  preserves transaction_state (execute rt arg).
Proof.
  intros [[e n o c] w]. unfold execute, connection_get. unfold_monad. simpl.
  destruct e; try reflexivity; cbn [database world];
    match goal with
    | |- context [run_statement ?r ?s ?d] =>
        destruct (run_statement r s d) as [[db rows]|]; reflexivity
    end.
Qed.

Lemma preserves_object_get : preserves transaction_state object_get.
Proof.
  intros st. rewrite object_get_unfold.
  destruct (_object (self st)); [reflexivity|].
  destruct (_name (self st)) as [n|]; [|reflexivity].
  destruct (database (world st) !! n); reflexivity.
Qed.

Lemma preserves_reflect : preserves transaction_state reflect.
Proof.
  intros [[e n o c] w]. unfold reflect, reflect_table, name_get.
  unfold_monad. simpl.
  destruct o as [o|]; simpl.
  - destruct (database w !! tbl_name o); reflexivity.
  - destruct n as [n|]; [|reflexivity].
    destruct (database w !! n); reflexivity.
Qed.

Lemma preserves_create (rt : Runtime) (columns : CreateArg) :
  preserves transaction_state (create rt columns).
Proof.
  intros st. rewrite create_unfold.
  destruct (create_columns columns) as [cols|]; [|reflexivity].
  destruct (name_of (self st)) as [n|]; [|reflexivity].
  pose proof (preserves_execute rt (inr (CreateTable (mkSqlTable n cols))) st)
    as H.
  destruct (execute rt (inr (CreateTable (mkSqlTable n cols))) st)
    as [[rows|e] st2]; exact H.
Qed.

(** Walks a method body, as [respects_steps] does. *)
Ltac preserves_steps :=
  repeat first
    [ solve [ eauto 2 using preserves_execute, preserves_object_get ]
    | solve [ intros [[? ? ? ?] [? ?]]; reflexivity ]
    | progress intros
    | match goal with
      | |- preserves _ (match ?x with _ => _ end) => destruct x
      | |- preserves _ (_ ≫= _) => apply preserves_bind
      | |- preserves _ (_ <$> _) => apply preserves_fmap
      end ].

Lemma preserves_mapM {A B X} (f : State -> X) (g : A -> M B) (l : list A) :
  (forall x, preserves f (g x)) -> preserves f (mapM g l).
Proof.
  intros Hg. induction l as [|x l IH]; simpl.
  - intros st. reflexivity.
  - apply preserves_bind; [apply Hg|]. intros y.
    apply preserves_bind; [exact IH|]. intros ys st. reflexivity.
Qed.

Lemma preserves_column_getitem (col : string) :
  preserves transaction_state (column_getitem col).
Proof. unfold column_getitem. preserves_steps. Qed.

Lemma preserves_select_list (rt : Runtime) (qry : Query)
    (columns : option (list string)) :
  preserves transaction_state (select_list rt qry columns).
Proof.
  unfold select_list, select, select_statement, list_, _format_results,
    _get_types.
  pose proof (fun l => preserves_mapM transaction_state column_getitem l
                         preserves_column_getitem).
  preserves_steps.
Qed.

Lemma run_call_transaction_state (rt : Runtime) (c : Call) :
  is_transaction_call c = false ->
  preserves transaction_state (run_call rt c).
Proof.
  destruct c; simpl; try discriminate; intros _; unfold discard.
  - preserves_steps.
  - preserves_steps.
  - preserves_steps.
  - preserves_steps.
  - preserves_steps.
  - apply preserves_reflect.
  - apply preserves_create.
  - pose proof (preserves_select_list rt qry columns). preserves_steps.
  - unfold insert. preserves_steps.
  - unfold delete, delete_statement. preserves_steps.
  - unfold update, update_statement. preserves_steps.
  - unfold count, count_statement. preserves_steps.
  - preserves_steps.
Qed.

(** X16. Reading and writing through the accessor never begins, ends
    or switches a transaction: after any call other than the transaction
    calls and the assignment of [connection], the handle is the same,
    every connection has the transaction (and the snapshot) it had, and
    so a transaction is open afterwards exactly when it was before. *)
Theorem statements_leave_transactions_alone (rt : Runtime) (c : Call)
    (st : State) :
  is_transaction_call c = false ->
  engine (self (snd (run_call rt c st))) = engine (self st)
  /\ connections (world (snd (run_call rt c st))) = connections (world st)
  /\ transaction_open (snd (run_call rt c st)) = transaction_open st.
Proof.
  intros Hc. pose proof (run_call_transaction_state rt c Hc st) as H.
  unfold transaction_state in H. injection H as He Hconn.
  unfold transaction_open. rewrite He, Hconn. repeat split; assumption.
Qed.

Lemma statements_leave_transactions_alone_witness :
  transaction_open
    (snd (run_call sample_runtime
            (CallDelete (QDict [("name", Plain (VStr "John"))]))
            (sample_state (Some "populated"))))
  = false.
Proof.
  exact (eq_trans
    (proj2 (proj2 (statements_leave_transactions_alone sample_runtime
       (CallDelete (QDict [("name", Plain (VStr "John"))]))
       (sample_state (Some "populated")) eq_refl)))
    eq_refl).
Defined.

(** X17. [open_transaction] (and [with table as t:]) on an accessor
    bound to an engine returns a copy of the accessor with the same name
    and the same cached schema handle, bound to a connection that is new
    and has a transaction in progress whose snapshot is the database as
    it is; the accessor itself stays on the engine and remembers the
    context, and the database is untouched. *)
Theorem open_transaction_clones (st : State) :
  engine (self st) = AnEngine ->
  exists st1,
    open_transaction st
      = (Ok (self (in_transaction st (length (connections (world st))))), st1)
    /\ self st1 = mkTable AnEngine (_name (self st)) (_object (self st))
                    (Some (Some (length (connections (world st)))))
    /\ database (world st1) = database (world st)
    /\ connections (world st1)
       = connections (world st) ++ [Some (database (world st))]
    /\ transaction_open (in_transaction st1 (length (connections (world st))))
       = true
    /\ transaction_open st1 = false.
Proof.
  destruct st as [[e n o c] [db conns]]. simpl. intros ->.
  eexists. split; [reflexivity|]. simpl. repeat split.
  unfold transaction_open. simpl.
  rewrite lookup_app_r by reflexivity. rewrite Nat.sub_diag. reflexivity.
Qed.

Lemma open_transaction_clones_witness :
  exists st1,
    open_transaction (sample_state (Some "populated"))
      = (Ok (mkTable (AConnection 0) (Some "populated") None None), st1)
    /\ transaction_open (in_transaction st1 0) = true.
Proof.
  destruct (open_transaction_clones (sample_state (Some "populated")) eq_refl)
    as (st1 & Hopen & _ & _ & _ & Htx & _).
  exists st1. split; [exact Hopen | exact Htx].
Defined.

Lemma lookup_insert_same {A} (l : list A) (i : nat) (x y : A) :
  l !! i = Some x -> <[i := y]> l !! i = Some y.
Proof.
  intros H. apply list_lookup_insert_eq. apply (lookup_lt_Some l i x H).
Qed.

(** X18. A transaction ends once.  On an accessor whose connection has
    a transaction in progress, after any reads and writes through the
    accessor, [rollback] succeeds and puts the database back to the
    snapshot taken when the transaction began, and [commit] succeeds and
    keeps the database as it is; either way no transaction is left in
    progress, so a second [commit] or [rollback] raises. *)
Theorem transaction_ends_once (rt : Runtime) (d : Call) (st : State)
    (c : nat) (snapshot : gmap string Relation) :
  engine (self st) = AConnection c ->
  connections (world st) !! c = Some (Some snapshot) ->
  is_transaction_call d = false ->
  (exists st3,
     rollback (snd (run_call rt d st)) = (Ok tt, st3)
     /\ database (world st3) = snapshot
     /\ self st3 = self (snd (run_call rt d st))
     /\ transaction_open st3 = false
     /\ (exists msg, rollback st3 = (Raise (AttributeError msg), st3)))
  /\ (exists st3,
     commit (snd (run_call rt d st)) = (Ok tt, st3)
     /\ database (world st3) = database (world (snd (run_call rt d st)))
     /\ self st3 = self (snd (run_call rt d st))
     /\ transaction_open st3 = false
     /\ (exists msg, commit st3 = (Raise (AttributeError msg), st3))).
Proof.
  intros He Hc Hd.
  pose proof (run_call_transaction_state rt d Hd st) as H.
  unfold transaction_state in H. injection H as He2 Hconn.
  destruct (snd (run_call rt d st)) as [[e n o cx] [db conns]].
  simpl in He2, Hconn. rewrite He in He2. subst e conns.
  pose proof (lookup_insert_same _ c _ None Hc) as Hnone.
  split.
  - eexists. split.
    { unfold rollback, connection_get, get_transaction. unfold_monad. simpl.
      rewrite Hc. reflexivity. }
    simpl. repeat split.
    + unfold transaction_open. simpl. rewrite Hnone. reflexivity.
    + eexists. unfold rollback, connection_get, get_transaction.
      unfold_monad. simpl. rewrite Hnone. reflexivity.
  - eexists. split.
    { unfold commit, connection_get, get_transaction. unfold_monad. simpl.
      rewrite Hc. reflexivity. }
    simpl. repeat split.
    + unfold transaction_open. simpl. rewrite Hnone. reflexivity.
    + eexists. unfold commit, connection_get, get_transaction.
      unfold_monad. simpl. rewrite Hnone. reflexivity.
Qed.

(** The state of a transaction opened on the test database. *)
Lemma sample_transaction_open :
  connections (world (mkState (mkTable (AConnection 0) (Some "populated") None None)
                        (mkWorld {[ "populated" := populated ]}
                                 [Some {[ "populated" := populated ]}])))
    !! 0%nat
  = Some (Some {[ "populated" := populated ]}).
Proof. reflexivity. Qed.

Lemma transaction_ends_once_witness :
  exists st3,
    rollback
      (snd (run_call sample_runtime (CallDelete (QDict []))
              (mkState (mkTable (AConnection 0) (Some "populated") None None)
                 (mkWorld {[ "populated" := populated ]}
                          [Some {[ "populated" := populated ]}]))))
    = (Ok tt, st3)
    /\ database (world st3) = {[ "populated" := populated ]}.
Proof.
  destruct (transaction_ends_once sample_runtime (CallDelete (QDict []))
              (mkState (mkTable (AConnection 0) (Some "populated") None None)
                 (mkWorld {[ "populated" := populated ]}
                          [Some {[ "populated" := populated ]}]))
              0 {[ "populated" := populated ]} eq_refl
              sample_transaction_open eq_refl)
    as [(st3 & Hr & Hdb & _) _].
  exists st3. split; [exact Hr | exact Hdb].
Defined.



(** ** The name and the schema handle *)

Lemma invariant_bind {A B} (P : Table -> Prop) (m : M A) (k : A -> M B) :
  invariant P m -> (forall x, invariant P (k x)) -> invariant P (m ≫= k).
Proof.
  intros Hm Hk st HP. unfold mbind, M_bind. pose proof (Hm st HP) as H1.
  destruct (m st) as [[a|e] st1]; simpl in *; [|exact H1].
  apply (Hk a st1 H1).
Qed.

Lemma invariant_fmap {A B} (P : Table -> Prop) (g : A -> B) (m : M A) :
  invariant P m -> invariant P (g <$> m).
Proof.
  intros Hm st HP. unfold fmap, M_fmap. pose proof (Hm st HP) as H1.
  destruct (m st) as [[a|e] st1]; exact H1.
Qed.

Lemma invariant_self {A} (P : Table -> Prop) (m : M A) :
  (forall st, self (snd (m st)) = self st) -> invariant P m.
Proof. intros H st HP. rewrite H. exact HP. Qed.

Lemma coherent_object_get : invariant coherent object_get.
Proof.
  intros st HP. rewrite object_get_unfold.
  destruct (_object (self st)) as [o|] eqn:Ho; [exact HP|].
  destruct (_name (self st)) as [n|] eqn:Hn; [|exact HP].
  destruct (database (world st) !! n); [|exact HP].
  intros o [= <-]. simpl. exact Hn.
Qed.

Lemma coherent_name_of (t : Table) : coherent t -> name_of t = _name t.
Proof.
  unfold coherent, name_of. intros H.
  destruct (_object t) as [o|]; [|reflexivity].
  symmetry. apply H. reflexivity.
Qed.

Lemma coherent_reflect : invariant coherent reflect.
Proof.
  intros [[e n o c] w] HP.
  pose proof (coherent_name_of _ HP) as Hname. unfold name_of in Hname.
  simpl in Hname.
  unfold reflect, reflect_table, name_get. unfold_monad. simpl.
  rewrite Hname.
  destruct n as [n|]; simpl; [|exact HP].
  destruct (database w !! n); simpl; [|exact HP].
  intros o' [= <-]. reflexivity.
Qed.

Lemma coherent_create (rt : Runtime) (columns : CreateArg) :
  invariant coherent (create rt columns).
Proof.
  intros st HP. rewrite create_unfold.
  destruct (create_columns columns) as [cols|]; [|exact HP].
  rewrite (coherent_name_of _ HP).
  destruct (_name (self st)) as [n|] eqn:Hn; [|exact HP].
  pose proof (execute_keeps_self rt (inr (CreateTable (mkSqlTable n cols))) st)
    as Hself.
  destruct (execute rt (inr (CreateTable (mkSqlTable n cols))) st)
    as [[rows|e] st2]; simpl in *.
  - intros o [= <-]. simpl. rewrite Hself. exact Hn.
  - rewrite Hself. exact HP.
Qed.

Lemma self_kept_transaction_end (failed : bool) (st : State) :
  self (snd (__exit__ failed st)) = self st
  /\ self (snd (rollback st)) = self st
  /\ self (snd (commit st)) = self st.
Proof.
  destruct st as [[e n o c] [db conns]].
  unfold __exit__, rollback, commit, connection_get, get_transaction.
  unfold_monad. simpl. repeat split.
  - destruct c as [[c|]|]; try reflexivity. cbn [connections world].
    destruct (conns !! c) as [[snapshot|]|]; reflexivity.
  - destruct e as [|id|id]; try reflexivity. cbn [connections world].
    destruct (conns !! id) as [[snapshot|]|]; reflexivity.
  - destruct e as [|id|id]; try reflexivity. cbn [connections world].
    destruct (conns !! id) as [[snapshot|]|]; reflexivity.
Qed.

Lemma coherent_open_transaction : invariant coherent open_transaction.
Proof.
  intros [[e n o c] [db conns]] HP.
  unfold open_transaction, begin_. unfold_monad. simpl.
  destruct e as [|id|id]; simpl; try exact HP.
  destruct (conns !! id) as [[snapshot|]|]; exact HP.
Qed.

Ltac coherent_steps :=
  repeat first
    [ solve [ eauto 2 using coherent_object_get ]
    | solve [ apply invariant_self, execute_keeps_self ]
    | solve [ apply invariant_self; intros [[? ? ? ?] [? ?]]; reflexivity ]
    | progress intros
    | match goal with
      | |- invariant _ (match ?x with _ => _ end) => destruct x
      | |- invariant _ (_ ≫= _) => apply invariant_bind
      | |- invariant _ (_ <$> _) => apply invariant_fmap
      end ].

Lemma coherent_mapM {A B} (g : A -> M B) (l : list A) :
  (forall x, invariant coherent (g x)) -> invariant coherent (mapM g l).
Proof.
  intros Hg. induction l as [|x l IH]; simpl.
  - intros st HP. exact HP.
  - apply invariant_bind; [apply Hg|]. intros y.
    apply invariant_bind; [exact IH|]. intros ys st HP. exact HP.
Qed.

Lemma coherent_column_getitem (col : string) :
  invariant coherent (column_getitem col).
Proof. unfold column_getitem. coherent_steps. Qed.

Lemma coherent_select_list (rt : Runtime) (qry : Query)
    (columns : option (list string)) :
  invariant coherent (select_list rt qry columns).
Proof.
  unfold select_list, select, select_statement, list_, _format_results,
    _get_types.
  pose proof (fun l => coherent_mapM column_getitem l coherent_column_getitem).
  coherent_steps.
Qed.

Lemma run_call_coherent (rt : Runtime) (c : Call) :
  invariant coherent (run_call rt c).
Proof.
  destruct c; simpl; unfold discard.
  - coherent_steps.
  - intros [[e n o c] w] _ o' H. discriminate H.
  - coherent_steps.
  - intros [[e n o c] w] _ o' [= <-]. reflexivity.
  - coherent_steps.
  - intros [[e n o c] w] HP. exact HP.
  - apply coherent_reflect.
  - apply coherent_create.
  - pose proof (coherent_select_list rt qry columns). coherent_steps.
  - unfold insert. coherent_steps.
  - unfold delete, delete_statement. coherent_steps.
  - unfold update, update_statement. coherent_steps.
  - unfold count, count_statement. coherent_steps.
  - coherent_steps.
  - pose proof coherent_open_transaction. coherent_steps.
  - apply invariant_self. intros st.
    apply (proj1 (self_kept_transaction_end failed st)).
  - apply invariant_self. intros st.
    apply (proj1 (proj2 (self_kept_transaction_end false st))).
  - apply invariant_self. intros st.
    apply (proj2 (proj2 (self_kept_transaction_end false st))).
Qed.

(** X20. The stored name and the cached schema handle never disagree.
    A new accessor has no handle; every call keeps the property that a
    cached handle is named as the accessor is; so the [name] getter,
    which answers from the handle when there is one, always returns the
    stored name, [reflect] looks up the table of that name, and the copy
    that [open_transaction] returns has the property too. *)
Theorem name_and_handle_agree (rt : Runtime) (c : Call) (st : State) :
  coherent (self st) ->
  coherent (self (snd (run_call rt c st)))
  /\ name_get st = (Ok (_name (self st)), st)
  /\ (forall table engine, coherent (Table_init table engine))
  /\ (forall t st1, open_transaction st = (Ok t, st1) -> coherent t)
  /\ (forall st1, reflect st = (Ok tt, st1) ->
      exists n rel,
        _name (self st) = Some n
        /\ database (world st) !! n = Some rel
        /\ _object (self st1) = Some (mkSqlTable n (rel_columns rel))).
Proof.
  intros HP. split; [apply (run_call_coherent rt c st HP)|].
  pose proof (coherent_name_of _ HP) as Hname.
  split; [|split; [|split]].
  - change (name_get st) with (Ok (name_of (self st)), st). rewrite Hname.
    reflexivity.
  - intros table engine o H. discriminate H.
  - destruct st as [[e n o cx] [db conns]].
    unfold open_transaction, begin_. unfold_monad. simpl.
    intros t st1.
    destruct e as [|id|id]; simpl.
    + intros [= <- _]. exact HP.
    + destruct (conns !! id) as [[snapshot|]|]; simpl; try discriminate.
      intros [= <- _]. exact HP.
    + discriminate.
  - destruct st as [[e n o cx] w]. unfold name_of in Hname. simpl in Hname.
    unfold reflect, reflect_table, name_get. unfold_monad. simpl.
    rewrite Hname. intros st1.
    destruct n as [n|]; simpl; [|discriminate].
    destruct (database w !! n) as [rel|] eqn:Hdb; simpl; [|discriminate].
    intros [= <-]. exists n, rel. repeat split. exact Hdb.
Qed.

Lemma sample_coherent (table : option string) :
  coherent (self (sample_state table)).
Proof. intros o H. discriminate H. Qed.

Lemma name_and_handle_agree_witness :
  coherent (self (snd (run_call sample_runtime (CallCount QNone)
                         (sample_state (Some "populated")))))
  /\ name_get (sample_state (Some "populated"))
     = (Ok (Some "populated"), sample_state (Some "populated")).
Proof.
  destruct (name_and_handle_agree sample_runtime (CallCount QNone)
              (sample_state (Some "populated"))
              (sample_coherent (Some "populated")))
    as (H1 & H2 & _).
  split; [exact H1 | exact H2].
Defined.

(** ** More on the translator and on re-targeting *)

Lemma expr_columns_fold (es : list Expr) (acc : Expr) :
  expr_columns (fold_left EAnd es acc)
  = expr_columns acc ++ concat (map expr_columns es).
Proof.
  revert acc. induction es as [|e es IH]; intros acc; simpl.
  - rewrite app_nil_r. reflexivity.
  - rewrite IH. simpl. rewrite <- app_assoc. reflexivity.
Qed.

Lemma spec_entry_columns (qry : FilterMapping) :
  forallb translatable qry = true ->
  concat (map expr_columns (omap spec_entry_expression qry))
  = map fst (List.filter (fun kv => negb (is_skip kv)) qry).
Proof.
  induction qry as [|[k v] qry IH]; simpl; [reflexivity|].
  intros H. apply andb_prop in H as [Hk H].
  destruct v as [value|[start end_|values| |repr [magic|] value]];
    simpl; try exact (IH H); try (f_equal; exact (IH H)).
  unfold translatable in Hk. simpl in Hk. discriminate Hk.
Qed.

(** X21. The translation mentions exactly the keys of the filter, once
    each and in the filter's order, the keys of [skip] entries left out;
    the empty filter mentions no column. *)
Theorem translation_mentions_the_keys (qry : FilterMapping) :
  forallb translatable qry = true ->
  exists e,
    to_sql_expressions qry None = Ok e
    /\ expr_columns e
       = map fst (List.filter (fun kv => negb (is_skip kv)) qry).
Proof.
  intros H. eexists. split.
  - apply to_sql_expressions_from_translatable, H.
  - rewrite expr_columns_fold, (spec_entry_columns qry H). reflexivity.
Qed.

Lemma translation_mentions_the_keys_witness :
  exists e,
    to_sql_expressions
      [("score", Oper (Between (VInt 100) (VInt 220)));
       ("name", Oper Skip); ("id", Plain (VStr "a"))] None = Ok e
    /\ expr_columns e = ["score"; "id"].
Proof.
  exact (translation_mentions_the_keys
           [("score", Oper (Between (VInt 100) (VInt 220)));
            ("name", Oper Skip); ("id", Plain (VStr "a"))] eq_refl).
Defined.

(** X22. Assigning the name re-targets the accessor: whatever handle
    was cached, after [name = n] the next access reflects the table [n],
    and [count] reports that table's rows. *)
Theorem renamed_accessor_reflects_anew (rt : Runtime) (st : State)
    (n : string) (rel : Relation) :
  database (world st) !! n = Some rel ->
  (engine (self st) = AnEngine \/ exists c, engine (self st) = AConnection c) ->
  exists st1,
    (name_set (Some n);; count rt QNone) st
    = (Ok (VInt (Z.of_nat (length (rel_rows rel)))), st1)
    /\ _object (self st1) = Some (mkSqlTable n (rel_columns rel))
    /\ _name (self st1) = Some n
    /\ world st1 = world st.
Proof.
  intros Hdb He.
  set (st0 := mkState (mkTable (engine (self st)) (Some n) None (_ctx (self st)))
                      (world st)).
  assert (Hb : bound_to st0 n rel).
  { split; [exact He|]. split; [exact Hdb|]. left. split; reflexivity. }
  exists (resolved st0 n rel). split; [|repeat split].
  unfold mbind at 1, M_bind at 1.
  change (name_set (Some n) st) with (Ok tt, st0). cbv beta iota.
  rewrite (count_bound rt QNone ETrue st0 n rel eq_refl Hb eq_refl).
  rewrite filter_matches_true. reflexivity.
Qed.

Lemma renamed_accessor_reflects_anew_witness :
  exists st1,
    (name_set (Some "populated");; count sample_runtime QNone)
      (sample_state (Some "missing"))
    = (Ok (VInt 3), st1).
Proof.
  destruct (renamed_accessor_reflects_anew sample_runtime
              (sample_state (Some "missing")) "populated" populated
              eq_refl (or_introl eq_refl))
    as (st1 & H & _).
  exists st1. exact H.
Defined.

(** ** Reads do not write, failed writes change nothing *)

Lemma object_get_world (st : State) : world (snd (object_get st)) = world st.
Proof.
  rewrite object_get_unfold.
  destruct (_object (self st)); [reflexivity|].
  destruct (_name (self st)) as [n|]; [|reflexivity].
  destruct (database (world st) !! n); reflexivity.
Qed.

Lemma execute_failed (rt : Runtime) (stmt : Statement) (st st' : State)
    (e : Exception) :
  execute rt (inr stmt) st = (Raise e, st') -> st' = st.
Proof.
  rewrite execute_unfold.
  destruct (engine (self st)); try (intros [= _ <-]; reflexivity);
    (destruct (run_statement rt stmt (database (world st))) as [[db rows]|];
     [discriminate | intros [= _ <-]; reflexivity]).
Qed.

Lemma execute_read (rt : Runtime) (stmt : Statement) (st : State) :
  (forall db db' rows, run_statement rt stmt db = Ok (db', rows) -> db' = db) ->
  world (snd (execute rt (inr stmt) st)) = world st.
Proof.
  intros Hread. rewrite execute_unfold.
  destruct (engine (self st)); try reflexivity;
    (destruct (run_statement rt stmt (database (world st)))
       as [[db rows]|] eqn:Hrun; [|reflexivity];
     apply Hread in Hrun; subst db; simpl;
     destruct (world st); reflexivity).
Qed.

Lemma run_select_reads (rt : Runtime) (o : SqlTable) (cols : list Column)
    (w : Expr) (db db' : gmap string Relation) (rows : list BackendRow) :
  run_statement rt (Select o cols w) db = Ok (db', rows) -> db' = db.
Proof.
  simpl. destruct (lookup_relation db o) as [rel|]; simpl; [|discriminate].
  destruct (check_columns rel _) as [[]|]; simpl; [|discriminate].
  intros [= <- _]. reflexivity.
Qed.

Lemma run_count_reads (rt : Runtime) (o : SqlTable) (w : option Expr)
    (db db' : gmap string Relation) (rows : list BackendRow) :
  run_statement rt (SelectCount o w) db = Ok (db', rows) -> db' = db.
Proof.
  simpl. destruct (lookup_relation db o) as [rel|]; simpl; [|discriminate].
  destruct (check_columns rel _) as [[]|]; simpl; [|discriminate].
  intros [= <- _]. reflexivity.
Qed.

Lemma count_statement_world (qry : Query) (st : State) :
  world (snd (count_statement qry st)) = world st
  /\ match fst (count_statement qry st) with
     | Ok stmt => exists o w, stmt = SelectCount o w
     | Raise _ => True
     end.
Proof.
  unfold count_statement. unfold_monad.
  pose proof (object_get_world st) as Hw.
  destruct (object_get st) as [[o|e] st1]; simpl in Hw; [|split; [exact Hw|exact I]].
  destruct qry as [|p|sql|d|e]; simpl;
    try destruct (to_sql_expressions d None) as [w|]; simpl;
    try destruct (where_ _); simpl; split; eauto.
Qed.

Lemma delete_statement_world (qry : Query) (st : State) :
  world (snd (delete_statement qry st)) = world st.
Proof.
  unfold delete_statement. unfold_monad.
  pose proof (object_get_world st) as Hw.
  destruct qry as [|p|sql|d|e]; simpl;
    try (destruct (to_sql_expressions d None) as [w|]; simpl; [|reflexivity]);
    destruct (object_get st) as [[o|e'] st1]; simpl in Hw |- *;
    try destruct (where_ _); exact Hw.
Qed.

Lemma update_statement_world (qry : Query) (values : gmap string Value)
    (st : State) :
  world (snd (update_statement qry values st)) = world st.
Proof.
  unfold update_statement. unfold_monad.
  pose proof (object_get_world st) as Hw.
  destruct qry as [|p|sql|d|e]; simpl;
    try (destruct (to_sql_expressions d None) as [w|]; simpl; [|reflexivity]);
    destruct (object_get st) as [[o|e'] st1]; simpl in Hw |- *;
    try destruct (where_ _); exact Hw.
Qed.

(** X23. Reads do not write and failed writes change nothing:
    [count] leaves the database and the connections as they are
    whatever it is given and whatever it returns; so does
    [list(select(F))] for a filter given as nothing, a mapping or an
    expression; and when [insert], [delete] or [update] raises, whatever
    they were given, the database is what it was before the call. *)
Theorem reads_and_failed_writes_keep_the_database (rt : Runtime) (st : State) :
  (forall qry, world (snd (count rt qry st)) = world st)
  /\ (forall qry, match qry with QStr _ | QPath _ => False | _ => True end ->
      world (snd (select_list rt qry None st)) = world st)
  /\ (forall data e st', insert rt data st = (Raise e, st') -> world st' = world st)
  /\ (forall qry e st',
      delete rt qry st = (Raise e, st') -> world st' = world st)
  /\ (forall qry values e st',
      update rt qry values st = (Raise e, st') -> world st' = world st).
Proof.
  split; [|split; [|split; [|split]]].
  - intros qry. unfold count. unfold mbind at 1, M_bind at 1.
    destruct (count_statement_world qry st) as [Hw Hshape].
    destruct (count_statement qry st) as [[stmt|e] st1]; simpl in Hw, Hshape;
      [|exact Hw].
    destruct Hshape as (o & w & ->).
    unfold mbind at 1, M_bind at 1.
    pose proof (execute_read rt (SelectCount o w) st1
                  (run_count_reads rt o w)) as Hx.
    destruct (execute rt (inr (SelectCount o w)) st1) as [[rows|e] st2];
      simpl in Hx |- *; [|congruence].
    destruct rows as [|[|[k v] r] rows]; simpl; congruence.
  - intros qry Hform.
    destruct (query_expression qry) as [w|e] eqn:Hq.
    + rewrite (select_list_unfold rt qry w st Hq).
      pose proof (object_get_world st) as Hw.
      destruct (object_get st) as [[o|e] st1]; simpl in Hw; [|exact Hw].
      pose proof (execute_read rt (Select o [] w) st1
                    (run_select_reads rt o [] w)) as Hx.
      destruct (execute rt (inr (Select o [] w)) st1) as [[rows|e] st2];
        simpl in Hx |- *; [|congruence].
      destruct (format_rows rt (tbl_columns o) rows); simpl; congruence.
    + destruct qry as [|p|sql|d|e']; try discriminate; try destruct Hform.
      simpl in Hq. unfold select_list, select.
      unfold mbind at 1 2, M_bind at 1 2.
      rewrite (proj1 (statement_of_failed_mapping rt d e ∅ st Hq)).
      reflexivity.
  - intros data e st'. rewrite insert_unfold.
    pose proof (object_get_world st) as Hw.
    destruct (object_get st) as [[o|e0] st1]; simpl in Hw;
      [|intros [= _ <-]; exact Hw].
    destruct (execute rt (inr (Insert o data)) st1) as [[rows|e1] st2] eqn:Hx;
      [discriminate|].
    intros [= _ <-]. apply execute_failed in Hx. congruence.
  - intros qry e st'. unfold delete. unfold mbind at 1, M_bind at 1.
    pose proof (delete_statement_world qry st) as Hw.
    destruct (delete_statement qry st) as [[stmt|e0] st1]; simpl in Hw;
      [|intros [= _ <-]; exact Hw].
    unfold mbind at 1, M_bind at 1.
    destruct (execute rt (inr stmt) st1) as [[rows|e1] st2] eqn:Hx;
      [discriminate|].
    intros [= _ <-]. apply execute_failed in Hx. congruence.
  - intros qry values e st'. unfold update. unfold mbind at 1, M_bind at 1.
    pose proof (update_statement_world qry values st) as Hw.
    destruct (update_statement qry values st) as [[stmt|e0] st1]; simpl in Hw;
      [|intros [= _ <-]; exact Hw].
    unfold mbind at 1, M_bind at 1.
    destruct (execute rt (inr stmt) st1) as [[rows|e1] st2] eqn:Hx;
      [discriminate|].
    intros [= _ <-]. apply execute_failed in Hx. congruence.
Qed.

Lemma reads_and_failed_writes_keep_the_database_witness :
  world (snd (count sample_runtime (QDict [("name", Plain (VStr "John"))])
                (sample_state (Some "populated"))))
  = sample_world.
Proof.
  exact (proj1 (reads_and_failed_writes_keep_the_database sample_runtime
                  (sample_state (Some "populated")))
               (QDict [("name", Plain (VStr "John"))])).
Defined.
